(** * PL/Java String type: a shallow embedding of src/C/pljava/type/String.c

    The C functions are written as computations over an explicit [World]
    (backend memory, the static type cache, the JVM heap and its JNI
    reference table) in a state-and-failure monad.  Every primitive the
    file calls but does not define (palloc/pfree, the fmgr call protocol,
    pg_do_encoding_conversion, the JNI wrappers, the catalog lookup) is
    modelled by its documented contract and writes what it did to a log,
    so that "is invoked", "is released" and "is not invoked" are
    statements about that log. *)

From stdpp Require Import gmap list strings.
From Stdlib Require Import ZArith Lia.

Open Scope Z_scope.

(** ** Scalar types *)

Definition Oid := Z.
Definition Datum := Z.
(** A JNI reference; [0] is the null reference. *)
Definition jobject := Z.
Definition jstring := jobject.
(** pg_wchar.h numbers its encodings. *)
Definition encoding := Z.
Definition PG_UTF8 : encoding := 6.
Definition PG_LATIN1 : encoding := 8.

(** pg_type.h object identifiers of the types String_initialize registers. *)
Definition TEXTOID : Oid := 25.
Definition CSTRINGOID : Oid := 2275.
Definition BPCHAROID : Oid := 1042.
Definition NAMEOID : Oid := 19.
Definition VARCHAROID : Oid := 1043.

(** ** Pointers

    A C pointer is a block and a byte offset into it; pointer comparison
    ([utf8 != src]) is equality of both.  [NULL] is block 0, which is never
    allocated. *)

Record pointer := Ptr { p_block : Z; p_off : Z }.

#[global] Instance pointer_eq_dec : EqDecision pointer.
Proof. solve_decision. Defined.

Definition NULL : pointer := Ptr 0 0.

Definition ptr_add (p : pointer) (n : Z) : pointer :=
  Ptr (p_block p) (p_off p + n).

(** ** Structures *)

(** A [TypeClass] is a pointer to a struct TypeClass_. *)
Definition TypeClass := pointer.

Record FmgrInfo := { fn_oid : Oid }.

(** The three columns of a pg_type row the file reads. *)
Record Form_pg_type := { typoutput : Oid; typinput : Oid; typelem : Oid }.

(** struct String_ (String_priv.h): the Type_ header followed by the two
    conversion routines and the element type. *)
Record String_ := {
  m_class : TypeClass;
  typeId : Oid;
  textOutput : FmgrInfo;
  textInput : FmgrInfo;
  elementType : Oid
}.

(** Who may release a byte buffer: the backend allocator (pfree) or the
    JVM (ReleaseStringUTFChars). *)
Inductive owner := PgContext | JvmChars.

#[global] Instance owner_eq_dec : EqDecision owner.
Proof. solve_decision. Defined.

Inductive chunk :=
| Raw (o : owner) (bs : list Z)   (* a byte buffer *)
| Obj (s : String_)               (* a String instance *)
| Info (data : list Z)            (* a StringInfoData and its data area *)
| Cls (name : string).            (* a struct TypeClass_ *)

(** ** The JVM side *)

(** What [toString()] does on an object that is not a String. *)
Inductive stringify :=
| Renders (chars : list Z)
| ReturnsNull
| Raises.

Inductive jobj :=
| JString (chars : list Z)   (* java.lang.String, content as (modified) UTF-8 *)
| JObject (ts : stringify).

Definition is_string (o : jobj) : bool :=
  match o with JString _ => true | JObject _ => false end.

Inductive jmethodID := s_Object_toString.

#[global] Instance jmethodID_eq_dec : EqDecision jmethodID.
Proof. solve_decision. Defined.

(** The factories that can be registered for a type. *)
Inductive TypeObtainer :=
| Obtainer_String_obtain
| Obtainer_other (id : Z).

(** ** The log of primitive calls (newest first) *)

Inductive event :=
| EvPalloc (p : pointer)
| EvPfree (p : pointer)
| EvPstrdup (src ret : pointer)
| EvConvert (src : pointer) (len : Z) (from to : encoding) (ret : pointer)
| EvConvertError (src : pointer) (len : Z) (from to : encoding)
| EvOutput (fn : Oid) (arg : Datum) (elem : Oid) (typmod : Z)
| EvInput (fn : Oid) (arg : pointer) (elem : Oid) (typmod : Z)
| EvCallObjectMethod (h : jobject) (m : jmethodID)
| EvNewStringUTF (p : pointer) (h : jobject)
| EvGetStringUTFChars (h : jobject) (p : pointer)
| EvReleaseStringUTFChars (h : jobject) (p : pointer)
| EvDeleteLocalRef (h : jobject)
| EvGetValidTuple (t : Oid)
| EvReleaseSysCache (t : Oid)
| EvAllocInstance (cls : TypeClass) (t : Oid) (p : pointer)
| EvAppendStringInfo (buf src : pointer).

#[global] Instance event_eq_dec : EqDecision event.
Proof. solve_decision. Defined.

(** ** The world *)

Record World := {
  mem : gmap Z chunk;               (* live blocks *)
  s_StringClass : TypeClass;        (* static TypeClass s_StringClass *)
  s_cache : gmap Z pointer;         (* static HashMap s_cache, keyed by Oid *)
  pg_registry : gmap Z TypeObtainer;        (* Type_registerPgType *)
  java_registry : gmap string TypeObtainer; (* Type_registerJavaType *)
  jheap : gmap Z jobj;              (* Java objects *)
  jrefs : gmap Z Z;                 (* live JNI references: handle to object *)
  jpending : bool;                  (* a Java exception is pending *)
  trace : list event
}.

Definition with_mem (f : gmap Z chunk → gmap Z chunk) (w : World) : World :=
  {| mem := f (mem w); s_StringClass := s_StringClass w; s_cache := s_cache w;
     pg_registry := pg_registry w; java_registry := java_registry w;
     jheap := jheap w; jrefs := jrefs w; jpending := jpending w;
     trace := trace w |}.

Definition with_StringClass (c : TypeClass) (w : World) : World :=
  {| mem := mem w; s_StringClass := c; s_cache := s_cache w;
     pg_registry := pg_registry w; java_registry := java_registry w;
     jheap := jheap w; jrefs := jrefs w; jpending := jpending w;
     trace := trace w |}.

Definition with_cache (f : gmap Z pointer → gmap Z pointer) (w : World) : World :=
  {| mem := mem w; s_StringClass := s_StringClass w; s_cache := f (s_cache w);
     pg_registry := pg_registry w; java_registry := java_registry w;
     jheap := jheap w; jrefs := jrefs w; jpending := jpending w;
     trace := trace w |}.

Definition with_pg_registry (f : gmap Z TypeObtainer → gmap Z TypeObtainer)
    (w : World) : World :=
  {| mem := mem w; s_StringClass := s_StringClass w; s_cache := s_cache w;
     pg_registry := f (pg_registry w); java_registry := java_registry w;
     jheap := jheap w; jrefs := jrefs w; jpending := jpending w;
     trace := trace w |}.

Definition with_java_registry
    (f : gmap string TypeObtainer → gmap string TypeObtainer)
    (w : World) : World :=
  {| mem := mem w; s_StringClass := s_StringClass w; s_cache := s_cache w;
     pg_registry := pg_registry w; java_registry := f (java_registry w);
     jheap := jheap w; jrefs := jrefs w; jpending := jpending w;
     trace := trace w |}.

Definition with_jheap (f : gmap Z jobj → gmap Z jobj) (w : World) : World :=
  {| mem := mem w; s_StringClass := s_StringClass w; s_cache := s_cache w;
     pg_registry := pg_registry w; java_registry := java_registry w;
     jheap := f (jheap w); jrefs := jrefs w; jpending := jpending w;
     trace := trace w |}.

Definition with_jrefs (f : gmap Z Z → gmap Z Z) (w : World) : World :=
  {| mem := mem w; s_StringClass := s_StringClass w; s_cache := s_cache w;
     pg_registry := pg_registry w; java_registry := java_registry w;
     jheap := jheap w; jrefs := f (jrefs w); jpending := jpending w;
     trace := trace w |}.

Definition with_jpending (b : bool) (w : World) : World :=
  {| mem := mem w; s_StringClass := s_StringClass w; s_cache := s_cache w;
     pg_registry := pg_registry w; java_registry := java_registry w;
     jheap := jheap w; jrefs := jrefs w; jpending := b;
     trace := trace w |}.

Definition with_event (e : event) (w : World) : World :=
  {| mem := mem w; s_StringClass := s_StringClass w; s_cache := s_cache w;
     pg_registry := pg_registry w; java_registry := java_registry w;
     jheap := jheap w; jrefs := jrefs w; jpending := jpending w;
     trace := e :: trace w |}.

(** ** Computations that change the world and may fail *)

Inductive failure :=
| MemoryFault                 (* a wild read, write or release *)
| JniFault                    (* a JNI call on a dead reference *)
| CatalogLookupFailure        (* PgObject_getValidTuple found no row *)
| ConversionRoutineFailure    (* the input or output routine raised *)
| EncodingConversionFailure.  (* untranslatable bytes *)

Inductive outcome (A : Type) :=
| Done (a : A) (w : World)
| Fail (f : failure) (w : World).
Arguments Done {A} a w.
Arguments Fail {A} f w.

Definition world_of {A} (o : outcome A) : World :=
  match o with Done _ w => w | Fail _ w => w end.

Definition completed {A} (o : outcome A) : bool :=
  match o with Done _ _ => true | Fail _ _ => false end.

Definition M (A : Type) := World → outcome A.

Definition ret {A} (a : A) : M A := fun w => Done a w.

Definition raise {A} (f : failure) : M A := fun w => Fail f w.

Definition bind {A B} (m : M A) (k : A → M B) : M B :=
  fun w => match m w with
           | Done a w' => k a w'
           | Fail f w' => Fail f w'
           end.

Notation "x <- m ;; k" := (bind m (fun x => k))
  (at level 100, m at next level, right associativity).
Notation "m ;;; k" := (bind m (fun _ => k))
  (at level 100, right associativity).

Definition log (e : event) : M unit := fun w => Done tt (with_event e w).

Definition of_option {A} (f : failure) (o : option A) : M A :=
  match o with Some a => ret a | None => raise f end.

(** ** Bytes in memory (postgres.h, string.h) *)

Definition VARHDRSZ : Z := 4.

(** The four-byte length word of a varlena, least significant byte first. *)
Definition encode_int32 (n : Z) : list Z :=
  [n mod 256; (n / 256) mod 256; (n / 65536) mod 256; (n / 16777216) mod 256].

Definition decode_int32 (bs : list Z) : option Z :=
  match bs with
  | [b0; b1; b2; b3] => Some (b0 + 256 * b1 + 65536 * b2 + 16777216 * b3)
  | _ => None
  end.

(** The bytes of a C string: everything before the first zero byte.
    [None] when the block ends before a terminator is found. *)
Fixpoint cstr (bs : list Z) : option (list Z) :=
  match bs with
  | [] => None
  | b :: rest => if decide (b = 0) then Some [] else (b ::.) <$> cstr rest
  end.

Definition chunk_bytes (c : chunk) : option (list Z) :=
  match c with
  | Raw _ bs => Some bs
  | Info bs => Some bs
  | Obj _ | Cls _ => None
  end.

(** The bytes of the block of [p] from [p] on. *)
Definition bytes_at (p : pointer) (w : World) : option (list Z) :=
  if decide (0 ≤ p_off p) then
    c ← mem w !! p_block p;
    bs ← chunk_bytes c;
    if decide (p_off p ≤ Z.of_nat (length bs))
    then Some (drop (Z.to_nat (p_off p)) bs) else None
  else None.

Definition load_bytes (p : pointer) (n : Z) : M (list Z) := fun w =>
  match bytes_at p w with
  | Some bs =>
      if decide (Z.of_nat (length bs) < n) then Fail MemoryFault w
      else Done (take (Z.to_nat n) bs) w
  | None => Fail MemoryFault w
  end.

Definition load_cstring (p : pointer) : M (list Z) := fun w =>
  match bytes_at p w ≫= cstr with
  | Some cs => Done cs w
  | None => Fail MemoryFault w
  end.

Definition strlen (p : pointer) : M Z :=
  cs <- load_cstring p ;; ret (Z.of_nat (length cs)).

(** Overwrite [length new] bytes of [old] from position [i] on. *)
Definition splice (old : list Z) (i : nat) (new : list Z) : list Z :=
  take i old ++ new ++ drop (i + length new) old.

Definition store_bytes (p : pointer) (new : list Z) : M unit := fun w =>
  match mem w !! p_block p with
  | Some (Raw o bs) =>
      if decide (0 ≤ p_off p ∧ p_off p + Z.of_nat (length new) ≤ Z.of_nat (length bs))
      then Done tt (with_mem <[p_block p := Raw o (splice bs (Z.to_nat (p_off p)) new)]> w)
      else Fail MemoryFault w
  | _ => Fail MemoryFault w
  end.

(** VARSIZE reads the length word.  The macro masks off the two high bits
    of the word, which are flags; they are taken to be clear, as they are
    for every size below 2^30, and the theorems about the content of a
    text state that bound. *)
Definition VARSIZE (t : pointer) : M Z :=
  hdr <- load_bytes t VARHDRSZ ;; of_option MemoryFault (decode_int32 hdr).

Definition VARDATA (t : pointer) : pointer := ptr_add t VARHDRSZ.

Definition VARATT_SIZEP_set (t : pointer) (n : Z) : M unit :=
  store_bytes t (encode_int32 n).

Definition memcpy (dst src : pointer) (n : Z) : M unit :=
  bs <- load_bytes src n ;; store_bytes dst bs.

(** ** The backend allocator (PostgreSQL's palloc.h, stringinfo.h)

    The spec's "buffer-allocation/free pair scoped to a long-lived arena". *)

(** A block number that is neither live nor the block of [NULL]. *)
Definition fresh_block (m : gmap Z chunk) : Z := fresh ({[0]} ∪ dom m).

Definition alloc_chunk (c : chunk) : M pointer := fun w =>
  let b := fresh_block (mem w) in
  Done (Ptr b 0) (with_mem <[b := c]> w).

(** palloc: a new buffer of [n] bytes (modelled as zero-filled).  A request
    is taken to be within MaxAllocSize, that is below 2^30: there palloc
    does not refuse it and the C int that holds the size does not wrap.
    The theorems about the content of a text state that bound. *)
Definition palloc (n : Z) : M pointer :=
  p <- alloc_chunk (Raw PgContext (replicate (Z.to_nat n) 0)) ;;
  log (EvPalloc p) ;;; ret p.

(** pfree: [p] has to be the start of a live palloc'd buffer; anything else
    (a pointer into a block, a block of the JVM, a block already released,
    NULL) is a fault. *)
Definition pfree (p : pointer) : M unit := fun w =>
  match mem w !! p_block p with
  | Some (Raw PgContext _) =>
      if decide (p_off p = 0)
      then Done tt (with_event (EvPfree p) (with_mem (delete (p_block p)) w))
      else Fail MemoryFault (with_event (EvPfree p) w)
  | _ => Fail MemoryFault (with_event (EvPfree p) w)
  end.

Definition pstrdup (p : pointer) : M pointer :=
  cs <- load_cstring p ;;
  r <- alloc_chunk (Raw PgContext (cs ++ [0])) ;;
  log (EvPstrdup p r) ;;; ret r.

(** appendStringInfoString: append the C string at [src] to the buffer. *)
Definition appendStringInfoString (buf src : pointer) : M unit :=
  cs <- load_cstring src ;;
  fun w =>
    match mem w !! p_block buf with
    | Some (Info data) =>
        if decide (p_off buf = 0)
        then Done tt (with_event (EvAppendStringInfo buf src)
                        (with_mem <[p_block buf := Info (data ++ cs)]> w))
        else Fail MemoryFault w
    | _ => Fail MemoryFault w
    end.

(** ** The static HashMap

    Modelled from the spec: HashMap.c is not part of the sources at hand;
    the cache is a "mapping from database-type-identifier to
    TypeDescriptor", a look-up of an absent key yields the null pointer the
    callers test for, and a put inserts. *)

Definition HashMap_getByOid (key : Oid) : M pointer := fun w =>
  Done (default NULL (s_cache w !! key)) w.

Definition HashMap_putByOid (key : Oid) (value : pointer) : M unit := fun w =>
  Done tt (with_cache <[key := value]> w).

Definition HashMap_create : M (gmap Z pointer) := ret ∅.

(** ** Type.c: instances and the registry *)

(** Modelled from the spec: TypeClass_alloc2 and TypeClass_allocInstance
    live in Type.c; "constructing a new TypeDescriptor of a given kind
    allocates a payload of the size declared by that kind's TypeClass" in
    the long-lived scope, so an instance is a new block that nothing in
    this file releases. *)
Definition TypeClass_alloc2 (name : string) : M TypeClass :=
  alloc_chunk (Cls name).

(** TypeClass_allocInstance: a new instance of the class, its payload
    not yet filled in. *)
Definition TypeClass_allocInstance (cls : TypeClass) (t : Oid) : M pointer :=
  p <- alloc_chunk (Obj {| m_class := cls; typeId := t;
                           textOutput := {| fn_oid := 0 |};
                           textInput := {| fn_oid := 0 |};
                           elementType := 0 |}) ;;
  log (EvAllocInstance cls t p) ;;; ret p.

Definition load_String (self : pointer) : M String_ := fun w =>
  match mem w !! p_block self with
  | Some (Obj s) => if decide (p_off self = 0) then Done s w
                    else Fail MemoryFault w
  | _ => Fail MemoryFault w
  end.

Definition store_String (self : pointer) (f : String_ → String_) : M unit :=
  s <- load_String self ;;
  fun w => Done tt (with_mem <[p_block self := Obj (f s)]> w).

Definition set_textOutput (fi : FmgrInfo) (s : String_) : String_ :=
  {| m_class := m_class s; typeId := typeId s; textOutput := fi;
     textInput := textInput s; elementType := elementType s |}.

Definition set_textInput (fi : FmgrInfo) (s : String_) : String_ :=
  {| m_class := m_class s; typeId := typeId s; textOutput := textOutput s;
     textInput := fi; elementType := elementType s |}.

Definition set_elementType (e : Oid) (s : String_) : String_ :=
  {| m_class := m_class s; typeId := typeId s; textOutput := textOutput s;
     textInput := textInput s; elementType := e |}.

(** fmgr_info_cxt (PostgreSQL's fmgr.h): fill the FmgrInfo the setter
    names with the routine of the given identifier. *)
Definition fmgr_info_cxt (functionId : Oid)
    (field : FmgrInfo → String_ → String_) (self : pointer) : M unit :=
  store_String self (field {| fn_oid := functionId |}).

(** Modelled from the spec: Type_registerPgType and Type_registerJavaType
    live in Type.c; "register(key, factory): inserts unconditionally;
    re-registering the same key overwrites the previous factory". *)
Definition Type_registerPgType (t : Oid) (f : TypeObtainer) : M unit := fun w =>
  Done tt (with_pg_registry <[t := f]> w).

Definition Type_registerJavaType (name : string) (f : TypeObtainer) : M unit :=
  fun w => Done tt (with_java_registry <[name := f]> w).

(** ** The JNI wrappers

    Modelled from the spec: JNICalls.c is not part of the sources at hand.
    The managed runtime offers "creation of a managed string from a byte
    buffer; extraction of a byte buffer from a managed string; invocation
    of an arbitrary zero-argument stringify capability on any managed
    object, with an exception-check operation that must be polled
    immediately after any such invocation; creation/release of local
    handles".  The wrappers are the JNI functions of the same names. *)

Definition jvalue := jobject.

Definition fresh_ref (m : gmap Z Z) : Z := fresh ({[0]} ∪ dom m).
Definition fresh_obj (m : gmap Z jobj) : Z := fresh (dom m).

Definition new_local_ref (o : Z) : M jobject := fun w =>
  let h := fresh_ref (jrefs w) in
  Done h (with_jrefs <[h := o]> w).

Definition new_object (o : jobj) : M Z := fun w =>
  let id := fresh_obj (jheap w) in
  Done id (with_jheap <[id := o]> w).

Definition deref (h : jobject) : M jobj := fun w =>
  match jrefs w !! h ≫= fun o => jheap w !! o with
  | Some o => Done o w
  | None => Fail JniFault w
  end.

(** NewStringUTF: a new String holding the C string at [p], and a new
    local reference to it. *)
Definition JNI_newStringUTF (p : pointer) : M jstring :=
  cs <- load_cstring p ;;
  o <- new_object (JString cs) ;;
  h <- new_local_ref o ;;
  log (EvNewStringUTF p h) ;;; ret h.

(** GetStringUTFChars: a zero-terminated buffer owned by the JVM. *)
Definition JNI_getStringUTFChars (h : jstring) : M pointer :=
  o <- deref h ;;
  match o with
  | JString cs =>
      p <- alloc_chunk (Raw JvmChars (cs ++ [0])) ;;
      log (EvGetStringUTFChars h p) ;;; ret p
  | JObject _ => raise JniFault
  end.

Definition JNI_releaseStringUTFChars (h : jstring) (p : pointer) : M unit :=
  fun w =>
    match mem w !! p_block p with
    | Some (Raw JvmChars _) =>
        if decide (p_off p = 0)
        then Done tt (with_event (EvReleaseStringUTFChars h p)
                        (with_mem (delete (p_block p)) w))
        else Fail MemoryFault w
    | _ => Fail MemoryFault w
    end.

(** CallObjectMethod with the method id of Object.toString.  A String
    returns itself; any other object does what its [stringify] says.  A
    result comes back under a new local reference; an exception leaves the
    pending flag set and no reference. *)
Definition JNI_callObjectMethod (h : jobject) (m : jmethodID) : M jobject :=
  log (EvCallObjectMethod h m) ;;;
  o <- deref h ;;
  match o with
  | JString _ =>
      fun w => match jrefs w !! h with
               | Some id => new_local_ref id w
               | None => Fail JniFault w
               end
  | JObject (Renders cs) => id <- new_object (JString cs) ;; new_local_ref id
  | JObject ReturnsNull => ret 0
  | JObject Raises => fun w => Done 0 (with_jpending true w)
  end.

Definition JNI_exceptionCheck : M bool := fun w => Done (jpending w) w.

Definition JNI_deleteLocalRef (h : jobject) : M unit := fun w =>
  Done tt (with_event (EvDeleteLocalRef h) (with_jrefs (delete h) w)).

(** The function pointers and names of a struct TypeClass_. *)
Record TypeClass_ := {
  JNISignature : string;
  javaTypeName : string;
  canReplaceType : pointer → pointer → bool;
  coerceDatum : pointer → Datum → M jvalue;
  coerceObject : pointer → jobject → M Datum
}.

(** ** Encoding conversion, the catalog and the fmgr protocol

    The host's own behaviour is a parameter of everything below. *)

Inductive conversion :=
| Unchanged                  (* no conversion is required *)
| Converted (out : list Z)
| Malformed.

Section Host.

(** What pg_do_encoding_conversion computes on a byte span. *)
Variable convert : encoding → encoding → list Z → conversion.
(** GetDatabaseEncoding(). *)
Variable db_encoding : encoding.
(** The output routines: value, element type, type modifier to text. *)
Variable fn_output : Oid → Datum → Oid → Z → option (list Z).
(** The input routines: text, element type, type modifier to value. *)
Variable fn_input : Oid → list Z → Oid → Z → option Datum.
(** The pg_type catalog. *)
Variable pg_type : Oid → option Form_pg_type.

(** pg_do_encoding_conversion "will return the source argument when no
    conversion is required"; otherwise the result is a new palloc'd,
    zero-terminated buffer. *)
Definition pg_do_encoding_conversion (src : pointer) (len : Z)
    (from to : encoding) : M pointer :=
  bs <- load_bytes src len ;;
  match convert from to bs with
  | Unchanged => log (EvConvert src len from to src) ;;; ret src
  | Converted out =>
      r <- alloc_chunk (Raw PgContext (out ++ [0])) ;;
      log (EvConvert src len from to r) ;;; ret r
  | Malformed => log (EvConvertError src len from to) ;;;
                 raise EncodingConversionFailure
  end.

Definition GetDatabaseEncoding : M encoding := ret db_encoding.

(** DatumGetCString(FunctionCall3(flinfo, arg, elem, typmod)) for an output
    routine: the text comes back in a new palloc'd C string. *)
Definition FunctionCall3_output (flinfo : FmgrInfo) (arg : Datum)
    (elem : Oid) (typmod : Z) : M pointer :=
  log (EvOutput (fn_oid flinfo) arg elem typmod) ;;;
  match fn_output (fn_oid flinfo) arg elem typmod with
  | Some cs => alloc_chunk (Raw PgContext (cs ++ [0]))
  | None => raise ConversionRoutineFailure
  end.

(** FunctionCall3(flinfo, CStringGetDatum(s), elem, typmod) for an input
    routine, which reads the C string at [s]. *)
Definition FunctionCall3_input (flinfo : FmgrInfo) (s : pointer)
    (elem : Oid) (typmod : Z) : M Datum :=
  log (EvInput (fn_oid flinfo) s elem typmod) ;;;
  cs <- load_cstring s ;;
  of_option ConversionRoutineFailure (fn_input (fn_oid flinfo) cs elem typmod).

(** Modelled from the spec: PgObject_getValidTuple lives in PgObject.c; it
    is the "function to resolve a type identifier to its catalog row (fails
    if the identifier is invalid)".  Here with GETSTRUCT applied to the
    tuple. *)
Definition PgObject_getValidTuple (t : Oid) : M Form_pg_type :=
  log (EvGetValidTuple t) ;;;
  of_option CatalogLookupFailure (pg_type t).

Definition ReleaseSysCache (t : Oid) : M unit := log (EvReleaseSysCache t).

(** ** String.c *)

Definition _String_canReplaceType (self type : pointer) : bool := true.

Definition String_createJavaString (t : pointer) : M jstring :=
  if decide (t = NULL) then ret 0 else
  let src := VARDATA t in
  size <- VARSIZE t ;;
  let srcLen := size - VARHDRSZ in
  if decide (srcLen = 0) then ret 0 else
  enc <- GetDatabaseEncoding ;;
  utf8 <- pg_do_encoding_conversion src srcLen enc PG_UTF8 ;;
  result <- JNI_newStringUTF utf8 ;;
  (if decide (utf8 = src) then ret tt else pfree utf8) ;;;
  ret result.

Definition String_createJavaStringFromNTS (cp : pointer) : M jstring :=
  if decide (cp = NULL) then ret 0 else
  len <- strlen cp ;;
  enc <- GetDatabaseEncoding ;;
  utf8 <- pg_do_encoding_conversion cp len enc PG_UTF8 ;;
  result <- JNI_newStringUTF utf8 ;;
  (if decide (utf8 = cp) then ret tt else pfree utf8) ;;;
  ret result.

Definition String_createText (javaString : jstring) : M pointer :=
  if decide (javaString = 0) then ret NULL else
  utf8 <- JNI_getStringUTFChars javaString ;;
  len <- strlen utf8 ;;
  enc <- GetDatabaseEncoding ;;
  denc <- pg_do_encoding_conversion utf8 len PG_UTF8 enc ;;
  dencLen <- strlen denc ;;
  let varSize := dencLen + VARHDRSZ in
  result <- palloc varSize ;;
  VARATT_SIZEP_set result varSize ;;;
  memcpy (VARDATA result) denc dencLen ;;;
  (if decide (denc = utf8) then ret tt else pfree denc) ;;;
  JNI_releaseStringUTFChars javaString utf8 ;;;
  ret result.

Definition String_createNTS (javaString : jstring) : M pointer :=
  if decide (javaString = 0) then ret NULL else
  utf8 <- JNI_getStringUTFChars javaString ;;
  len <- strlen utf8 ;;
  enc <- GetDatabaseEncoding ;;
  result <- pg_do_encoding_conversion utf8 len PG_UTF8 enc ;;
  result <- (if decide (result = utf8) then pstrdup result else ret result) ;;
  JNI_releaseStringUTFChars javaString utf8 ;;;
  ret result.

Definition String_appendJavaString (buf : pointer) (javaString : jstring)
    : M unit :=
  if decide (javaString = 0) then ret tt else
  utf8 <- JNI_getStringUTFChars javaString ;;
  len <- strlen utf8 ;;
  enc <- GetDatabaseEncoding ;;
  dbEnc <- pg_do_encoding_conversion utf8 len PG_UTF8 enc ;;
  appendStringInfoString buf dbEnc ;;;
  (if decide (dbEnc = utf8) then ret tt else pfree dbEnc) ;;;
  JNI_releaseStringUTFChars javaString utf8.

Definition _String_coerceDatum (self : pointer) (arg : Datum) : M jvalue :=
  s <- load_String self ;;
  tmp <- FunctionCall3_output (textOutput s) arg (elementType s) (-1) ;;
  result <- String_createJavaStringFromNTS tmp ;;
  pfree tmp ;;;
  ret result.

Definition _String_coerceObject (self : pointer) (jstr : jobject) : M Datum :=
  if decide (jstr = 0) then ret 0 else
  jstr <- JNI_callObjectMethod jstr s_Object_toString ;;
  exc <- JNI_exceptionCheck ;;
  if exc then ret 0 else
  tmp <- String_createNTS jstr ;;
  JNI_deleteLocalRef jstr ;;;
  s <- load_String self ;;
  res <- FunctionCall3_input (textInput s) tmp (elementType s) (-1) ;;
  pfree tmp ;;;
  ret res.

Definition String_create (cls : TypeClass) (typeId : Oid)
    (pgType : Form_pg_type) : M pointer :=
  self <- TypeClass_allocInstance cls typeId ;;
  fmgr_info_cxt (typoutput pgType) set_textOutput self ;;;
  fmgr_info_cxt (typinput pgType) set_textInput self ;;;
  store_String self (set_elementType (typelem pgType)) ;;;
  ret self.

Definition String_fromPgType (typeId : Oid) (pgType : Form_pg_type)
    : M pointer :=
  self <- HashMap_getByOid typeId ;;
  if decide (self = NULL) then
    cls <- (fun w => Done (s_StringClass w) w) ;;
    self <- String_create cls typeId pgType ;;
    HashMap_putByOid typeId self ;;;
    ret self
  else ret self.

Definition StringClass_obtain (self : TypeClass) (typeId : Oid) : M pointer :=
  infant <- HashMap_getByOid typeId ;;
  if decide (infant = NULL) then
    typeTup <- PgObject_getValidTuple typeId ;;
    infant <- String_create self typeId typeTup ;;
    ReleaseSysCache typeId ;;;
    HashMap_putByOid typeId infant ;;;
    ret infant
  else ret infant.

Definition String_obtain (typeId : Oid) : M pointer :=
  cls <- (fun w => Done (s_StringClass w) w) ;;
  StringClass_obtain cls typeId.

(** The members String_initialize assigns to s_StringClass. *)
Definition StringClass_ : TypeClass_ :=
  {| JNISignature := "Ljava/lang/String;";
     javaTypeName := "java.lang.String";
     canReplaceType := _String_canReplaceType;
     coerceDatum := _String_coerceDatum;
     coerceObject := _String_coerceObject |}.

(** String_initialize.  The three JNI look-ups at its head yield the class
    and method ids, which the model has as constructors. *)
Definition String_initialize : M unit :=
  cls <- TypeClass_alloc2 "type.String" ;;
  (fun w => Done tt (with_StringClass cls w)) ;;;
  cache <- HashMap_create ;;
  (fun w => Done tt (with_cache (fun _ => cache) w)) ;;;
  Type_registerPgType TEXTOID Obtainer_String_obtain ;;;
  Type_registerPgType CSTRINGOID Obtainer_String_obtain ;;;
  Type_registerPgType BPCHAROID Obtainer_String_obtain ;;;
  Type_registerPgType NAMEOID Obtainer_String_obtain ;;;
  Type_registerPgType VARCHAROID Obtainer_String_obtain ;;;
  Type_registerJavaType "java.lang.String" Obtainer_String_obtain.

End Host.

(** A world before anything has run. *)
Definition empty_world : World :=
  {| mem := ∅; s_StringClass := NULL; s_cache := ∅; pg_registry := ∅;
     java_registry := ∅; jheap := ∅; jrefs := ∅; jpending := false;
     trace := [] |}.

(** ** Vocabulary of the properties *)

(** The byte span a conversion yields, when it yields one. *)
Definition transcode (convert : encoding → encoding → list Z → conversion)
    (from to : encoding) (bs : list Z) : option (list Z) :=
  match convert from to bs with
  | Unchanged => Some bs
  | Converted out => Some out
  | Malformed => None
  end.

(** The text [b] of the database encoding and the text [u] of the managed
    runtime's encoding are each other's image under the two conversions. *)
Definition conversions_inverse_on
    (convert : encoding → encoding → list Z → conversion) (db : encoding)
    (b u : list Z) : Prop :=
  transcode convert db PG_UTF8 b = Some u ∧
  transcode convert PG_UTF8 db u = Some b.

(** The output routine stored in [s] renders [d] as the text [b]. *)
Definition renders (fn_output : Oid → Datum → Oid → Z → option (list Z))
    (s : String_) (d : Datum) (b : list Z) : Prop :=
  fn_output (fn_oid (textOutput s)) d (elementType s) (-1) = Some b.

(** The input routine stored in [s] accepts the text [b] as the value [d]. *)
Definition accepts (fn_input : Oid → list Z → Oid → Z → option Datum)
    (s : String_) (b : list Z) (d : Datum) : Prop :=
  fn_input (fn_oid (textInput s)) b (elementType s) (-1) = Some d.

(** On the text [b] the stored routines are inverse to each other: what
    the input routine makes of [b], the output routine renders as [b]. *)
Definition routines_inverse_on
    (fn_output : Oid → Datum → Oid → Z → option (list Z))
    (fn_input : Oid → list Z → Oid → Z → option Datum)
    (s : String_) (b : list Z) : Prop :=
  ∃ d, accepts fn_input s b d ∧ renders fn_output s d b.

(** The handle [h] refers to a String whose content is [u]. *)
Definition is_managed_string (w : World) (h : jobject) (u : list Z) : Prop :=
  h ≠ 0 ∧ ∃ id, jrefs w !! h = Some id ∧ jheap w !! id = Some (JString u).

(** One call of a transcoding helper that releases by comparison. *)
Inductive transcoding_call :=
| Call_createJavaString (t : pointer)
| Call_createJavaStringFromNTS (cp : pointer)
| Call_createText (javaString : jstring)
| Call_appendJavaString (buf : pointer) (javaString : jstring).

Definition forget {A} (o : outcome A) : outcome unit :=
  match o with Done _ w => Done tt w | Fail f w => Fail f w end.

Definition run_call (convert : encoding → encoding → list Z → conversion)
    (db : encoding) (c : transcoding_call) (w : World) : outcome unit :=
  match c with
  | Call_createJavaString t => forget (String_createJavaString convert db t w)
  | Call_createJavaStringFromNTS cp =>
      forget (String_createJavaStringFromNTS convert db cp w)
  | Call_createText js => forget (String_createText convert db js w)
  | Call_appendJavaString buf js =>
      forget (String_appendJavaString convert db buf js w)
  end.

(** The three ways to resolve a type identifier to its String instance. *)
Inductive resolution :=
| By_String_obtain
| By_StringClass_obtain (cls : TypeClass)
| By_String_fromPgType (pgType : Form_pg_type).

Definition resolve (pg_type : Oid → option Form_pg_type) (r : resolution)
    (t : Oid) : M pointer :=
  match r with
  | By_String_obtain => String_obtain pg_type t
  | By_StringClass_obtain cls => StringClass_obtain pg_type cls t
  | By_String_fromPgType pgType => String_fromPgType t pgType
  end.

(** Whether a first resolution has what it needs: the two obtain functions
    read the catalog row, String_fromPgType is handed one. *)
Definition resolvable (pg_type : Oid → option Form_pg_type) (r : resolution)
    (t : Oid) : Prop :=
  match r with
  | By_String_fromPgType _ => True
  | _ => is_Some (pg_type t)
  end.

(** What may happen between two resolutions of a type. *)
Inductive step :=
| Resolve (r : resolution) (t : Oid)
| RegisterPgType (t : Oid) (f : TypeObtainer)
| RegisterJavaType (name : string) (f : TypeObtainer).

Definition run_step (pg_type : Oid → option Form_pg_type) (w : World)
    (s : step) : World :=
  match s with
  | Resolve r t => world_of (resolve pg_type r t w)
  | RegisterPgType t f => world_of (Type_registerPgType t f w)
  | RegisterJavaType n f => world_of (Type_registerJavaType n f w)
  end.

Definition run_steps (pg_type : Oid → option Form_pg_type)
    (l : list step) (w : World) : World :=
  foldl (run_step pg_type) w l.

(** The instance String_create makes for a type and its catalog row. *)
Definition new_String (cls : TypeClass) (t : Oid) (row : Form_pg_type)
    : String_ :=
  {| m_class := cls; typeId := t;
     textOutput := {| fn_oid := typoutput row |};
     textInput := {| fn_oid := typinput row |};
     elementType := typelem row |}.

(** The facts a later resolution of [t] rests on: the cache entry and the
    instance it points to. *)
Definition cached (t : Oid) (p : pointer) (s : String_) (w : World) : Prop :=
  s_cache w !! t = Some p ∧ mem w !! p_block p = Some (Obj s).

(** The newest event of the log is not a pfree. *)
Definition no_free_on_top (w : World) : Prop :=
  ∀ p, head (trace w) ≠ Some (EvPfree p).

(** A computation that never ends on a pfree of its own. *)
Definition quiet {A} (m : M A) : Prop :=
  ∀ w, no_free_on_top w → no_free_on_top (world_of (m w)).

(** A computation that leaves the type cache and every existing String
    instance as they are, however it ends. *)
Definition keeps_instances {A} (m : M A) : Prop :=
  ∀ w, s_cache (world_of (m w)) = s_cache w ∧
       ∀ b s, mem w !! b = Some (Obj s) →
              mem (world_of (m w)) !! b = Some (Obj s).

(** Every cache entry is a non-null pointer to the start of a live
    instance made for the entry's key. *)
Definition cache_sound (w : World) : Prop :=
  ∀ t p, s_cache w !! t = Some p →
    p ≠ NULL ∧ p_off p = 0 ∧
    ∃ s, mem w !! p_block p = Some (Obj s) ∧ typeId s = t.

(** Anything a caller may do with String.c. *)
Inductive action :=
| Do_initialize
| Do_step (s : step)
| Do_coerceDatum (self : pointer) (arg : Datum)
| Do_coerceObject (self : pointer) (jstr : jobject)
| Do_createJavaString (t : pointer)
| Do_createJavaStringFromNTS (cp : pointer)
| Do_createText (javaString : jstring)
| Do_createNTS (javaString : jstring)
| Do_appendJavaString (buf : pointer) (javaString : jstring).

Section Actions.

Variable convert : encoding → encoding → list Z → conversion.
Variable db : encoding.
Variable fn_output : Oid → Datum → Oid → Z → option (list Z).
Variable fn_input : Oid → list Z → Oid → Z → option Datum.
Variable pg_type : Oid → option Form_pg_type.

Definition run_action (w : World) (a : action) : World :=
  match a with
  | Do_initialize => world_of (String_initialize w)
  | Do_step s => run_step pg_type w s
  | Do_coerceDatum self arg =>
      world_of (_String_coerceDatum convert db fn_output self arg w)
  | Do_coerceObject self jstr =>
      world_of (_String_coerceObject convert db fn_input self jstr w)
  | Do_createJavaString t => world_of (String_createJavaString convert db t w)
  | Do_createJavaStringFromNTS cp =>
      world_of (String_createJavaStringFromNTS convert db cp w)
  | Do_createText js => world_of (String_createText convert db js w)
  | Do_createNTS js => world_of (String_createNTS convert db js w)
  | Do_appendJavaString buf js =>
      world_of (String_appendJavaString convert db buf js w)
  end.

Definition run_actions (l : list action) (w : World) : World :=
  foldl run_action w l.

End Actions.

(** ** Concrete hosts *)

(** A database whose encoding is UTF-8: no conversion is ever required. *)
Definition convert_none : encoding → encoding → list Z → conversion :=
  fun _ _ _ => Unchanged.

Definition latin1_to_utf8 (bs : list Z) : list Z :=
  flat_map (fun b => if decide (b < 128) then [b]
                     else [192 + b / 64; 128 + b mod 64]) bs.

Fixpoint utf8_to_latin1 (bs : list Z) : option (list Z) :=
  match bs with
  | [] => Some []
  | b :: rest =>
      if decide (b < 128) then (b ::.) <$> utf8_to_latin1 rest
      else match rest with
           | c :: rest' =>
               if decide (b < 196 ∧ 128 ≤ c < 192)
               then (((b - 192) * 64 + (c - 128)) ::.) <$> utf8_to_latin1 rest'
               else None
           | [] => None
           end
  end.

(** A LATIN1 database: a real conversion in both directions. *)
Definition convert_latin1 (from to : encoding) (bs : list Z) : conversion :=
  if decide (from = to) then Unchanged
  else if decide (from = PG_LATIN1 ∧ to = PG_UTF8)
  then Converted (latin1_to_utf8 bs)
  else if decide (from = PG_UTF8 ∧ to = PG_LATIN1)
  then match utf8_to_latin1 bs with
       | Some out => Converted out
       | None => Malformed
       end
  else Malformed.

(** pg_proc.h: textin is function 46, textout is function 47. *)
Definition F_TEXTIN : Oid := 46.
Definition F_TEXTOUT : Oid := 47.

Definition demo_catalog (t : Oid) : option Form_pg_type :=
  if decide (t = TEXTOID)
  then Some {| typoutput := F_TEXTOUT; typinput := F_TEXTIN; typelem := 0 |}
  else None.

(** A toy store of three text values, named by the datums 0, 1 and 2:
    the empty text, "hello", and "h\351llo" in the database encoding. *)
Definition hello : list Z := [104; 101; 108; 108; 111].
Definition hello_acute_latin1 : list Z := [104; 233; 108; 108; 111].
Definition hello_acute_utf8 : list Z := [104; 195; 169; 108; 108; 111].

Definition demo_output (texts : list (list Z)) (fn : Oid) (arg : Datum)
    (elem : Oid) (typmod : Z) : option (list Z) :=
  if decide (fn = F_TEXTOUT ∧ 0 ≤ arg) then texts !! Z.to_nat arg else None.

Fixpoint index_of (texts : list (list Z)) (cs : list Z) : option Z :=
  match texts with
  | [] => None
  | t :: rest => if decide (t = cs) then Some 0
                 else Z.succ <$> index_of rest cs
  end.

Definition demo_input (texts : list (list Z)) (fn : Oid) (cs : list Z)
    (elem : Oid) (typmod : Z) : option Datum :=
  if decide (fn = F_TEXTIN) then index_of texts cs else None.

Definition utf8_texts : list (list Z) := [[]; hello; hello_acute_utf8].
Definition latin1_texts : list (list Z) := [[]; hello; hello_acute_latin1].

(** The world after initialization and a first look-up of the text type. *)
Definition demo_world : World :=
  world_of (String_obtain demo_catalog TEXTOID
              (world_of (String_initialize empty_world))).

Definition demo_self : pointer :=
  default NULL (s_cache demo_world !! TEXTOID).

Definition demo_String : String_ :=
  {| m_class := s_StringClass demo_world; typeId := TEXTOID;
     textOutput := {| fn_oid := F_TEXTOUT |};
     textInput := {| fn_oid := F_TEXTIN |};
     elementType := 0 |}.

(** The world right after String_initialize. *)
Definition init_world : World := world_of (String_initialize empty_world).

(** [demo_world] after the text "hello" has been coerced to a managed
    string: handle 1 refers to it. *)
Definition string_world : World :=
  world_of (_String_coerceDatum convert_none PG_UTF8 (demo_output utf8_texts)
              demo_self 1 demo_world).

(** [demo_world] with an object whose toString raises, under handle 1. *)
Definition raising_world : World :=
  with_jrefs <[1 := 1]> (with_jheap <[1 := JObject Raises]> demo_world).

(** [demo_world] with a palloc'd empty C string in block 3. *)
Definition empty_cstring_world : World :=
  with_mem <[3 := Raw PgContext [0]]> demo_world.

(** [demo_world] with a text of length zero (header only) in block 3. *)
Definition empty_text_world : World :=
  with_mem <[3 := Raw PgContext (encode_int32 VARHDRSZ)]> demo_world.

(** [demo_world] with the C string "h\\351llo" (LATIN1) in block 3. *)
Definition latin1_cstring_world : World :=
  with_mem <[3 := Raw PgContext (hello_acute_latin1 ++ [0])]> demo_world.

(** [demo_world] with the managed string "h\\351llo" under handle 1. *)
Definition acute_world : World :=
  with_jrefs <[1 := 1]> (with_jheap <[1 := JString hello_acute_utf8]> demo_world).

(** [demo_world] with the empty managed string under handle 1. *)
Definition empty_string_world : World :=
  with_jrefs <[1 := 1]> (with_jheap <[1 := JString []]> demo_world).

(** [demo_world] with, in block 3, a text of length two ("he") in a buffer
    that goes on with "llo" and a zero byte. *)
Definition short_text_world : World :=
  with_mem <[3 := Raw PgContext (encode_int32 6 ++ hello ++ [0])]> demo_world.

(** [demo_world] with the managed string of the euro sign, which LATIN1
    cannot express, under handle 1. *)
Definition euro_world : World :=
  with_jrefs <[1 := 1]> (with_jheap <[1 := JString [226; 130; 172]]> demo_world).

(** [demo_world] with an object whose toString gives "hello", under
    handle 1. *)
Definition rendering_world : World :=
  with_jrefs <[1 := 1]> (with_jheap <[1 := JObject (Renders hello)]> demo_world).

(** [demo_world] with an object whose toString returns null, under
    handle 1. *)
Definition null_rendering_world : World :=
  with_jrefs <[1 := 1]> (with_jheap <[1 := JObject ReturnsNull]> demo_world).

(** [init_world] with the managed string "hello" under handle 1: no type
    has been resolved yet. *)
Definition init_string_world : World :=
  with_jrefs <[1 := 1]> (with_jheap <[1 := JString hello]> init_world).

(** A look-up of the text type and one coercion each way. *)
Definition demo_actions : list action :=
  [Do_step (Resolve By_String_obtain TEXTOID);
   Do_coerceDatum demo_self 1; Do_coerceObject demo_self 1].

(** * Properties *)

(** ** Tactics *)

(** Case analysis on every test a computation makes, innermost first. *)
Ltac run :=
  repeat (simpl in *;
   match goal with
   | |- context [match ?x with _ => _ end] =>
       lazymatch x with
       | context [match _ with _ => _ end] => fail
       | _ => destruct x eqn:?
       end
   end).

Ltac unfold_prims :=
  unfold pg_do_encoding_conversion, FunctionCall3_output, FunctionCall3_input,
    PgObject_getValidTuple, ReleaseSysCache, GetDatabaseEncoding,
    JNI_newStringUTF, JNI_getStringUTFChars, JNI_releaseStringUTFChars,
    JNI_callObjectMethod, JNI_exceptionCheck, JNI_deleteLocalRef,
    appendStringInfoString, memcpy, VARATT_SIZEP_set, VARSIZE, store_bytes,
    palloc, pstrdup, strlen, load_cstring, load_bytes, pfree, deref,
    of_option, new_object, new_local_ref, alloc_chunk, log, bind, ret, raise.

(** ** The log grows at its head *)

Lemma trace_nil (t : list event) : t = [] ++ t.
Proof. reflexivity. Qed.

Lemma trace_cons (e : event) l evs t : l = evs ++ t → e :: l = (e :: evs) ++ t.
Proof. intros ->. reflexivity. Qed.

Ltac since := repeat (eapply trace_cons); apply trace_nil.

(** The same, up to a given older event. *)
Ltac since_from := repeat first [ apply trace_nil | eapply trace_cons ].

(** Membership in an explicit list of events: every way [H] can hold, and
    the position at which the goal holds. *)
Ltac members H :=
  repeat (apply elem_of_cons in H as [H|H]; [try discriminate H|]);
  try (by apply elem_of_nil in H).

Ltac member :=
  repeat first [apply list_elem_of_here | apply list_elem_of_further].

(** A list of non-zero bytes has no zero byte. *)
Ltac no_zero :=
  let H := fresh in
  intros H; repeat (apply elem_of_cons in H as [H|H]; [discriminate H|]);
  by apply elem_of_nil in H.

(** ** The definitions at work *)

Example cstr_stops_at_zero : cstr (hello ++ [0; 7]) = Some hello.
Proof. reflexivity. Qed.

Example cstr_needs_terminator : cstr hello = None.
Proof. reflexivity. Qed.

Example varlena_header : decode_int32 (encode_int32 9) = Some 9.
Proof. reflexivity. Qed.

Example acute_to_utf8 : latin1_to_utf8 hello_acute_latin1 = hello_acute_utf8.
Proof. reflexivity. Qed.

Example acute_to_latin1 :
  utf8_to_latin1 hello_acute_utf8 = Some hello_acute_latin1.
Proof. reflexivity. Qed.

Example demo_self_is_block_2 :
  demo_self = Ptr 2 0 ∧
  mem demo_world !! 2 = Some (Obj demo_String) ∧
  pg_registry demo_world !! TEXTOID = Some Obtainer_String_obtain.
Proof. vm_compute. done. Qed.

(** No conversion required: the primitive returns [cp] itself, and the log
    of String_createJavaStringFromNTS has no pfree. *)
Example alias_is_not_freed :
  trace (world_of (String_createJavaStringFromNTS convert_none PG_UTF8
                     (Ptr 3 0) latin1_cstring_world))
  = [EvNewStringUTF (Ptr 3 0) 1;
     EvConvert (Ptr 3 0) 5 PG_UTF8 PG_UTF8 (Ptr 3 0)]
    ++ trace latin1_cstring_world.
Proof. vm_compute. reflexivity. Qed.

(** A conversion into a new buffer (block 4): that buffer is freed. *)
Example copy_is_freed :
  trace (world_of (String_createJavaStringFromNTS convert_latin1 PG_LATIN1
                     (Ptr 3 0) latin1_cstring_world))
  = [EvPfree (Ptr 4 0); EvNewStringUTF (Ptr 4 0) 1;
     EvConvert (Ptr 3 0) 5 PG_LATIN1 PG_UTF8 (Ptr 4 0)]
    ++ trace latin1_cstring_world.
Proof. vm_compute. reflexivity. Qed.

(** pfree of a released block, of the JVM's buffer or of NULL is a fault. *)
Example double_free_is_a_fault :
  completed (bind (pfree (Ptr 3 0)) (fun _ => pfree (Ptr 3 0))
               latin1_cstring_world) = false ∧
  completed (bind (JNI_getStringUTFChars 1) pfree string_world) = false ∧
  completed (pfree NULL demo_world) = false.
Proof. vm_compute. done. Qed.

(** ** The null short-circuit and the fallback predicate *)

(** C9. Fallback universality: whatever the descriptor and whatever the
    candidate type, the String kind's canReplaceType answers true, both as
    the function itself and through the class member String_initialize
    assigns. *)
Theorem canReplaceType_universal :
  ∀ convert db fo fi (self type : pointer),
    _String_canReplaceType self type = true ∧
    canReplaceType (StringClass_ convert db fo fi) self type = true.
Proof. intros. split; reflexivity. Qed.

(** C6. coerceObject on the null handle returns the "no value" datum 0 and
    leaves the world as it was: nothing is logged, so neither toString nor
    the input routine (nor anything else) was invoked. *)
Theorem coerceObject_null_short_circuit :
  ∀ convert db fi (self : pointer) (w : World),
    _String_coerceObject convert db fi self 0 w = Done 0 w.
Proof. intros. reflexivity. Qed.

(** ** Release by comparison *)

(** C2. Alias-safe release: in the events a transcoding helper adds to the
    log, a result of the conversion primitive that is the source pointer is
    never passed to pfree; a result that differs from the source is passed
    to pfree whenever the helper runs to its end; and the helper passes
    nothing else to pfree. *)
Theorem alias_safe_release :
  ∀ convert db (c : transcoding_call) (w : World),
    ∃ evs, trace (world_of (run_call convert db c w)) = evs ++ trace w ∧
      (∀ src len from to r, EvConvert src len from to r ∈ evs →
         (r = src → EvPfree r ∉ evs) ∧
         (r ≠ src → completed (run_call convert db c w) = true →
          EvPfree r ∈ evs)) ∧
      (∀ p, EvPfree p ∈ evs →
         ∃ src len from to, EvConvert src len from to p ∈ evs ∧ p ≠ src).
Proof.
  intros convert db c w.
  destruct c; unfold run_call, forget, String_createJavaString,
    String_createJavaStringFromNTS, String_createText, String_appendJavaString.
  all: unfold_prims; run.
  all: eexists; split; [since|].
  all: split.
  (* each conversion in the new events *)
  all: try (intros src len from to r Hin; members Hin;
            inversion Hin; subst;
            (split; [intros Heq Hf|intros Hne Hc; try discriminate Hc])).
  all: try (members Hf; inversion Hf; subst; congruence).
  all: try congruence.
  all: try (member; fail).
  (* each pfree in the new events *)
  all: intros p Hp; members Hp.
  all: inversion Hp; subst; do 4 eexists.
  all: split; [member|assumption].
Qed.

Lemma alias_safe_release_witness :
  completed (run_call convert_latin1 PG_LATIN1
               (Call_createJavaStringFromNTS (Ptr 3 0))
               latin1_cstring_world) = true ∧
  ∃ evs,
    trace (world_of (run_call convert_latin1 PG_LATIN1
                       (Call_createJavaStringFromNTS (Ptr 3 0))
                       latin1_cstring_world))
    = evs ++ trace latin1_cstring_world ∧
    (∀ src len from to r, EvConvert src len from to r ∈ evs →
       (r = src → EvPfree r ∉ evs) ∧
       (r ≠ src →
        completed (run_call convert_latin1 PG_LATIN1
                     (Call_createJavaStringFromNTS (Ptr 3 0))
                     latin1_cstring_world) = true →
        EvPfree r ∈ evs)) ∧
    (∀ p, EvPfree p ∈ evs →
       ∃ src len from to, EvConvert src len from to p ∈ evs ∧ p ≠ src).
Proof.
  split; [vm_compute; reflexivity|].
  exact (alias_safe_release convert_latin1 PG_LATIN1
           (Call_createJavaStringFromNTS (Ptr 3 0)) latin1_cstring_world).
Defined.


(** ** Fresh blocks, references and C strings *)

Lemma fresh_block_None (m : gmap Z chunk) : m !! fresh_block m = None.
Proof.
  unfold fresh_block. apply not_elem_of_dom.
  pose proof (is_fresh ({[0]} ∪ dom m)). set_solver.
Qed.

Lemma fresh_block_nonzero (m : gmap Z chunk) : fresh_block m ≠ 0.
Proof.
  unfold fresh_block. pose proof (is_fresh ({[0]} ∪ dom m)). set_solver.
Qed.

Lemma fresh_block_live (m : gmap Z chunk) b c : m !! b = Some c → b ≠ fresh_block m.
Proof. intros H ->. rewrite fresh_block_None in H. discriminate. Qed.

Lemma fresh_ref_None (m : gmap Z Z) : m !! fresh_ref m = None.
Proof.
  unfold fresh_ref. apply not_elem_of_dom.
  pose proof (is_fresh ({[0]} ∪ dom m)). set_solver.
Qed.

Lemma fresh_ref_nonzero (m : gmap Z Z) : fresh_ref m ≠ 0.
Proof.
  unfold fresh_ref. pose proof (is_fresh ({[0]} ∪ dom m)). set_solver.
Qed.

Lemma fresh_obj_None (m : gmap Z jobj) : m !! fresh_obj m = None.
Proof. unfold fresh_obj. apply not_elem_of_dom, is_fresh. Qed.

Lemma cstr_app (cs rest : list Z) : 0 ∉ cs → cstr (cs ++ 0 :: rest) = Some cs.
Proof.
  induction cs as [|c cs IH]; intros H; simpl.
  - reflexivity.
  - apply not_elem_of_cons in H as [Hc Hcs].
    destruct (decide (c = 0)) as [->|_]; [done|]. by rewrite IH.
Qed.

Lemma cstr_terminated (cs : list Z) : 0 ∉ cs → cstr (cs ++ [0]) = Some cs.
Proof. apply cstr_app. Qed.

Lemma bytes_at_start (w : World) b c bs :
  mem w !! b = Some c → chunk_bytes c = Some bs → bytes_at (Ptr b 0) w = Some bs.
Proof.
  intros Hm Hc. unfold bytes_at. simpl. rewrite Hm. simpl. rewrite Hc. simpl.
  rewrite decide_True by lia. reflexivity.
Qed.

Lemma load_cstring_start (w : World) b o cs :
  mem w !! b = Some (Raw o (cs ++ [0])) → 0 ∉ cs →
  load_cstring (Ptr b 0) w = Done cs w.
Proof.
  intros Hm Hz. unfold load_cstring.
  rewrite (bytes_at_start w b _ (cs ++ [0]) Hm eq_refl). simpl.
  by rewrite cstr_terminated.
Qed.

Lemma load_bytes_start (w : World) b o cs :
  mem w !! b = Some (Raw o (cs ++ [0])) →
  load_bytes (Ptr b 0) (Z.of_nat (length cs)) w = Done cs w.
Proof.
  intros Hm. unfold load_bytes.
  rewrite (bytes_at_start w b _ (cs ++ [0]) Hm eq_refl).
  rewrite decide_False by (rewrite length_app; simpl; lia).
  rewrite Nat2Z.id. by rewrite take_app_length.
Qed.


(** ** Running a computation forward *)

Lemma bind_step {A B} (m : M A) (k : A → M B) w a w' o :
  m w = Done a w' → k a w' = o → bind m k w = o.
Proof. unfold bind. by intros -> ->. Qed.

Lemma strlen_start (w : World) b o cs :
  mem w !! b = Some (Raw o (cs ++ [0])) → 0 ∉ cs →
  strlen (Ptr b 0) w = Done (Z.of_nat (length cs)) w.
Proof.
  intros Hm Hz. unfold strlen.
  eapply bind_step; [by eapply load_cstring_start|reflexivity].
Qed.

Lemma load_String_ok (w : World) b s :
  mem w !! b = Some (Obj s) → load_String (Ptr b 0) w = Done s w.
Proof. intros Hm. unfold load_String. simpl. by rewrite Hm. Qed.

Lemma pfree_ok (w : World) b bs :
  mem w !! b = Some (Raw PgContext bs) →
  pfree (Ptr b 0) w
  = Done tt (with_event (EvPfree (Ptr b 0)) (with_mem (delete b) w)).
Proof. intros Hm. unfold pfree. simpl. by rewrite Hm. Qed.

Lemma JNI_releaseStringUTFChars_ok (w : World) h b bs :
  mem w !! b = Some (Raw JvmChars bs) →
  JNI_releaseStringUTFChars h (Ptr b 0) w
  = Done tt (with_event (EvReleaseStringUTFChars h (Ptr b 0))
               (with_mem (delete b) w)).
Proof. intros Hm. unfold JNI_releaseStringUTFChars. simpl. by rewrite Hm. Qed.

Lemma deref_ok (w : World) h id o :
  jrefs w !! h = Some id → jheap w !! id = Some o → deref h w = Done o w.
Proof. intros Hr Hh. unfold deref. rewrite Hr. simpl. by rewrite Hh. Qed.

Lemma JNI_newStringUTF_ok (w : World) p cs :
  load_cstring p w = Done cs w →
  JNI_newStringUTF p w
  = Done (fresh_ref (jrefs w))
      (with_event (EvNewStringUTF p (fresh_ref (jrefs w)))
         (with_jrefs <[fresh_ref (jrefs w) := fresh_obj (jheap w)]>
            (with_jheap <[fresh_obj (jheap w) := JString cs]> w))).
Proof.
  intros Hl. unfold JNI_newStringUTF.
  eapply bind_step; [exact Hl|reflexivity].
Qed.

Lemma JNI_getStringUTFChars_ok (w : World) h id cs :
  jrefs w !! h = Some id → jheap w !! id = Some (JString cs) →
  JNI_getStringUTFChars h w
  = Done (Ptr (fresh_block (mem w)) 0)
      (with_event (EvGetStringUTFChars h (Ptr (fresh_block (mem w)) 0))
         (with_mem <[fresh_block (mem w) := Raw JvmChars (cs ++ [0])]> w)).
Proof.
  intros Hr Hh. unfold JNI_getStringUTFChars.
  eapply bind_step; [by eapply deref_ok|reflexivity].
Qed.

Lemma JNI_callObjectMethod_string (w : World) h id cs :
  jrefs w !! h = Some id → jheap w !! id = Some (JString cs) →
  JNI_callObjectMethod h s_Object_toString w
  = Done (fresh_ref (jrefs w))
      (with_jrefs <[fresh_ref (jrefs w) := id]>
         (with_event (EvCallObjectMethod h s_Object_toString) w)).
Proof.
  intros Hr Hh. unfold JNI_callObjectMethod.
  eapply bind_step; [reflexivity|].
  eapply bind_step; [by eapply deref_ok|]. simpl. by rewrite Hr.
Qed.

Lemma pstrdup_ok (w : World) p cs :
  load_cstring p w = Done cs w →
  pstrdup p w
  = Done (Ptr (fresh_block (mem w)) 0)
      (with_event (EvPstrdup p (Ptr (fresh_block (mem w)) 0))
         (with_mem <[fresh_block (mem w) := Raw PgContext (cs ++ [0])]> w)).
Proof.
  intros Hl. unfold pstrdup. eapply bind_step; [exact Hl|reflexivity].
Qed.

Section Host_lemmas.

Variable convert : encoding → encoding → list Z → conversion.
Variable db : encoding.
Variable fn_output : Oid → Datum → Oid → Z → option (list Z).
Variable fn_input : Oid → list Z → Oid → Z → option Datum.

Lemma conversion_unchanged (w : World) src len from to bs :
  load_bytes src len w = Done bs w → convert from to bs = Unchanged →
  pg_do_encoding_conversion convert src len from to w
  = Done src (with_event (EvConvert src len from to src) w).
Proof.
  intros Hl Hc. unfold pg_do_encoding_conversion.
  eapply bind_step; [exact Hl|]. by rewrite Hc.
Qed.

Lemma conversion_converted (w : World) src len from to bs out :
  load_bytes src len w = Done bs w → convert from to bs = Converted out →
  pg_do_encoding_conversion convert src len from to w
  = Done (Ptr (fresh_block (mem w)) 0)
      (with_event (EvConvert src len from to (Ptr (fresh_block (mem w)) 0))
         (with_mem <[fresh_block (mem w) := Raw PgContext (out ++ [0])]> w)).
Proof.
  intros Hl Hc. unfold pg_do_encoding_conversion.
  eapply bind_step; [exact Hl|]. by rewrite Hc.
Qed.

Lemma FunctionCall3_output_ok (w : World) fl arg elem typmod cs :
  fn_output (fn_oid fl) arg elem typmod = Some cs →
  FunctionCall3_output fn_output fl arg elem typmod w
  = Done (Ptr (fresh_block (mem w)) 0)
      (with_mem <[fresh_block (mem w) := Raw PgContext (cs ++ [0])]>
         (with_event (EvOutput (fn_oid fl) arg elem typmod) w)).
Proof.
  intros Hf. unfold FunctionCall3_output.
  eapply bind_step; [reflexivity|]. by rewrite Hf.
Qed.

Lemma FunctionCall3_input_ok (w : World) fl p elem typmod cs d :
  load_cstring p w = Done cs w →
  fn_input (fn_oid fl) cs elem typmod = Some d →
  FunctionCall3_input fn_input fl p elem typmod w
  = Done d (with_event (EvInput (fn_oid fl) p elem typmod) w).
Proof.
  intros Hl Hf. unfold FunctionCall3_input.
  eapply bind_step; [reflexivity|].
  eapply bind_step.
  { unfold load_cstring in *. simpl. destruct (bytes_at p w ≫= cstr) eqn:E.
    - unfold bytes_at in *. simpl. rewrite E. inversion Hl; subst. reflexivity.
    - discriminate. }
  simpl. by rewrite Hf.
Qed.

Lemma createJavaStringFromNTS_spec (w : World) b o cs u :
  b ≠ 0 → mem w !! b = Some (Raw o (cs ++ [0])) → 0 ∉ cs →
  transcode convert db PG_UTF8 cs = Some u → 0 ∉ u →
  ∃ w', String_createJavaStringFromNTS convert db (Ptr b 0) w
          = Done (fresh_ref (jrefs w)) w' ∧
        mem w' = mem w ∧
        jrefs w' = <[fresh_ref (jrefs w) := fresh_obj (jheap w)]> (jrefs w) ∧
        jheap w' = <[fresh_obj (jheap w) := JString u]> (jheap w) ∧
        jpending w' = jpending w.
Proof.
  intros Hb Hm Hcs Ht Hu.
  unfold String_createJavaStringFromNTS.
  rewrite decide_False by (intros [=]; done).
  unfold transcode in Ht. destruct (convert db PG_UTF8 cs) as [|out|] eqn:Hc; simplify_eq.
  - eexists. split.
    + eapply bind_step; [by eapply strlen_start|].
      eapply bind_step; [reflexivity|].
      eapply bind_step; [eapply conversion_unchanged; [by eapply load_bytes_start|done]|].
      eapply bind_step; [eapply JNI_newStringUTF_ok; by eapply load_cstring_start|].
      rewrite decide_True by done.
      eapply bind_step; reflexivity.
    + done.
  - eexists. split.
    + eapply bind_step; [by eapply strlen_start|].
      eapply bind_step; [reflexivity|].
      eapply bind_step; [eapply conversion_converted; [by eapply load_bytes_start|done]|].
      eapply bind_step; [eapply JNI_newStringUTF_ok; eapply load_cstring_start; [apply lookup_insert_eq|done]|].
      rewrite decide_False by (intros [=]; by eapply fresh_block_live).
      eapply bind_step; [eapply pfree_ok; apply lookup_insert_eq|].
      reflexivity.
    + simpl. rewrite delete_insert_id by apply fresh_block_None. done.
Qed.


Lemma coerceDatum_spec (w : World) b s arg cs u :
  mem w !! b = Some (Obj s) →
  fn_output (fn_oid (textOutput s)) arg (elementType s) (-1) = Some cs →
  0 ∉ cs → transcode convert db PG_UTF8 cs = Some u → 0 ∉ u →
  ∃ w', _String_coerceDatum convert db fn_output (Ptr b 0) arg w
          = Done (fresh_ref (jrefs w)) w' ∧
        mem w' = mem w ∧
        jrefs w' = <[fresh_ref (jrefs w) := fresh_obj (jheap w)]> (jrefs w) ∧
        jheap w' = <[fresh_obj (jheap w) := JString u]> (jheap w) ∧
        jpending w' = jpending w.
Proof.
  intros Hm Hf Hcs Ht Hu.
  set (w1 := with_mem <[fresh_block (mem w) := Raw PgContext (cs ++ [0])]>
               (with_event (EvOutput (fn_oid (textOutput s)) arg
                              (elementType s) (-1)) w)).
  destruct (createJavaStringFromNTS_spec w1 (fresh_block (mem w)) PgContext cs u)
    as (w2 & Hrun & Hmem & Hrefs & Hheap & Hpend);
    [apply fresh_block_nonzero|apply lookup_insert_eq|done..|].
  eexists. split.
  - unfold _String_coerceDatum.
    eapply bind_step; [by eapply load_String_ok|].
    eapply bind_step; [by eapply FunctionCall3_output_ok|].
    eapply bind_step; [exact Hrun|].
    eapply bind_step; [eapply pfree_ok; rewrite Hmem; apply lookup_insert_eq|].
    reflexivity.
  - simpl. rewrite Hmem, Hrefs, Hheap, Hpend. simpl.
    rewrite delete_insert_id by apply fresh_block_None. done.
Qed.

Lemma createNTS_spec (w : World) h id u v :
  h ≠ 0 → jrefs w !! h = Some id → jheap w !! id = Some (JString u) →
  0 ∉ u → transcode convert PG_UTF8 db u = Some v → 0 ∉ v →
  ∃ b w', String_createNTS convert db h w = Done (Ptr b 0) w' ∧
          b ≠ 0 ∧ mem w !! b = None ∧
          mem w' = <[b := Raw PgContext (v ++ [0])]> (mem w) ∧
          jrefs w' = jrefs w ∧ jheap w' = jheap w ∧
          jpending w' = jpending w.
Proof.
  intros Hh Hr Ho Hu Ht Hv.
  unfold String_createNTS. rewrite decide_False by done.
  set (b0 := fresh_block (mem w)).
  set (m0 := <[b0 := Raw JvmChars (u ++ [0])]> (mem w)).
  assert (Hb0 : m0 !! b0 = Some (Raw JvmChars (u ++ [0]))) by apply lookup_insert_eq.
  assert (Hne : b0 ≠ fresh_block m0) by (by eapply fresh_block_live).
  assert (Hnew : mem w !! fresh_block m0 = None).
  { rewrite <- (lookup_insert_ne (mem w) b0 (fresh_block m0)
                  (Raw JvmChars (u ++ [0]))) by done.
    apply (fresh_block_None m0). }
  unfold transcode in Ht.
  destruct (convert PG_UTF8 db u) as [|out|] eqn:Hc; simplify_eq.
  - exists (fresh_block m0). eexists. split; [|split; [apply fresh_block_nonzero|split; [done|]]].
    + eapply bind_step; [by eapply JNI_getStringUTFChars_ok|].
      eapply bind_step; [by eapply strlen_start|].
      eapply bind_step; [reflexivity|].
      eapply bind_step; [eapply conversion_unchanged; [by eapply load_bytes_start|done]|].
      rewrite decide_True by done.
      eapply bind_step; [eapply pstrdup_ok; by eapply load_cstring_start|].
      eapply bind_step; [eapply JNI_releaseStringUTFChars_ok; simpl;
                         rewrite lookup_insert_ne by done; exact Hb0|].
      reflexivity.
    + simpl. fold b0. fold m0. unfold m0 at 2.
      rewrite delete_insert_ne by done.
      rewrite delete_insert_id by apply fresh_block_None. done.
  - exists (fresh_block m0). eexists. split; [|split; [apply fresh_block_nonzero|split; [done|]]].
    + eapply bind_step; [by eapply JNI_getStringUTFChars_ok|].
      eapply bind_step; [by eapply strlen_start|].
      eapply bind_step; [reflexivity|].
      eapply bind_step; [eapply conversion_converted; [by eapply load_bytes_start|done]|].
      rewrite decide_False by (intros [=]; done).
      eapply bind_step; [reflexivity|].
      eapply bind_step; [eapply JNI_releaseStringUTFChars_ok; simpl;
                         rewrite lookup_insert_ne by done; exact Hb0|].
      reflexivity.
    + simpl. fold b0. fold m0. unfold m0 at 2.
      rewrite delete_insert_ne by done.
      rewrite delete_insert_id by apply fresh_block_None. done.
Qed.

Lemma coerceObject_spec (w : World) b s h id u v d :
  mem w !! b = Some (Obj s) → h ≠ 0 →
  jrefs w !! h = Some id → jheap w !! id = Some (JString u) →
  jpending w = false →
  0 ∉ u → transcode convert PG_UTF8 db u = Some v → 0 ∉ v →
  fn_input (fn_oid (textInput s)) v (elementType s) (-1) = Some d →
  ∃ w', _String_coerceObject convert db fn_input (Ptr b 0) h w = Done d w' ∧
        mem w' = mem w ∧ jrefs w' = jrefs w ∧ jheap w' = jheap w ∧
        jpending w' = false.
Proof.
  intros Hm Hh Hr Ho Hp Hu Ht Hv Hf.
  set (h1 := fresh_ref (jrefs w)).
  set (w1 := with_jrefs <[h1 := id]>
               (with_event (EvCallObjectMethod h s_Object_toString) w)).
  destruct (createNTS_spec w1 h1 id u v)
    as (b1 & w2 & Hrun & Hb1 & Hfresh & Hmem & Hrefs & Hheap & Hpend);
    [apply fresh_ref_nonzero|apply lookup_insert_eq|done..|].
  simpl in Hfresh, Hmem, Hrefs, Hheap, Hpend.
  assert (Hbb : b1 ≠ b) by (intros ->; congruence).
  eexists. split.
  - unfold _String_coerceObject. rewrite decide_False by done.
    eapply bind_step; [by eapply JNI_callObjectMethod_string|].
    eapply bind_step; [reflexivity|]. simpl. rewrite Hp.
    eapply bind_step; [exact Hrun|].
    eapply bind_step; [reflexivity|].
    eapply bind_step; [eapply load_String_ok; simpl; rewrite Hmem;
                       by rewrite lookup_insert_ne|].
    eapply bind_step.
    { eapply FunctionCall3_input_ok; [|exact Hf].
      eapply load_cstring_start; [|done]. simpl. rewrite Hmem.
      apply lookup_insert_eq. }
    eapply bind_step; [eapply pfree_ok; simpl; rewrite Hmem; apply lookup_insert_eq|].
    reflexivity.
  - simpl. rewrite Hmem, Hrefs, Hheap, Hpend.
    rewrite delete_insert_id by done.
    rewrite delete_insert_id by apply fresh_ref_None. done.
Qed.

End Host_lemmas.

(** ** The round trip *)

(** C3. Round trip: let the stored output routine render the native value
    [arg] as the text [b]; let [b] and [u] be free of zero bytes and each
    other's image under the two encoding conversions, and let the stored
    routines be inverse on [b].  Then coerceDatum yields a managed string,
    and coerceObject on that string yields a native value that the output
    routine renders as [b] again. *)
Theorem round_trip :
  ∀ convert db fn_output fn_input (self : pointer) (s : String_)
    (arg : Datum) (w : World) (b u : list Z),
    mem w !! p_block self = Some (Obj s) → p_off self = 0 →
    jpending w = false →
    renders fn_output s arg b → 0 ∉ b → 0 ∉ u →
    conversions_inverse_on convert db b u →
    routines_inverse_on fn_output fn_input s b →
    ∃ h w1 d w2,
      _String_coerceDatum convert db fn_output self arg w = Done h w1 ∧
      is_managed_string w1 h u ∧
      _String_coerceObject convert db fn_input self h w1 = Done d w2 ∧
      renders fn_output s d b.
Proof.
  intros convert db fo fi [blk off] s arg w b u Hm Hoff Hp Hr Hb Hu
    [Hto Hfrom] (d & Hin & Hout).
  simpl in Hm, Hoff. subst off.
  destruct (coerceDatum_spec convert db fo w blk s arg b u)
    as (w1 & Hrun1 & Hmem1 & Hrefs1 & Hheap1 & Hpend1); [done..|].
  assert (Hstr : is_managed_string w1 (fresh_ref (jrefs w)) u).
  { split; [apply fresh_ref_nonzero|]. exists (fresh_obj (jheap w)).
    rewrite Hrefs1, Hheap1. split; apply lookup_insert_eq. }
  destruct Hstr as [Hnz (id & Href & Hobj)].
  destruct (coerceObject_spec convert db fi w1 blk s (fresh_ref (jrefs w)) id u b d)
    as (w2 & Hrun2 & _); [by rewrite Hmem1|done|done|done|congruence|done|done|done|exact Hin|].
  exists (fresh_ref (jrefs w)), w1, d, w2.
  split; [done|]. split; [by split; [|exists id]|]. by split.
Qed.

Lemma round_trip_witness :
  (∃ h w1 d w2,
     _String_coerceDatum convert_none PG_UTF8 (demo_output utf8_texts)
       demo_self 1 demo_world = Done h w1 ∧
     is_managed_string w1 h hello ∧
     _String_coerceObject convert_none PG_UTF8 (demo_input utf8_texts)
       demo_self h w1 = Done d w2 ∧
     renders (demo_output utf8_texts) demo_String d hello) ∧
  (∃ h w1 d w2,
     _String_coerceDatum convert_latin1 PG_LATIN1 (demo_output latin1_texts)
       demo_self 2 demo_world = Done h w1 ∧
     is_managed_string w1 h hello_acute_utf8 ∧
     _String_coerceObject convert_latin1 PG_LATIN1 (demo_input latin1_texts)
       demo_self h w1 = Done d w2 ∧
     renders (demo_output latin1_texts) demo_String d hello_acute_latin1).
Proof.
  split.
  - apply (round_trip convert_none PG_UTF8 (demo_output utf8_texts)
             (demo_input utf8_texts) demo_self demo_String 1 demo_world
             hello hello).
    + vm_compute. reflexivity.
    + reflexivity.
    + reflexivity.
    + reflexivity.
    + no_zero.
    + no_zero.
    + split; reflexivity.
    + exists 1. split; reflexivity.
  - apply (round_trip convert_latin1 PG_LATIN1 (demo_output latin1_texts)
             (demo_input latin1_texts) demo_self demo_String 2 demo_world
             hello_acute_latin1 hello_acute_utf8).
    + vm_compute. reflexivity.
    + reflexivity.
    + reflexivity.
    + reflexivity.
    + no_zero.
    + no_zero.
    + split; vm_compute; reflexivity.
    + exists 2. split; reflexivity.
Defined.


(** ** Reading a result backwards *)

Lemma bind_inv {A B} (m : M A) (k : A → M B) w b w2 :
  bind m k w = Done b w2 → ∃ a w1, m w = Done a w1 ∧ k a w1 = Done b w2.
Proof. unfold bind. destruct (m w) as [a w1|]; [eauto|discriminate]. Qed.

Lemma bind_fail_inv {A B} (m : M A) (k : A → M B) w f w2 :
  bind m k w = Fail f w2 →
  m w = Fail f w2 ∨ ∃ a w1, m w = Done a w1 ∧ k a w1 = Fail f w2.
Proof. unfold bind. destruct (m w) as [a w1|]; [eauto|intros [= -> ->]; eauto]. Qed.

Lemma load_cstring_inv p w cs w1 :
  load_cstring p w = Done cs w1 → w1 = w.
Proof. unfold load_cstring. destruct (_ ≫= _); by intros [=]. Qed.

Lemma strlen_inv p w n w1 : strlen p w = Done n w1 → w1 = w.
Proof.
  unfold strlen. intros (cs & w0 & H1 & H2)%bind_inv.
  apply load_cstring_inv in H1. inversion H2. congruence.
Qed.

Lemma load_bytes_inv p n w bs w1 : load_bytes p n w = Done bs w1 → w1 = w.
Proof. unfold load_bytes. destruct (bytes_at p w); [case_decide|]; by intros [=]. Qed.

Lemma load_String_inv self w s w1 :
  load_String self w = Done s w1 → w1 = w.
Proof.
  unfold load_String. destruct (mem w !! p_block self) as [[]|]; try discriminate.
  case_decide; by intros [=].
Qed.

Lemma deref_inv h w o w1 : deref h w = Done o w1 → w1 = w.
Proof. unfold deref. destruct (_ ≫= _); by intros [=]. Qed.

Lemma getStringUTFChars_inv h w p w1 :
  JNI_getStringUTFChars h w = Done p w1 →
  ∃ cs, p = Ptr (fresh_block (mem w)) 0 ∧
        w1 = with_event (EvGetStringUTFChars h p)
               (with_mem <[fresh_block (mem w) := Raw JvmChars (cs ++ [0])]> w).
Proof.
  unfold JNI_getStringUTFChars. intros (o & w0 & H1 & H2)%bind_inv.
  apply deref_inv in H1 as ->. destruct o as [cs|]; [|discriminate].
  inversion H2; subst. by exists cs.
Qed.

Lemma pstrdup_inv p w r w1 :
  pstrdup p w = Done r w1 →
  ∃ cs, r = Ptr (fresh_block (mem w)) 0 ∧
        w1 = with_event (EvPstrdup p r)
               (with_mem <[fresh_block (mem w) := Raw PgContext (cs ++ [0])]> w).
Proof.
  unfold pstrdup. intros (cs & w0 & H1 & H2)%bind_inv.
  apply load_cstring_inv in H1 as ->. inversion H2; subst. by exists cs.
Qed.

Lemma releaseStringUTFChars_inv h p w u w1 :
  JNI_releaseStringUTFChars h p w = Done u w1 →
  ∃ bs, mem w !! p_block p = Some (Raw JvmChars bs) ∧ p_off p = 0 ∧
        w1 = with_event (EvReleaseStringUTFChars h p)
               (with_mem (delete (p_block p)) w).
Proof.
  unfold JNI_releaseStringUTFChars.
  destruct (mem w !! p_block p) as [[[] bs| | |]|]; try discriminate.
  case_decide; [|discriminate]. intros [= <-]. by exists bs.
Qed.

Lemma conversion_inv convert src len from to w r w1 :
  pg_do_encoding_conversion convert src len from to w = Done r w1 →
  (r = src ∧ w1 = with_event (EvConvert src len from to src) w) ∨
  (∃ out, r = Ptr (fresh_block (mem w)) 0 ∧
          w1 = with_event (EvConvert src len from to r)
                 (with_mem <[fresh_block (mem w) := Raw PgContext (out ++ [0])]> w)).
Proof.
  unfold pg_do_encoding_conversion. intros (bs & w0 & H1 & H2)%bind_inv.
  apply load_bytes_inv in H1 as ->.
  destruct (convert from to bs) as [|out|]; inversion H2; subst; eauto.
Qed.

Lemma load_cstring_live p w cs w1 :
  load_cstring p w = Done cs w1 → is_Some (mem w !! p_block p).
Proof.
  unfold load_cstring, bytes_at. case_decide; [|discriminate].
  destruct (mem w !! p_block p); [eauto|discriminate].
Qed.

Lemma input_inv fn_input fl p elem typmod w d w1 :
  FunctionCall3_input fn_input fl p elem typmod w = Done d w1 →
  w1 = with_event (EvInput (fn_oid fl) p elem typmod) w ∧
  is_Some (mem w !! p_block p).
Proof.
  unfold FunctionCall3_input. intros (u & w0 & H1 & H2)%bind_inv.
  inversion H1; subst. apply bind_inv in H2 as (cs & w2 & H2 & H3).
  pose proof (load_cstring_live _ _ _ _ H2) as Hlive.
  apply load_cstring_inv in H2 as ->.
  unfold of_option in H3. destruct (fn_input _ _ _ _); by inversion H3.
Qed.

Lemma callObjectMethod_mem h m w j w1 :
  JNI_callObjectMethod h m w = Done j w1 → mem w1 = mem w.
Proof. unfold_prims. run; intros [=]; by subst. Qed.

Lemma fresh_twice (m : gmap Z chunk) c :
  fresh_block m ≠ fresh_block (<[fresh_block m := c]> m).
Proof. eapply fresh_block_live, lookup_insert_eq. Qed.

Lemma fresh_twice_None (m : gmap Z chunk) c :
  m !! fresh_block (<[fresh_block m := c]> m) = None.
Proof.
  rewrite <- (lookup_insert_ne m (fresh_block m) _ c) by apply fresh_twice.
  apply fresh_block_None.
Qed.

Lemma swap_out (m : gmap Z chunk) c c' :
  delete (fresh_block m)
    (<[fresh_block (<[fresh_block m := c]> m) := c']> (<[fresh_block m := c]> m))
  = <[fresh_block (<[fresh_block m := c]> m) := c']> m.
Proof.
  rewrite delete_insert_ne by apply fresh_twice.
  by rewrite delete_insert_id by apply fresh_block_None.
Qed.

(** What String_createNTS hands back, whatever the conversion did. *)
Lemma createNTS_result convert db (js : jstring) (w : World) p w' :
  js ≠ 0 → String_createNTS convert db js w = Done p w' →
  ∃ b bs, p = Ptr b 0 ∧ b ≠ 0 ∧ mem w !! b = None ∧
          mem w' = <[b := Raw PgContext bs]> (mem w) ∧
          jrefs w' = jrefs w ∧ jheap w' = jheap w ∧ jpending w' = jpending w.
Proof.
  intros Hjs. unfold String_createNTS. rewrite decide_False by done.
  intros (utf8 & w1 & H1 & H)%bind_inv.
  apply getStringUTFChars_inv in H1 as (cs & -> & ->).
  apply bind_inv in H as (len & w2 & H2 & H). apply strlen_inv in H2 as ->.
  apply bind_inv in H as (enc & w3 & H3 & H). inversion H3; subst; clear H3.
  apply bind_inv in H as (r & w4 & H4 & H).
  apply bind_inv in H as (r' & w5 & H5 & H).
  apply bind_inv in H as (u & w6 & H6 & H). inversion H; subst; clear H.
  apply releaseStringUTFChars_inv in H6 as (bs & Hlive & _ & ->).
  set (c0 := Raw JvmChars (cs ++ [0])) in *.
  exists (fresh_block (<[fresh_block (mem w) := c0]> (mem w))).
  apply conversion_inv in H4 as [[-> ->]|(out & -> & ->)].
  - rewrite decide_True in H5 by done.
    apply pstrdup_inv in H5 as (cs' & -> & ->). simpl in *.
    exists (cs' ++ [0]). split; [done|]. split; [apply fresh_block_nonzero|].
    split; [apply fresh_twice_None|]. by rewrite swap_out.
  - simpl in H5. rewrite decide_False in H5 by (intros [= E]; by eapply fresh_twice).
    inversion H5; subst; clear H5. simpl in *.
    exists (out ++ [0]). split; [done|]. split; [apply fresh_block_nonzero|].
    split; [apply fresh_twice_None|]. by rewrite swap_out.
Qed.

(** ** Failures that are not failures of pfree *)

Lemma quiet_ret {A} (a : A) : quiet (ret a).
Proof. intros w Hw. exact Hw. Qed.

Lemma quiet_bind {A B} (m : M A) (k : A → M B) :
  quiet m → (∀ a, quiet (k a)) → quiet (bind m k).
Proof.
  intros Hm Hk w Hw. unfold bind. specialize (Hm w Hw).
  destruct (m w) as [a w1|f w1]; [by apply Hk|done].
Qed.

Ltac quiet_prim :=
  let w := fresh "w" in let Hw := fresh "Hw" in
  intros w Hw; unfold_prims; unfold load_String; run;
  first [exact Hw | intros ?; simpl; discriminate].

Lemma quiet_load_cstring p : quiet (load_cstring p).
Proof. quiet_prim. Qed.

Lemma quiet_strlen p : quiet (strlen p).
Proof. quiet_prim. Qed.

Lemma quiet_getStringUTFChars h : quiet (JNI_getStringUTFChars h).
Proof. quiet_prim. Qed.

Lemma quiet_releaseStringUTFChars h p : quiet (JNI_releaseStringUTFChars h p).
Proof. quiet_prim. Qed.

Lemma quiet_pstrdup p : quiet (pstrdup p).
Proof. quiet_prim. Qed.

Lemma quiet_conversion convert src len from to :
  quiet (pg_do_encoding_conversion convert src len from to).
Proof. quiet_prim. Qed.

Lemma quiet_deleteLocalRef h : quiet (JNI_deleteLocalRef h).
Proof. quiet_prim. Qed.

Lemma quiet_load_String self : quiet (load_String self).
Proof. quiet_prim. Qed.

Lemma quiet_input fn_input fl p elem typmod :
  quiet (FunctionCall3_input fn_input fl p elem typmod).
Proof. quiet_prim. Qed.

Lemma quiet_createNTS convert db js : quiet (String_createNTS convert db js).
Proof.
  unfold String_createNTS. case_decide; [apply quiet_ret|].
  apply quiet_bind; [apply quiet_getStringUTFChars|intros utf8].
  apply quiet_bind; [apply quiet_strlen|intros len].
  apply quiet_bind; [apply quiet_ret|intros enc].
  apply quiet_bind; [apply quiet_conversion|intros r].
  apply quiet_bind; [case_decide; [apply quiet_pstrdup|apply quiet_ret]|intros r'].
  apply quiet_bind; [apply quiet_releaseStringUTFChars|intros _].
  apply quiet_ret.
Qed.

Lemma callObjectMethod_top h m w :
  no_free_on_top (world_of (JNI_callObjectMethod h m w)).
Proof. unfold_prims; run; intros ?; simpl; discriminate. Qed.

Lemma quiet_fail {A} (m : M A) w f w' :
  quiet m → no_free_on_top w → m w = Fail f w' → no_free_on_top w'.
Proof. intros Hq Hw Hm. specialize (Hq w Hw). by rewrite Hm in Hq. Qed.

Lemma quiet_done {A} (m : M A) w a w' :
  quiet m → no_free_on_top w → m w = Done a w' → no_free_on_top w'.
Proof. intros Hq Hw Hm. specialize (Hq w Hw). by rewrite Hm in Hq. Qed.

Lemma coerceObject_free_is_safe convert db fn_input self jstr w f w' :
  mem w !! p_block NULL = None →
  _String_coerceObject convert db fn_input self jstr w = Fail f w' →
  no_free_on_top w'.
Proof.
  intros Hnull.
  unfold _String_coerceObject. case_decide as Hjs; [discriminate|].
  pose proof (callObjectMethod_top jstr s_Object_toString w) as Htop.
  intros [H|(j & w1 & H1 & H)]%bind_fail_inv; [by rewrite H in Htop|].
  rewrite H1 in Htop. simpl in Htop.
  apply callObjectMethod_mem in H1 as Hmem1.
  apply bind_fail_inv in H as [H|(exc & w2 & H2 & H)]; [discriminate|].
  inversion H2; subst; clear H2.
  destruct (jpending w2); [discriminate|].
  apply bind_fail_inv in H as [H|(tmp & w3 & H3 & H)].
  { by eapply quiet_fail; [apply quiet_createNTS| |]. }
  apply bind_fail_inv in H as [H|(u & w4 & H4 & H)]; [discriminate|].
  inversion H4; subst; clear H4.
  apply bind_fail_inv in H as [H|(s & w5 & H5 & H)].
  { eapply quiet_fail; [apply quiet_load_String| |exact H]. intros ?; simpl; discriminate. }
  apply load_String_inv in H5 as ->.
  apply bind_fail_inv in H as [H|(res & w6 & H6 & H)].
  { eapply quiet_fail; [apply quiet_input| |exact H]. intros ?; simpl; discriminate. }
  apply input_inv in H6 as [-> Hlive]. simpl in Hlive.
  apply bind_fail_inv in H as [H|(u' & w7 & H7 & H)]; [|discriminate].
  exfalso.
  destruct (decide (j = 0)) as [->|Hj].
  - unfold String_createNTS in H3. simpl in H3. inversion H3; subst.
    rewrite Hmem1, Hnull in Hlive. by destruct Hlive.
  - apply createNTS_result in H3 as (b & bs & -> & _ & _ & Hmem3 & _); [|done].
    erewrite pfree_ok in H; [discriminate|].
    simpl. rewrite Hmem3. apply lookup_insert_eq.
Qed.

(** C10. String_createNTS always yields an owned copy.  For a non-null
    handle, whatever the conversion primitive returned (its argument or a
    new buffer), the result is the start of a block that did not exist
    before the call, belongs to the backend allocator and is the only
    change to memory (the JVM's buffer is gone again); pfree of it
    succeeds.  For a handle on a string the call does return, and the
    block holds the converted bytes, which are the string's own bytes when
    the conversion is the identity.  And coerceObject frees that result
    without a test: it completes on such a handle, leaving memory as it
    was, and whenever it fails the newest event of the log is not a pfree,
    so the failure is never that of its pfree. *)
Theorem createNTS_owned_copy :
  ∀ convert db,
    (∀ (js : jstring) (w : World) p w',
       js ≠ 0 → String_createNTS convert db js w = Done p w' →
       p ≠ NULL ∧ p_off p = 0 ∧ mem w !! p_block p = None ∧
       (∃ bs, mem w' = <[p_block p := Raw PgContext bs]> (mem w)) ∧
       completed (pfree p w') = true) ∧
    (∀ (js : jstring) (w : World) (u v : list Z),
       is_managed_string w js u → 0 ∉ u →
       transcode convert PG_UTF8 db u = Some v → 0 ∉ v →
       ∃ b w', String_createNTS convert db js w = Done (Ptr b 0) w' ∧
               mem w' !! b = Some (Raw PgContext (v ++ [0]))) ∧
    (∀ fn_input (self : pointer) (s : String_) (jstr : jobject) (w : World)
       (u v : list Z) (d : Datum),
       mem w !! p_block self = Some (Obj s) → p_off self = 0 →
       is_managed_string w jstr u → jpending w = false → 0 ∉ u →
       transcode convert PG_UTF8 db u = Some v → 0 ∉ v →
       accepts fn_input s v d →
       ∃ w', _String_coerceObject convert db fn_input self jstr w = Done d w' ∧
             mem w' = mem w) ∧
    (∀ fn_input self (jstr : jobject) (w : World) f w',
       mem w !! p_block NULL = None →
       _String_coerceObject convert db fn_input self jstr w = Fail f w' →
       no_free_on_top w').
Proof.
  intros convert db. split; [|split; [|split]].
  - intros js w p w' Hjs Hrun.
    apply createNTS_result in Hrun as (b & bs & -> & Hb & Hnew & Hmem & _);
      [|done].
    split; [intros [=]; done|]. split; [done|]. split; [done|].
    split; [by exists bs|].
    erewrite pfree_ok; [done|]. rewrite Hmem. apply lookup_insert_eq.
  - intros js w u v [Hjs (id & Hr & Ho)] Hu Ht Hv.
    destruct (createNTS_spec convert db w js id u v)
      as (b & w' & Hrun & _ & _ & Hmem & _); [done..|].
    exists b, w'. split; [done|]. rewrite Hmem. apply lookup_insert_eq.
  - intros fi [blk off] s jstr w u v d Hm Hoff [Hjs (id & Hr & Ho)] Hp Hu Ht Hv Hd.
    simpl in Hm, Hoff. subst off.
    destruct (coerceObject_spec convert db fi w blk s jstr id u v d)
      as (w' & Hrun & Hmem & _); [done..|].
    by exists w'.
  - intros. by eapply coerceObject_free_is_safe.
Qed.


(** ** More results read backwards *)

Lemma pfree_inv p w u w1 :
  pfree p w = Done u w1 →
  w1 = with_event (EvPfree p) (with_mem (delete (p_block p)) w).
Proof.
  unfold pfree. destruct (mem w !! p_block p) as [[[] bs| | |]|]; try discriminate.
  case_decide; [|discriminate]. by intros [= <-].
Qed.

Lemma newStringUTF_inv p w h w1 :
  JNI_newStringUTF p w = Done h w1 →
  ∃ cs, h = fresh_ref (jrefs w) ∧
        w1 = with_event (EvNewStringUTF p h)
               (with_jrefs <[h := fresh_obj (jheap w)]>
                  (with_jheap <[fresh_obj (jheap w) := JString cs]> w)).
Proof.
  unfold JNI_newStringUTF. intros (cs & w0 & H1 & H2)%bind_inv.
  apply load_cstring_inv in H1 as ->. inversion H2; subst. by exists cs.
Qed.

Lemma output_inv fn_output fl arg elem typmod w p w1 :
  FunctionCall3_output fn_output fl arg elem typmod w = Done p w1 →
  ∃ cs, p = Ptr (fresh_block (mem w)) 0 ∧
        w1 = with_mem <[fresh_block (mem w) := Raw PgContext (cs ++ [0])]>
               (with_event (EvOutput (fn_oid fl) arg elem typmod) w).
Proof.
  unfold FunctionCall3_output. intros (u & w0 & H1 & H2)%bind_inv.
  inversion H1; subst. destruct (fn_output _ _ _ _) as [cs|]; [|discriminate].
  inversion H2; subst. by exists cs.
Qed.

Lemma new_string_is_managed (w : World) cs :
  is_managed_string
    (with_jrefs <[fresh_ref (jrefs w) := fresh_obj (jheap w)]>
       (with_jheap <[fresh_obj (jheap w) := JString cs]> w))
    (fresh_ref (jrefs w)) cs.
Proof.
  split; [apply fresh_ref_nonzero|]. exists (fresh_obj (jheap w)).
  split; apply lookup_insert_eq.
Qed.

Lemma is_managed_string_frame (w w' : World) h u :
  jrefs w' = jrefs w → jheap w' = jheap w →
  is_managed_string w h u → is_managed_string w' h u.
Proof. intros Hr Hh [Hz (id & H1 & H2)]. split; [done|]. exists id. by rewrite Hr, Hh. Qed.

Lemma createJavaStringFromNTS_result convert db cp w h w' :
  cp ≠ NULL → String_createJavaStringFromNTS convert db cp w = Done h w' →
  ∃ u, is_managed_string w' h u.
Proof.
  intros Hcp. unfold String_createJavaStringFromNTS. rewrite decide_False by done.
  intros (len & w1 & H1 & H)%bind_inv. apply strlen_inv in H1 as ->.
  apply bind_inv in H as (enc & w2 & H2 & H). inversion H2; subst; clear H2.
  apply bind_inv in H as (utf8 & w3 & H3 & H).
  apply bind_inv in H as (r & w4 & H4 & H).
  apply bind_inv in H as (u & w5 & H5 & H). inversion H; subst; clear H.
  apply newStringUTF_inv in H4 as (cs & -> & ->). exists cs.
  eapply is_managed_string_frame; [..|apply new_string_is_managed].
  - case_decide; [by inversion H5|]. by apply pfree_inv in H5 as ->.
  - case_decide; [by inversion H5|]. by apply pfree_inv in H5 as ->.
Qed.

Lemma coerceDatum_result convert db fn_output self arg w h w' :
  _String_coerceDatum convert db fn_output self arg w = Done h w' →
  ∃ u, is_managed_string w' h u.
Proof.
  unfold _String_coerceDatum.
  intros (s & w1 & H1 & H)%bind_inv. apply load_String_inv in H1 as ->.
  apply bind_inv in H as (tmp & w2 & H2 & H).
  apply output_inv in H2 as (cs & -> & ->).
  apply bind_inv in H as (r & w3 & H3 & H).
  apply createJavaStringFromNTS_result in H3 as (u & Hu);
    [|intros [=]; by eapply fresh_block_nonzero].
  apply bind_inv in H as (x & w4 & H4 & H). inversion H; subst; clear H.
  apply pfree_inv in H4 as ->. exists u.
  by eapply is_managed_string_frame; [..|exact Hu].
Qed.

(** ** What the two coercions log first *)

Lemma coerceDatum_log convert db fn_output self s arg w :
  mem w !! p_block self = Some (Obj s) → p_off self = 0 →
  ∃ evs, trace (world_of (_String_coerceDatum convert db fn_output self arg w))
         = evs ++ EvOutput (fn_oid (textOutput s)) arg (elementType s) (-1)
                  :: trace w.
Proof.
  intros Hm Hoff. unfold _String_coerceDatum, String_createJavaStringFromNTS.
  unfold_prims. unfold load_String. rewrite Hm, Hoff. simpl.
  run. 
  all: eexists; since_from.
Qed.

Lemma coerceObject_log convert db fn_input self jstr w :
  jstr ≠ 0 →
  ∃ evs, trace (world_of (_String_coerceObject convert db fn_input self jstr w))
         = evs ++ EvCallObjectMethod jstr s_Object_toString :: trace w ∧
         ∀ h m, EvCallObjectMethod h m ∉ evs.
Proof.
  intros Hjs. unfold _String_coerceObject, String_createNTS.
  unfold_prims. unfold load_String. rewrite decide_False by done.
  run. 
  all: eexists; (split; [since_from|]).
  all: intros h m Hin; repeat (apply elem_of_cons in Hin as [Hin|Hin]; [discriminate|]);
       by apply elem_of_nil in Hin.
Qed.

(** ** The type cache *)

Lemma String_create_ok cls t row w :
  String_create cls t row w
  = Done (Ptr (fresh_block (mem w)) 0)
      (with_mem <[fresh_block (mem w) := Obj (new_String cls t row)]>
         (with_event (EvAllocInstance cls t (Ptr (fresh_block (mem w)) 0)) w)).
Proof.
  unfold String_create, TypeClass_allocInstance, fmgr_info_cxt, store_String,
    load_String.
  unfold_prims. simpl. rewrite !lookup_insert_eq. simpl.
  rewrite !lookup_insert_eq. simpl. rewrite !lookup_insert_eq. simpl.
  unfold with_mem, with_event. simpl. rewrite !insert_insert_eq. reflexivity.
Qed.

(** Every resolution either finds a non-null entry and changes nothing,
    or fails without touching the cache and memory, or makes one new
    instance and enters it under its type. *)
Lemma resolve_cases pg_type r t w :
  let q := default NULL (s_cache w !! t) in
  let o := resolve pg_type r t w in
  (q ≠ NULL ∧ o = Done q w) ∨
  (q = NULL ∧ completed o = false ∧
   s_cache (world_of o) = s_cache w ∧ mem (world_of o) = mem w) ∨
  (q = NULL ∧ ∃ cls row w1,
     o = Done (Ptr (fresh_block (mem w)) 0) w1 ∧
     (r = By_String_fromPgType row ∨ pg_type t = Some row) ∧
     mem w1 = <[fresh_block (mem w) := Obj (new_String cls t row)]> (mem w) ∧
     s_cache w1 = <[t := Ptr (fresh_block (mem w)) 0]> (s_cache w)).
Proof.
  intros q o. subst o.
  destruct r as [|cls|row];
    unfold resolve, String_obtain, StringClass_obtain, String_fromPgType,
      HashMap_getByOid, HashMap_putByOid, PgObject_getValidTuple,
      ReleaseSysCache, of_option, log, bind, ret, raise; simpl; fold q;
    (destruct (decide (q = NULL)) as [Hq|Hq]; [|by left]); right.
  - destruct (pg_type t) as [row|] eqn:Hrow; simpl.
    + right. split; [done|]. exists (s_StringClass w), row. eexists.
      rewrite String_create_ok. simpl. split; [reflexivity|]. by split; [right|].
    + by left.
  - destruct (pg_type t) as [row|] eqn:Hrow; simpl.
    + right. split; [done|]. exists cls, row. eexists.
      rewrite String_create_ok. simpl. split; [reflexivity|]. by split; [right|].
    + by left.
  - right. split; [done|]. exists (s_StringClass w), row. eexists.
    rewrite String_create_ok. simpl. split; [reflexivity|]. by split; [left|].
Qed.

Lemma resolve_cached pg_type r t w p :
  s_cache w !! t = Some p → p ≠ NULL → resolve pg_type r t w = Done p w.
Proof.
  intros Hc Hp.
  destruct (resolve_cases pg_type r t w) as [[_ H]|[[H _]|[H _]]];
    rewrite Hc in H; simpl in H; done.
Qed.

Lemma resolve_first pg_type r t w :
  s_cache w !! t = None → resolvable pg_type r t →
  ∃ cls row w1,
    resolve pg_type r t w = Done (Ptr (fresh_block (mem w)) 0) w1 ∧
    mem w1 = <[fresh_block (mem w) := Obj (new_String cls t row)]> (mem w) ∧
    s_cache w1 = <[t := Ptr (fresh_block (mem w)) 0]> (s_cache w).
Proof.
  intros Hc Hr.
  destruct (resolve_cases pg_type r t w)
    as [[H _]|[(_ & Hf & _)|(_ & cls & row & w1 & H & _ & Hm & Hs)]].
  - by rewrite Hc in H.
  - exfalso. revert Hf.
    destruct r as [|cls|row]; simpl in Hr; try destruct Hr as [row Hrow];
      unfold resolve, String_obtain, StringClass_obtain, String_fromPgType,
        HashMap_getByOid, HashMap_putByOid, PgObject_getValidTuple,
        ReleaseSysCache, of_option, log, bind, ret, raise; simpl;
      rewrite Hc, ?Hrow; simpl; by rewrite String_create_ok.
  - by exists cls, row, w1.
Qed.

Lemma resolve_keeps pg_type r t' w t p s :
  p ≠ NULL → cached t p s w → cached t p s (world_of (resolve pg_type r t' w)).
Proof.
  intros Hp [Hc Hm].
  destruct (resolve_cases pg_type r t' w)
    as [[_ ->]|[(_ & _ & Hs & Hmem)|(Hq & cls & row & w1 & -> & _ & Hmem & Hs)]].
  - done.
  - split; congruence.
  - simpl. assert (t' ≠ t) by (intros ->; rewrite Hc in Hq; done).
    split.
    + rewrite Hs. by rewrite lookup_insert_ne.
    + rewrite Hmem. rewrite lookup_insert_ne; [done|].
      symmetry. by eapply fresh_block_live.
Qed.

Lemma run_steps_keep pg_type steps w t p s :
  p ≠ NULL → cached t p s w → cached t p s (run_steps pg_type steps w).
Proof.
  intros Hp. revert w. induction steps as [|st steps IH]; intros w Hc; [done|].
  simpl. apply IH. destruct st as [r t'|t' f|n f]; simpl.
  - by apply resolve_keeps.
  - exact Hc.
  - exact Hc.
Qed.

(** C1. Identity caching.  The first resolution of a type identifier (no
    cache entry yet; the catalog row at hand where the entry point reads
    it) makes a new instance for that identifier and enters it in the
    cache.  After any further resolutions and registrations, a resolution
    of the same identifier through any of the three entry points returns
    that same pointer and leaves the world as it is: nothing is logged, so
    the catalog is not read again, and the instance is the one that was
    made. *)
Theorem identity_caching :
  ∀ pg_type (t : Oid) (r0 : resolution) (w : World),
    s_cache w !! t = None → resolvable pg_type r0 t →
    ∃ p w1 s,
      resolve pg_type r0 t w = Done p w1 ∧
      p ≠ NULL ∧ mem w !! p_block p = None ∧
      mem w1 !! p_block p = Some (Obj s) ∧ typeId s = t ∧
      s_cache w1 !! t = Some p ∧
      ∀ (steps : list step) (r1 : resolution),
        let w2 := run_steps pg_type steps w1 in
        resolve pg_type r1 t w2 = Done p w2 ∧
        mem w2 !! p_block p = Some (Obj s).
Proof.
  intros pg_type t r0 w Hc Hr.
  destruct (resolve_first pg_type r0 t w Hc Hr) as (cls & row & w1 & Hrun & Hm & Hs).
  assert (Hp : Ptr (fresh_block (mem w)) 0 ≠ NULL)
    by (intros [=]; by eapply fresh_block_nonzero).
  exists (Ptr (fresh_block (mem w)) 0), w1, (new_String cls t row).
  assert (Hcached : cached t (Ptr (fresh_block (mem w)) 0) (new_String cls t row) w1).
  { split; [rewrite Hs|rewrite Hm]; apply lookup_insert_eq. }
  split; [done|]. split; [done|]. split; [apply fresh_block_None|].
  split; [apply Hcached|]. split; [done|]. split; [apply Hcached|].
  intros steps r1 w2.
  destruct (run_steps_keep pg_type steps w1 t _ _ Hp Hcached) as [Hc2 Hm2].
  split; [by apply resolve_cached|done].
Qed.

(** ** What coerceDatum returns *)

Lemma cstr_total (bs : list Z) : is_Some (cstr (bs ++ [0])).
Proof.
  induction bs as [|b bs [cs IH]]; simpl; [eauto|].
  case_decide; [eauto|]. rewrite IH. simpl. eauto.
Qed.

Lemma load_cstring_frame p (w w' : World) cs :
  mem w' = mem w → load_cstring p w = Done cs w → load_cstring p w' = Done cs w'.
Proof.
  unfold load_cstring, bytes_at. intros ->.
  destruct (_ ≫= _); by intros [=]; subst.
Qed.

Lemma load_cstring_block (w : World) b c bs cs :
  mem w !! b = Some c → chunk_bytes c = Some bs → cstr bs = Some cs →
  load_cstring (Ptr b 0) w = Done cs w.
Proof.
  intros Hm Hc Hcs. unfold load_cstring.
  rewrite (bytes_at_start w b c bs Hm Hc). simpl. by rewrite Hcs.
Qed.

Lemma strlen_zero p w :
  strlen p w = Done 0 w →
  load_cstring p w = Done [] w ∧ load_bytes p 0 w = Done [] w.
Proof.
  unfold strlen. intros (cs & w0 & H1 & H2)%bind_inv.
  pose proof (load_cstring_inv _ _ _ _ H1) as ->.
  inversion H2 as [Hlen]. destruct cs; [|discriminate]. split; [done|].
  unfold load_cstring in H1. unfold load_bytes.
  destruct (bytes_at p w) as [bs|]; [|discriminate].
  rewrite decide_False by lia. reflexivity.
Qed.

(** C5 (amended). coerceDatum has no test on its argument or on the length
    of the text: for every descriptor and every native value, the zero
    datum included, it invokes the stored output routine first; whenever
    it returns, the result is a managed string and never the null handle;
    and whatever text the routine renders, the empty text included, comes
    back as the managed string of its conversion. *)
Theorem coerceDatum_always_renders :
  ∀ convert db fn_output (self : pointer) (s : String_) (arg : Datum)
    (w : World),
    mem w !! p_block self = Some (Obj s) → p_off self = 0 →
    (∃ evs,
       trace (world_of (_String_coerceDatum convert db fn_output self arg w))
       = evs ++ EvOutput (fn_oid (textOutput s)) arg (elementType s) (-1)
                :: trace w) ∧
    (∀ h w', _String_coerceDatum convert db fn_output self arg w = Done h w' →
             ∃ u, is_managed_string w' h u) ∧
    (∀ cs u, renders fn_output s arg cs → 0 ∉ cs →
             transcode convert db PG_UTF8 cs = Some u → 0 ∉ u →
             ∃ h w', _String_coerceDatum convert db fn_output self arg w
                     = Done h w' ∧ is_managed_string w' h u).
Proof.
  intros convert db fo [blk off] s arg w Hm Hoff. simpl in Hm, Hoff. subst off.
  split; [by apply coerceDatum_log|]. split.
  - intros h w'. apply coerceDatum_result.
  - intros cs u Hr Hcs Ht Hu.
    destruct (coerceDatum_spec convert db fo w blk s arg cs u)
      as (w1 & Hrun & _ & Hrefs & Hheap & _); [done..|].
    exists (fresh_ref (jrefs w)), w1. split; [done|].
    split; [apply fresh_ref_nonzero|]. exists (fresh_obj (jheap w)).
    rewrite Hrefs, Hheap. split; apply lookup_insert_eq.
Qed.

Lemma coerceDatum_always_renders_witness :
  (∃ evs,
     trace (world_of (_String_coerceDatum convert_none PG_UTF8
                        (demo_output utf8_texts) demo_self 0 demo_world))
     = evs ++ EvOutput F_TEXTOUT 0 0 (-1) :: trace demo_world) ∧
  (∀ h w', _String_coerceDatum convert_none PG_UTF8 (demo_output utf8_texts)
             demo_self 0 demo_world = Done h w' →
           ∃ u, is_managed_string w' h u) ∧
  (∀ cs u, renders (demo_output utf8_texts) demo_String 0 cs → 0 ∉ cs →
           transcode convert_none PG_UTF8 PG_UTF8 cs = Some u → 0 ∉ u →
           ∃ h w', _String_coerceDatum convert_none PG_UTF8
                     (demo_output utf8_texts) demo_self 0 demo_world
                   = Done h w' ∧ is_managed_string w' h u).
Proof.
  apply (coerceDatum_always_renders convert_none PG_UTF8
           (demo_output utf8_texts) demo_self demo_String 0 demo_world).
  - vm_compute. reflexivity.
  - reflexivity.
Defined.

(** C5, as stated, fails: the zero datum is rendered by the output routine
    (here as the empty text), and the result is a managed string, not the
    null handle. *)
Lemma coerceDatum_sentinel_counterexample :
  renders (demo_output utf8_texts) demo_String 0 [] ∧
  ∃ h w',
    _String_coerceDatum convert_none PG_UTF8 (demo_output utf8_texts)
      demo_self 0 demo_world = Done h w' ∧
    h ≠ 0 ∧ is_managed_string w' h [] ∧
    EvOutput F_TEXTOUT 0 0 (-1) ∈ trace w'.
Proof.
  split; [reflexivity|]. eexists _, _. split; [vm_compute; reflexivity|].
  split; [done|]. split.
  - split; [done|]. eexists. split; vm_compute; reflexivity.
  - vm_compute. member.
Qed.

(** ** Zero-length input *)

Lemma createJavaString_empty convert db t w :
  t ≠ NULL → VARSIZE t w = Done VARHDRSZ w →
  String_createJavaString convert db t w = Done 0 w.
Proof.
  intros Ht Hsize. unfold String_createJavaString.
  rewrite decide_False by done.
  eapply bind_step; [exact Hsize|]. by rewrite decide_True by lia.
Qed.

Lemma createJavaStringFromNTS_empty convert db cp w :
  cp ≠ NULL → strlen cp w = Done 0 w →
  (∃ evs e,
     trace (world_of (String_createJavaStringFromNTS convert db cp w))
     = evs ++ e :: trace w ∧
     (e = EvConvertError cp 0 db PG_UTF8 ∨
      ∃ r, e = EvConvert cp 0 db PG_UTF8 r)) ∧
  (∀ u, transcode convert db PG_UTF8 [] = Some u →
        ∃ h w', String_createJavaStringFromNTS convert db cp w = Done h w').
Proof.
  intros Hcp Hlen. destruct (strlen_zero _ _ Hlen) as [Hcs Hbs].
  unfold transcode.
  destruct (convert db PG_UTF8 []) as [|out|] eqn:Hc.
  - assert (Hrun : String_createJavaStringFromNTS convert db cp w
                   = Done (fresh_ref (jrefs w))
                       (with_event (EvNewStringUTF cp (fresh_ref (jrefs w)))
                          (with_jrefs <[fresh_ref (jrefs w) := fresh_obj (jheap w)]>
                             (with_jheap <[fresh_obj (jheap w) := JString []]>
                                (with_event (EvConvert cp 0 db PG_UTF8 cp) w))))).
    { unfold String_createJavaStringFromNTS. rewrite decide_False by done.
      eapply bind_step; [exact Hlen|].
      eapply bind_step; [reflexivity|].
      eapply bind_step; [by eapply conversion_unchanged|].
      eapply bind_step;
        [eapply JNI_newStringUTF_ok, load_cstring_frame; [|exact Hcs]; done|].
      by rewrite decide_True by done. }
    rewrite Hrun. split.
    + eexists [_], _. split; [reflexivity|]. right. by eexists.
    + intros _ _. by eexists _, _.
  - destruct (cstr_total out) as [cs Hout].
    assert (Hne : Ptr (fresh_block (mem w)) 0 ≠ cp).
    { intros E. rewrite <- E in Hcs. unfold load_cstring, bytes_at in Hcs.
      simpl in Hcs. by rewrite fresh_block_None in Hcs. }
    assert (Hrun : ∃ w', String_createJavaStringFromNTS convert db cp w
                         = Done (fresh_ref (jrefs w)) w' ∧
                         ∃ evs, trace w' = evs ++
                           EvConvert cp 0 db PG_UTF8 (Ptr (fresh_block (mem w)) 0)
                           :: trace w).
    { eexists. split.
      - unfold String_createJavaStringFromNTS. rewrite decide_False by done.
        eapply bind_step; [exact Hlen|].
        eapply bind_step; [reflexivity|].
        eapply bind_step; [by eapply conversion_converted|].
        eapply bind_step.
        { eapply JNI_newStringUTF_ok, load_cstring_block;
            [apply lookup_insert_eq|reflexivity|exact Hout]. }
        rewrite decide_False by done.
        eapply bind_step; [eapply pfree_ok; simpl; apply lookup_insert_eq|].
        reflexivity.
      - by eexists [_; _]. }
    destruct Hrun as (w' & Hrun & evs & Htr). rewrite Hrun. split.
    + exists evs. eexists. split; [exact Htr|]. right. by eexists.
    + intros _ _. by eexists _, _.
  - assert (Hrun : String_createJavaStringFromNTS convert db cp w
                   = Fail EncodingConversionFailure
                       (with_event (EvConvertError cp 0 db PG_UTF8) w)).
    { unfold String_createJavaStringFromNTS. rewrite decide_False by done.
      eapply bind_step; [exact Hlen|].
      eapply bind_step; [reflexivity|].
      unfold pg_do_encoding_conversion.
      unfold bind at 1. unfold bind at 1. rewrite Hbs, Hc. reflexivity. }
    rewrite Hrun. split.
    + eexists [], _. split; [reflexivity|]. by left.
    + intros u [=].
Qed.

(** C7 (amended). Only the length-delimited shape tests the length.  For a
    text of length zero String_createJavaString returns 0 and leaves the
    world as it is: no conversion, no allocation.  The null-terminated
    shape returns 0 untouched for the null pointer only; for an empty
    string it invokes the conversion primitive with length 0 and, when the
    conversion yields a result, returns a managed string. *)
Theorem zero_length_short_circuit :
  ∀ convert db,
    (∀ (t : pointer) (w : World),
       t ≠ NULL → VARSIZE t w = Done VARHDRSZ w →
       String_createJavaString convert db t w = Done 0 w) ∧
    (∀ w : World, String_createJavaStringFromNTS convert db NULL w = Done 0 w) ∧
    (∀ (cp : pointer) (w : World),
       cp ≠ NULL → strlen cp w = Done 0 w →
       (∃ evs e,
          trace (world_of (String_createJavaStringFromNTS convert db cp w))
          = evs ++ e :: trace w ∧
          (e = EvConvertError cp 0 db PG_UTF8 ∨
           ∃ r, e = EvConvert cp 0 db PG_UTF8 r)) ∧
       (∀ u, transcode convert db PG_UTF8 [] = Some u →
             ∃ h w' v,
               String_createJavaStringFromNTS convert db cp w = Done h w' ∧
               is_managed_string w' h v)).
Proof.
  intros convert db. split; [|split].
  - intros. by apply createJavaString_empty.
  - reflexivity.
  - intros cp w Hcp Hlen.
    destruct (createJavaStringFromNTS_empty convert db cp w Hcp Hlen) as [H1 H2].
    split; [done|]. intros u Hu. destruct (H2 u Hu) as (h & w' & Hrun).
    destruct (createJavaStringFromNTS_result _ _ _ _ _ _ Hcp Hrun) as [v Hv].
    by exists h, w', v.
Qed.

Lemma zero_length_short_circuit_witness :
  String_createJavaString convert_none PG_UTF8 (Ptr 3 0) empty_text_world
  = Done 0 empty_text_world ∧
  ∃ h w' v,
    String_createJavaStringFromNTS convert_none PG_UTF8 (Ptr 3 0)
      empty_cstring_world = Done h w' ∧
    is_managed_string w' h v.
Proof.
  destruct (zero_length_short_circuit convert_none PG_UTF8) as (Ha & _ & Hc).
  split.
  - apply Ha; [done|]. vm_compute. reflexivity.
  - destruct (Hc (Ptr 3 0) empty_cstring_world) as [_ H].
    + done.
    + vm_compute. reflexivity.
    + apply (H []). reflexivity.
Defined.

(** C7, as stated, fails for the null-terminated shape: on an empty string
    String_createJavaStringFromNTS calls the conversion primitive and
    returns a managed string of length zero. *)
Lemma zero_length_counterexample :
  strlen (Ptr 3 0) empty_cstring_world = Done 0 empty_cstring_world ∧
  ∃ h w',
    String_createJavaStringFromNTS convert_none PG_UTF8 (Ptr 3 0)
      empty_cstring_world = Done h w' ∧
    h ≠ 0 ∧ is_managed_string w' h [] ∧
    EvConvert (Ptr 3 0) 0 PG_UTF8 PG_UTF8 (Ptr 3 0) ∈ trace w'.
Proof.
  split; [vm_compute; reflexivity|].
  eexists _, _. split; [vm_compute; reflexivity|].
  split; [done|]. split.
  - split; [done|]. eexists. split; vm_compute; reflexivity.
  - vm_compute. member.
Qed.

(** ** toString *)

(** C8 (amended). coerceObject has no test for "is a string": for every
    non-null handle it invokes toString, once and before anything else,
    whether or not the object is a String.  For a String that invocation
    returns a reference to the same object, and it is the bytes of that
    object that are then transcoded: the call returns what the stored
    input routine makes of their conversion. *)
Theorem stringify_unconditional :
  ∀ convert db fn_input (self : pointer) (jstr : jobject) (w : World),
    jstr ≠ 0 →
    (∃ evs,
       trace (world_of (_String_coerceObject convert db fn_input self jstr w))
       = evs ++ EvCallObjectMethod jstr s_Object_toString :: trace w ∧
       ∀ h m, EvCallObjectMethod h m ∉ evs) ∧
    (∀ id cs, jrefs w !! jstr = Some id → jheap w !! id = Some (JString cs) →
       ∃ h w1, JNI_callObjectMethod jstr s_Object_toString w = Done h w1 ∧
               jrefs w1 !! h = Some id ∧ jheap w1 = jheap w) ∧
    (∀ s id u v d,
       mem w !! p_block self = Some (Obj s) → p_off self = 0 →
       jrefs w !! jstr = Some id → jheap w !! id = Some (JString u) →
       jpending w = false →
       0 ∉ u → transcode convert PG_UTF8 db u = Some v → 0 ∉ v →
       accepts fn_input s v d →
       ∃ w', _String_coerceObject convert db fn_input self jstr w
             = Done d w').
Proof.
  intros convert db fi self jstr w Hjs. split; [by apply coerceObject_log|].
  split.
  - intros id cs Hr Ho. eexists _, _.
    split; [by eapply JNI_callObjectMethod_string|].
    split; [apply lookup_insert_eq|done].
  - intros s id u v d Hm Hoff Hr Ho Hp Hu Ht Hv Hf.
    destruct self as [b off]. simpl in Hm, Hoff. subst off.
    destruct (coerceObject_spec convert db fi w b s jstr id u v d)
      as (w' & Hrun & _); [done..|].
    by exists w'.
Qed.

Lemma stringify_unconditional_witness :
  (∃ evs,
     trace (world_of (_String_coerceObject convert_none PG_UTF8
                        (demo_input utf8_texts) demo_self 1 string_world))
     = evs ++ EvCallObjectMethod 1 s_Object_toString :: trace string_world ∧
     ∀ h m, EvCallObjectMethod h m ∉ evs) ∧
  (∀ id cs, jrefs string_world !! 1 = Some id →
            jheap string_world !! id = Some (JString cs) →
     ∃ h w1, JNI_callObjectMethod 1 s_Object_toString string_world = Done h w1 ∧
             jrefs w1 !! h = Some id ∧ jheap w1 = jheap string_world) ∧
  (∃ w', _String_coerceObject convert_none PG_UTF8 (demo_input utf8_texts)
           demo_self 1 string_world = Done 1 w').
Proof.
  destruct (stringify_unconditional convert_none PG_UTF8
              (demo_input utf8_texts) demo_self 1 string_world)
    as (Hlog & Hsame & Hbytes); [lia|].
  split; [exact Hlog|]. split; [exact Hsame|].
  apply (Hbytes demo_String 0 hello hello 1);
    [vm_compute; reflexivity|reflexivity|vm_compute; reflexivity
    |vm_compute; reflexivity|reflexivity|no_zero|reflexivity|no_zero
    |vm_compute; reflexivity].
Defined.

(** C8, as stated, fails: handle 1 of [string_world] refers to a String,
    and coerceObject still invokes toString on it. *)
Lemma stringify_counterexample :
  is_managed_string string_world 1 hello ∧
  EvCallObjectMethod 1 s_Object_toString
  ∈ trace (world_of (_String_coerceObject convert_none PG_UTF8
                       (demo_input utf8_texts) demo_self 1 string_world)).
Proof.
  split.
  - split; [done|]. eexists. split; vm_compute; reflexivity.
  - vm_compute. member.
Qed.

(** ** A failing toString *)

(** C4 (amended). When toString raises, coerceObject reports no failure
    of its own: it returns at once and normally, with the datum 0, and
    leaves the exception pending, not cleared, for a caller that polls the
    exception check.  The only event it logs is the method call, so
    neither the conversion primitive nor the input routine ran; no
    reference was obtained, and the reference table, the Java heap and the
    memory are as before. *)
Theorem stringify_failure_left_pending :
  ∀ convert db fn_input (self : pointer) (jstr : jobject) (w : World) id,
    jstr ≠ 0 → jrefs w !! jstr = Some id →
    jheap w !! id = Some (JObject Raises) →
    ∃ w', _String_coerceObject convert db fn_input self jstr w = Done 0 w' ∧
          trace w' = EvCallObjectMethod jstr s_Object_toString :: trace w ∧
          JNI_exceptionCheck w' = Done true w' ∧
          jrefs w' = jrefs w ∧ jheap w' = jheap w ∧ mem w' = mem w.
Proof.
  intros convert db fi self jstr w id Hjs Hr Ho.
  exists (with_jpending true
            (with_event (EvCallObjectMethod jstr s_Object_toString) w)).
  split; [|done].
  unfold _String_coerceObject. rewrite decide_False by done.
  eapply bind_step.
  { unfold JNI_callObjectMethod. eapply bind_step; [reflexivity|].
    eapply bind_step; [by eapply deref_ok|]. reflexivity. }
  reflexivity.
Qed.

Lemma stringify_failure_left_pending_witness :
  ∃ w', _String_coerceObject convert_none PG_UTF8 (demo_input utf8_texts)
          demo_self 1 raising_world = Done 0 w' ∧
        trace w' = EvCallObjectMethod 1 s_Object_toString :: trace raising_world ∧
        JNI_exceptionCheck w' = Done true w' ∧
        jrefs w' = jrefs raising_world ∧ jheap w' = jheap raising_world ∧
        mem w' = mem raising_world.
Proof.
  apply (stringify_failure_left_pending convert_none PG_UTF8
           (demo_input utf8_texts) demo_self 1 raising_world 1).
  - lia.
  - vm_compute. reflexivity.
  - vm_compute. reflexivity.
Defined.

(** C4, as stated, fails: the object under handle 1 of [raising_world]
    raises in toString, and coerceObject ends in no failure of any kind.
    It completes with the datum 0, which is also what it returns for the
    null handle; only the pending exception tells the two apart. *)
Lemma stringify_failure_counterexample :
  jrefs raising_world !! 1 = Some 1 ∧
  jheap raising_world !! 1 = Some (JObject Raises) ∧
  (∀ f w', _String_coerceObject convert_none PG_UTF8 (demo_input utf8_texts)
             demo_self 1 raising_world ≠ Fail f w') ∧
  (∃ w', _String_coerceObject convert_none PG_UTF8 (demo_input utf8_texts)
           demo_self 1 raising_world = Done 0 w' ∧ jpending w' = true) ∧
  _String_coerceObject convert_none PG_UTF8 (demo_input utf8_texts)
    demo_self 0 raising_world = Done 0 raising_world.
Proof.
  split; [vm_compute; reflexivity|]. split; [vm_compute; reflexivity|].
  split; [intros f w' H; vm_compute in H; discriminate|].
  split; [|vm_compute; reflexivity].
  eexists. split; vm_compute; reflexivity.
Qed.

(** ** Witnesses of the cache and of the owned copy *)

Lemma identity_caching_witness :
  ∃ p w1 s,
    resolve demo_catalog By_String_obtain TEXTOID init_world = Done p w1 ∧
    p ≠ NULL ∧ mem init_world !! p_block p = None ∧
    mem w1 !! p_block p = Some (Obj s) ∧ typeId s = TEXTOID ∧
    s_cache w1 !! TEXTOID = Some p ∧
    ∀ (steps : list step) (r1 : resolution),
      let w2 := run_steps demo_catalog steps w1 in
      resolve demo_catalog r1 TEXTOID w2 = Done p w2 ∧
      mem w2 !! p_block p = Some (Obj s).
Proof.
  apply (identity_caching demo_catalog TEXTOID By_String_obtain init_world).
  - vm_compute. reflexivity.
  - vm_compute. eauto.
Defined.

Lemma createNTS_owned_copy_witness :
  (∃ p w',
     String_createNTS convert_none PG_UTF8 1 string_world = Done p w' ∧
     p ≠ NULL ∧ p_off p = 0 ∧ mem string_world !! p_block p = None ∧
     (∃ bs, mem w' = <[p_block p := Raw PgContext bs]> (mem string_world)) ∧
     completed (pfree p w') = true) ∧
  (∃ b w',
     String_createNTS convert_none PG_UTF8 1 string_world = Done (Ptr b 0) w' ∧
     mem w' !! b = Some (Raw PgContext (hello ++ [0]))) ∧
  (∃ w',
     _String_coerceObject convert_none PG_UTF8 (demo_input utf8_texts)
       demo_self 1 string_world = Done 1 w' ∧
     mem w' = mem string_world) ∧
  no_free_on_top
    (world_of (_String_coerceObject convert_none PG_UTF8
                 (fun _ _ _ _ => None) demo_self 1 string_world)).
Proof.
  destruct (createNTS_owned_copy convert_none PG_UTF8) as (Ha & Hb & Hc & Hd).
  assert (Hs : is_managed_string string_world 1 hello).
  { split; [lia|]. exists 0. split; vm_compute; reflexivity. }
  split; [|split; [|split]].
  - eexists _, _. split; [vm_compute; reflexivity|].
    apply (Ha 1 string_world); [lia|]. vm_compute. reflexivity.
  - apply (Hb 1 string_world hello hello); [exact Hs|no_zero|reflexivity|no_zero].
  - apply (Hc (demo_input utf8_texts) demo_self demo_String 1 string_world
              hello hello 1);
      [vm_compute; reflexivity|reflexivity|exact Hs|reflexivity|no_zero
      |reflexivity|no_zero|reflexivity].
  - eapply (Hd (fun _ _ _ _ => None) demo_self 1 string_world).
    + vm_compute. reflexivity.
    + vm_compute. reflexivity.
Defined.

(** * Further properties of String.c *)

(** ** The type cache and its instances *)

Lemma keeps_ret {A} (a : A) : keeps_instances (ret a).
Proof. intros w. by split. Qed.

Lemma keeps_raise {A} f : keeps_instances (@raise A f).
Proof. intros w. by split. Qed.

Lemma keeps_bind {A B} (m : M A) (k : A → M B) :
  keeps_instances m → (∀ a, keeps_instances (k a)) → keeps_instances (bind m k).
Proof.
  intros Hm Hk w. unfold bind. destruct (Hm w) as [Hc Hi].
  destruct (m w) as [a w1|f w1]; simpl in *; [|done].
  destruct (Hk a w1) as [Hc1 Hi1]. split; [congruence|eauto].
Qed.

Lemma keeps_if {A} (P : Prop) `{Decision P} (m1 m2 : M A) :
  keeps_instances m1 → keeps_instances m2 →
  keeps_instances (if decide P then m1 else m2).
Proof. by case_decide. Qed.

(** The three ways memory changes. *)
Lemma keep_alloc (m : gmap Z chunk) c b s :
  m !! b = Some (Obj s) → <[fresh_block m := c]> m !! b = Some (Obj s).
Proof.
  intros H. rewrite lookup_insert_ne; [done|].
  symmetry. by eapply fresh_block_live.
Qed.

Lemma keep_delete (m : gmap Z chunk) b' b s :
  (∀ s', m !! b' ≠ Some (Obj s')) →
  m !! b = Some (Obj s) → delete b' m !! b = Some (Obj s).
Proof.
  intros Hb' H. rewrite lookup_delete_ne; [done|]. intros ->. by eapply Hb'.
Qed.

Lemma keep_overwrite (m : gmap Z chunk) b' c b s :
  (∀ s', m !! b' ≠ Some (Obj s')) →
  m !! b = Some (Obj s) → <[b' := c]> m !! b = Some (Obj s).
Proof.
  intros Hb' H. rewrite lookup_insert_ne; [done|]. intros ->. by eapply Hb'.
Qed.

Ltac keeps_prim :=
  let w := fresh "w" in
  intros w; unfold_prims; unfold load_String;
  split; [run; reflexivity|];
  let b := fresh "b" in let s := fresh "s" in let Hb := fresh "Hb" in
  intros b s Hb; run; simpl;
  first [ exact Hb
        | by apply keep_alloc
        | apply keep_delete; [congruence|exact Hb]
        | apply keep_overwrite; [congruence|exact Hb] ].

Lemma keeps_load_cstring p : keeps_instances (load_cstring p).
Proof. keeps_prim. Qed.
Lemma keeps_strlen p : keeps_instances (strlen p).
Proof. keeps_prim. Qed.
Lemma keeps_load_String p : keeps_instances (load_String p).
Proof. keeps_prim. Qed.
Lemma keeps_VARSIZE p : keeps_instances (VARSIZE p).
Proof. keeps_prim. Qed.
Lemma keeps_palloc n : keeps_instances (palloc n).
Proof. keeps_prim. Qed.
Lemma keeps_pfree p : keeps_instances (pfree p).
Proof. keeps_prim. Qed.
Lemma keeps_pstrdup p : keeps_instances (pstrdup p).
Proof. keeps_prim. Qed.
Lemma keeps_store_bytes p bs : keeps_instances (store_bytes p bs).
Proof. keeps_prim. Qed.
Lemma keeps_memcpy d p n : keeps_instances (memcpy d p n).
Proof. keeps_prim. Qed.
Lemma keeps_append buf p : keeps_instances (appendStringInfoString buf p).
Proof. keeps_prim. Qed.
Lemma keeps_newStringUTF p : keeps_instances (JNI_newStringUTF p).
Proof. keeps_prim. Qed.
Lemma keeps_getStringUTFChars h : keeps_instances (JNI_getStringUTFChars h).
Proof. keeps_prim. Qed.
Lemma keeps_releaseStringUTFChars h p :
  keeps_instances (JNI_releaseStringUTFChars h p).
Proof. keeps_prim. Qed.
Lemma keeps_callObjectMethod h m : keeps_instances (JNI_callObjectMethod h m).
Proof. keeps_prim. Qed.
Lemma keeps_exceptionCheck : keeps_instances JNI_exceptionCheck.
Proof. keeps_prim. Qed.
Lemma keeps_deleteLocalRef h : keeps_instances (JNI_deleteLocalRef h).
Proof. keeps_prim. Qed.
Lemma keeps_conversion convert src len from to :
  keeps_instances (pg_do_encoding_conversion convert src len from to).
Proof. keeps_prim. Qed.
Lemma keeps_output fo fl arg el tm :
  keeps_instances (FunctionCall3_output fo fl arg el tm).
Proof. keeps_prim. Qed.
Lemma keeps_input fi fl p el tm :
  keeps_instances (FunctionCall3_input fi fl p el tm).
Proof. keeps_prim. Qed.

Ltac keeps :=
  repeat first
    [ apply keeps_ret | apply keeps_raise
    | apply keeps_if
    | apply keeps_load_cstring | apply keeps_strlen | apply keeps_load_String
    | apply keeps_VARSIZE | apply keeps_palloc | apply keeps_pfree
    | apply keeps_pstrdup | apply keeps_store_bytes | apply keeps_memcpy
    | apply keeps_append | apply keeps_newStringUTF
    | apply keeps_getStringUTFChars | apply keeps_releaseStringUTFChars
    | apply keeps_callObjectMethod | apply keeps_exceptionCheck
    | apply keeps_deleteLocalRef | apply keeps_conversion
    | apply keeps_output | apply keeps_input
    | apply keeps_bind; [|intros ?]
    | match goal with
      | |- keeps_instances (if ?b then _ else _) => destruct b
      end ].

Lemma keeps_createJavaString convert db t :
  keeps_instances (String_createJavaString convert db t).
Proof. unfold String_createJavaString, GetDatabaseEncoding. keeps. Qed.

Lemma keeps_createJavaStringFromNTS convert db cp :
  keeps_instances (String_createJavaStringFromNTS convert db cp).
Proof. unfold String_createJavaStringFromNTS, GetDatabaseEncoding. keeps. Qed.

Lemma keeps_createText convert db js :
  keeps_instances (String_createText convert db js).
Proof.
  unfold String_createText, GetDatabaseEncoding, VARATT_SIZEP_set. keeps.
Qed.

Lemma keeps_createNTS convert db js :
  keeps_instances (String_createNTS convert db js).
Proof. unfold String_createNTS, GetDatabaseEncoding. keeps. Qed.

Lemma keeps_appendJavaString convert db buf js :
  keeps_instances (String_appendJavaString convert db buf js).
Proof. unfold String_appendJavaString, GetDatabaseEncoding. keeps. Qed.

Lemma keeps_coerceDatum convert db fo self arg :
  keeps_instances (_String_coerceDatum convert db fo self arg).
Proof.
  unfold _String_coerceDatum. keeps.
Qed.

Lemma keeps_coerceObject convert db fi self jstr :
  keeps_instances (_String_coerceObject convert db fi self jstr).
Proof.
  unfold _String_coerceObject. keeps.
Qed.

(** ** What String_initialize and a resolution do to the world *)

Lemma String_initialize_world w :
  String_initialize w
  = Done tt
      {| mem := <[fresh_block (mem w) := Cls "type.String"]> (mem w);
         s_StringClass := Ptr (fresh_block (mem w)) 0;
         s_cache := ∅;
         pg_registry :=
           <[VARCHAROID := Obtainer_String_obtain]>
             (<[NAMEOID := Obtainer_String_obtain]>
                (<[BPCHAROID := Obtainer_String_obtain]>
                   (<[CSTRINGOID := Obtainer_String_obtain]>
                      (<[TEXTOID := Obtainer_String_obtain]> (pg_registry w)))));
         java_registry :=
           <["java.lang.String" := Obtainer_String_obtain]> (java_registry w);
         jheap := jheap w; jrefs := jrefs w; jpending := jpending w;
         trace := trace w |}.
Proof. reflexivity. Qed.



Lemma sound_keeps {A} (m : M A) w :
  keeps_instances m → cache_sound w → cache_sound (world_of (m w)).
Proof.
  intros Hk Hs t p Hp. destruct (Hk w) as [Hc Hi]. rewrite Hc in Hp.
  destruct (Hs t p Hp) as (Hnz & Hoff & s & Hm & Ht).
  split; [done|]. split; [done|]. exists s. split; [by apply Hi|done].
Qed.

Lemma sound_resolve pg_type r t w :
  cache_sound w → cache_sound (world_of (resolve pg_type r t w)).
Proof.
  intros Hs.
  destruct (resolve_cases pg_type r t w)
    as [[_ ->]|[(_ & _ & Hc & Hm)|(_ & cls & row & w1 & -> & _ & Hm & Hc)]].
  - done.
  - intros t' p Hp. rewrite Hc in Hp. rewrite Hm. by apply Hs.
  - simpl. intros t' p Hp. rewrite Hc in Hp. rewrite Hm.
    destruct (decide (t = t')) as [<-|Hne].
    + rewrite lookup_insert_eq in Hp. inversion Hp; subst; simpl.
      split; [intros [=]; by eapply fresh_block_nonzero|]. split; [done|].
      eexists. split; [apply lookup_insert_eq|done].
    + rewrite lookup_insert_ne in Hp by done.
      destruct (Hs t' p Hp) as (Hnz & Hoff & s & Hl & Ht).
      split; [done|]. split; [done|]. exists s. split; [by apply keep_alloc|done].
Qed.

Lemma sound_action convert db fo fi pg_type (a : action) w :
  cache_sound w → cache_sound (run_action convert db fo fi pg_type w a).
Proof.
  intros Hs. destruct a as [|[r t|t f|n f]| | | | | | |]; cbn [run_action run_step].
  - rewrite String_initialize_world. intros t p Hp. simpl in Hp.
    by rewrite lookup_empty in Hp.
  - by apply sound_resolve.
  - done.
  - done.
  - by apply sound_keeps; [apply keeps_coerceDatum|].
  - by apply sound_keeps; [apply keeps_coerceObject|].
  - by apply sound_keeps; [apply keeps_createJavaString|].
  - by apply sound_keeps; [apply keeps_createJavaStringFromNTS|].
  - by apply sound_keeps; [apply keeps_createText|].
  - by apply sound_keeps; [apply keeps_createNTS|].
  - by apply sound_keeps; [apply keeps_appendJavaString|].
Qed.

Lemma sound_actions convert db fo fi pg_type (l : list action) w :
  cache_sound w → cache_sound (run_actions convert db fo fi pg_type l w).
Proof.
  revert w. induction l as [|a l IH]; intros w Hs; [done|].
  simpl. by apply IH, sound_action.
Qed.

(** X1. The type cache stays sound. From String_initialize on, whatever
    is done with String.c (resolutions, registrations, coercions,
    transcoding calls, another initialization), every cache entry is a
    non-null pointer to the start of a live String instance made for the
    entry's own type identifier; hence two type identifiers never share
    an instance. *)
Theorem cache_stays_sound :
  ∀ convert db fn_output fn_input pg_type (w0 : World) (l : list action),
    let w := run_actions convert db fn_output fn_input pg_type l
               (world_of (String_initialize w0)) in
    cache_sound w ∧
    ∀ t1 t2 p, s_cache w !! t1 = Some p → s_cache w !! t2 = Some p → t1 = t2.
Proof.
  intros convert db fo fi pg_type w0 l w.
  assert (Hs : cache_sound w).
  { apply sound_actions. rewrite String_initialize_world.
    intros t p Hp. simpl in Hp. by rewrite lookup_empty in Hp. }
  split; [done|]. intros t1 t2 p H1 H2.
  destruct (Hs t1 p H1) as (_ & _ & s1 & Hm1 & <-).
  destruct (Hs t2 p H2) as (_ & _ & s2 & Hm2 & <-).
  congruence.
Qed.

Lemma cache_stays_sound_witness :
  (let w := run_actions convert_none PG_UTF8 (demo_output utf8_texts)
              (demo_input utf8_texts) demo_catalog demo_actions
              (world_of (String_initialize empty_world)) in
   cache_sound w ∧
   ∀ t1 t2 p, s_cache w !! t1 = Some p → s_cache w !! t2 = Some p → t1 = t2) ∧
  s_cache (run_actions convert_none PG_UTF8 (demo_output utf8_texts)
             (demo_input utf8_texts) demo_catalog demo_actions
             (world_of (String_initialize empty_world))) !! TEXTOID
  = Some demo_self.
Proof.
  split.
  - apply (cache_stays_sound convert_none PG_UTF8 (demo_output utf8_texts)
             (demo_input utf8_texts) demo_catalog empty_world demo_actions).
  - vm_compute. reflexivity.
Defined.



(** ** Resolutions in detail *)

Lemma StringClass_obtain_new pg_type cls t row w :
  s_cache w !! t = None → pg_type t = Some row →
  StringClass_obtain pg_type cls t w
  = Done (Ptr (fresh_block (mem w)) 0)
      (with_cache <[t := Ptr (fresh_block (mem w)) 0]>
         (with_event (EvReleaseSysCache t)
            (with_mem <[fresh_block (mem w) := Obj (new_String cls t row)]>
               (with_event (EvAllocInstance cls t (Ptr (fresh_block (mem w)) 0))
                  (with_event (EvGetValidTuple t) w))))).
Proof.
  intros Hc Hrow.
  unfold StringClass_obtain, HashMap_getByOid, HashMap_putByOid,
    PgObject_getValidTuple, ReleaseSysCache, of_option, log, bind, ret.
  simpl. rewrite Hc, Hrow. simpl. by rewrite String_create_ok.
Qed.

Lemma String_fromPgType_new t row w :
  s_cache w !! t = None →
  String_fromPgType t row w
  = Done (Ptr (fresh_block (mem w)) 0)
      (with_cache <[t := Ptr (fresh_block (mem w)) 0]>
         (with_mem <[fresh_block (mem w)
                     := Obj (new_String (s_StringClass w) t row)]>
            (with_event (EvAllocInstance (s_StringClass w) t
                           (Ptr (fresh_block (mem w)) 0)) w))).
Proof.
  intros Hc.
  unfold String_fromPgType, HashMap_getByOid, HashMap_putByOid, bind, ret.
  simpl. rewrite Hc. simpl. by rewrite String_create_ok.
Qed.

Lemma StringClass_obtain_fails pg_type cls t w :
  s_cache w !! t = None → pg_type t = None →
  StringClass_obtain pg_type cls t w
  = Fail CatalogLookupFailure (with_event (EvGetValidTuple t) w).
Proof.
  intros Hc Hrow.
  unfold StringClass_obtain, HashMap_getByOid, PgObject_getValidTuple,
    of_option, log, bind, ret, raise.
  simpl. by rewrite Hc, Hrow.
Qed.

(** X3. A type without a catalog row. For an identifier that is not cached
    and has no row in pg_type, String_obtain and StringClass_obtain fail
    with CatalogLookupFailure right after the look-up: no instance is
    made, nothing enters the cache, memory is untouched.  The identifier
    can still be resolved afterwards by String_fromPgType, which is
    handed a row and does not read the catalog. *)
Theorem unknown_type_is_not_cached :
  ∀ pg_type (t : Oid) (w : World),
    s_cache w !! t = None → pg_type t = None →
    ∃ w', trace w' = EvGetValidTuple t :: trace w ∧
      String_obtain pg_type t w = Fail CatalogLookupFailure w' ∧
      (∀ cls, StringClass_obtain pg_type cls t w
              = Fail CatalogLookupFailure w') ∧
      s_cache w' = s_cache w ∧ mem w' = mem w ∧
      ∀ row, ∃ p w1,
        String_fromPgType t row w' = Done p w1 ∧ p ≠ NULL ∧
        s_cache w1 !! t = Some p ∧
        mem w1 !! p_block p = Some (Obj (new_String (s_StringClass w) t row)).
Proof.
  intros pg_type t w Hc Hrow. exists (with_event (EvGetValidTuple t) w).
  split; [done|].
  split; [by apply StringClass_obtain_fails|].
  split; [intros cls; by apply StringClass_obtain_fails|].
  split; [done|]. split; [done|]. intros row.
  eexists _, _. split; [by apply String_fromPgType_new|].
  split; [intros [=]; by eapply fresh_block_nonzero|].
  split; apply lookup_insert_eq.
Qed.

Lemma unknown_type_is_not_cached_witness :
  ∃ w', trace w' = EvGetValidTuple NAMEOID :: trace demo_world ∧
    String_obtain demo_catalog NAMEOID demo_world
    = Fail CatalogLookupFailure w' ∧
    (∀ cls, StringClass_obtain demo_catalog cls NAMEOID demo_world
            = Fail CatalogLookupFailure w') ∧
    s_cache w' = s_cache demo_world ∧ mem w' = mem demo_world ∧
    ∀ row, ∃ p w1,
      String_fromPgType NAMEOID row w' = Done p w1 ∧ p ≠ NULL ∧
      s_cache w1 !! NAMEOID = Some p ∧
      mem w1 !! p_block p
      = Some (Obj (new_String (s_StringClass demo_world) NAMEOID row)).
Proof.
  apply (unknown_type_is_not_cached demo_catalog NAMEOID demo_world).
  - vm_compute. reflexivity.
  - vm_compute. reflexivity.
Defined.

(** X4. What a first resolution stores and logs. For an identifier that is
    not cached, StringClass_obtain reads the catalog row once, makes one
    instance of the class it is given, holding the identifier and the
    row's output routine, input routine and element type, and releases
    the row; String_obtain does the same for the class in s_StringClass;
    String_fromPgType makes the instance from the row it is handed and
    does not read the catalog. *)
Theorem first_resolution_stores_the_row :
  ∀ pg_type (t : Oid) (w : World) (row : Form_pg_type),
    s_cache w !! t = None → pg_type t = Some row →
    (∀ cls, ∃ p w1,
       StringClass_obtain pg_type cls t w = Done p w1 ∧
       mem w !! p_block p = None ∧
       mem w1 !! p_block p = Some (Obj (new_String cls t row)) ∧
       trace w1 = [EvReleaseSysCache t; EvAllocInstance cls t p;
                   EvGetValidTuple t] ++ trace w) ∧
    (∃ p w1,
       String_obtain pg_type t w = Done p w1 ∧
       mem w1 !! p_block p = Some (Obj (new_String (s_StringClass w) t row)) ∧
       trace w1 = [EvReleaseSysCache t; EvAllocInstance (s_StringClass w) t p;
                   EvGetValidTuple t] ++ trace w) ∧
    (∀ row', ∃ p w1,
       String_fromPgType t row' w = Done p w1 ∧
       mem w1 !! p_block p = Some (Obj (new_String (s_StringClass w) t row')) ∧
       trace w1 = [EvAllocInstance (s_StringClass w) t p] ++ trace w).
Proof.
  intros pg_type t w row Hc Hrow. split; [|split].
  - intros cls. eexists _, _. split; [by apply StringClass_obtain_new|].
    split; [apply fresh_block_None|]. split; [apply lookup_insert_eq|done].
  - eexists _, _.
    split; [by apply (StringClass_obtain_new pg_type (s_StringClass w))|].
    split; [apply lookup_insert_eq|done].
  - intros row'. eexists _, _. split; [by apply String_fromPgType_new|].
    split; [apply lookup_insert_eq|done].
Qed.

Lemma first_resolution_stores_the_row_witness :
  (∀ cls, ∃ p w1,
     StringClass_obtain demo_catalog cls TEXTOID init_world = Done p w1 ∧
     mem init_world !! p_block p = None ∧
     mem w1 !! p_block p
     = Some (Obj (new_String cls TEXTOID
                    {| typoutput := F_TEXTOUT; typinput := F_TEXTIN;
                       typelem := 0 |})) ∧
     trace w1 = [EvReleaseSysCache TEXTOID; EvAllocInstance cls TEXTOID p;
                 EvGetValidTuple TEXTOID] ++ trace init_world) ∧
  (∃ p w1,
     String_obtain demo_catalog TEXTOID init_world = Done p w1 ∧
     mem w1 !! p_block p
     = Some (Obj (new_String (s_StringClass init_world) TEXTOID
                    {| typoutput := F_TEXTOUT; typinput := F_TEXTIN;
                       typelem := 0 |})) ∧
     trace w1 = [EvReleaseSysCache TEXTOID;
                 EvAllocInstance (s_StringClass init_world) TEXTOID p;
                 EvGetValidTuple TEXTOID] ++ trace init_world) ∧
  (∀ row', ∃ p w1,
     String_fromPgType TEXTOID row' init_world = Done p w1 ∧
     mem w1 !! p_block p
     = Some (Obj (new_String (s_StringClass init_world) TEXTOID row')) ∧
     trace w1 = [EvAllocInstance (s_StringClass init_world) TEXTOID p]
                ++ trace init_world).
Proof.
  apply (first_resolution_stores_the_row demo_catalog TEXTOID init_world).
  - vm_compute. reflexivity.
  - vm_compute. reflexivity.
Defined.

(** ** What a completed call leaves behind *)

Lemma strlen_live p w n w1 :
  strlen p w = Done n w1 → is_Some (mem w !! p_block p).
Proof.
  unfold strlen. intros (cs & w0 & H1 & _)%bind_inv.
  by eapply load_cstring_live.
Qed.

Lemma load_bytes_live p n w bs w1 :
  load_bytes p n w = Done bs w1 → is_Some (mem w !! p_block p).
Proof.
  unfold load_bytes, bytes_at. case_decide; [|discriminate].
  destruct (mem w !! p_block p); [eauto|discriminate].
Qed.

Lemma conversion_live convert src len from to w r w1 :
  pg_do_encoding_conversion convert src len from to w = Done r w1 →
  is_Some (mem w !! p_block src).
Proof.
  unfold pg_do_encoding_conversion. intros (bs & w0 & H1 & _)%bind_inv.
  by eapply load_bytes_live.
Qed.

Lemma live_not_fresh (m : gmap Z chunk) (p : pointer) :
  is_Some (m !! p_block p) → Ptr (fresh_block m) 0 ≠ p.
Proof. intros [c Hc] <-. simpl in Hc. by rewrite fresh_block_None in Hc. Qed.

(** The tail shared by the two shapes: convert, make the string, release
    the conversion's buffer unless it is the source. *)
Lemma into_managed_tail convert src len from to w h w' :
  (utf8 <- pg_do_encoding_conversion convert src len from to ;;
   result <- JNI_newStringUTF utf8 ;;
   (if decide (utf8 = src) then ret tt else pfree utf8) ;;;
   ret result) w = Done h w' →
  mem w' = mem w ∧ h = fresh_ref (jrefs w) ∧
  jrefs w' = <[h := fresh_obj (jheap w)]> (jrefs w) ∧
  (∃ cs, jheap w' = <[fresh_obj (jheap w) := JString cs]> (jheap w)) ∧
  jpending w' = jpending w.
Proof.
  intros (utf8 & w1 & H1 & H)%bind_inv.
  pose proof (conversion_live _ _ _ _ _ _ _ _ H1) as Hlive.
  apply bind_inv in H as (r & w2 & H2 & H).
  apply bind_inv in H as (u & w3 & H3 & H). inversion H; subst; clear H.
  apply newStringUTF_inv in H2 as (cs & -> & ->).
  apply conversion_inv in H1 as [[-> ->]|(out & -> & ->)].
  - rewrite decide_True in H3 by done. inversion H3; subst. simpl.
    split; [done|]. split; [done|]. split; [done|]. split; [by exists cs|done].
  - rewrite decide_False in H3 by (by apply live_not_fresh).
    apply pfree_inv in H3 as ->. simpl.
    rewrite delete_insert_id by apply fresh_block_None.
    split; [done|]. split; [done|]. split; [done|]. split; [by exists cs|done].
Qed.

Lemma createJavaStringFromNTS_frame convert db cp w h w' :
  cp ≠ NULL → String_createJavaStringFromNTS convert db cp w = Done h w' →
  mem w' = mem w ∧ h = fresh_ref (jrefs w) ∧
  jrefs w' = <[h := fresh_obj (jheap w)]> (jrefs w) ∧
  (∃ cs, jheap w' = <[fresh_obj (jheap w) := JString cs]> (jheap w)) ∧
  jpending w' = jpending w.
Proof.
  intros Hcp. unfold String_createJavaStringFromNTS. rewrite decide_False by done.
  intros (len & w1 & H1 & H)%bind_inv. apply strlen_inv in H1 as ->.
  apply bind_inv in H as (enc & w2 & H2 & H). inversion H2; subst; clear H2.
  by apply into_managed_tail in H.
Qed.

Lemma createJavaString_frame convert db t w h w' :
  String_createJavaString convert db t w = Done h w' →
  (h = 0 ∧ w' = w) ∨
  (mem w' = mem w ∧ h = fresh_ref (jrefs w) ∧
   jrefs w' = <[h := fresh_obj (jheap w)]> (jrefs w) ∧
   (∃ cs, jheap w' = <[fresh_obj (jheap w) := JString cs]> (jheap w)) ∧
   jpending w' = jpending w).
Proof.
  unfold String_createJavaString. case_decide as Ht; [intros [= <- <-]; by left|].
  intros (size & w1 & H1 & H)%bind_inv.
  assert (w1 = w) as ->.
  { unfold VARSIZE in H1. apply bind_inv in H1 as (hdr & w0 & Hl & Hd).
    apply load_bytes_inv in Hl as ->. unfold of_option in Hd.
    destruct (decode_int32 hdr); by inversion Hd. }
  case_decide as Hz; [inversion H; by left|].
  apply bind_inv in H as (enc & w2 & H2 & H). inversion H2; subst; clear H2.
  right. by apply into_managed_tail in H.
Qed.

Lemma coerceDatum_frame convert db fn_output self arg w h w' :
  _String_coerceDatum convert db fn_output self arg w = Done h w' →
  mem w' = mem w ∧ h = fresh_ref (jrefs w) ∧
  jrefs w' = <[h := fresh_obj (jheap w)]> (jrefs w) ∧
  (∃ cs, jheap w' = <[fresh_obj (jheap w) := JString cs]> (jheap w)) ∧
  jpending w' = jpending w.
Proof.
  unfold _String_coerceDatum.
  intros (s & w1 & H1 & H)%bind_inv. apply load_String_inv in H1 as ->.
  apply bind_inv in H as (tmp & w2 & H2 & H).
  apply output_inv in H2 as (cs & -> & ->).
  apply bind_inv in H as (r & w3 & H3 & H).
  apply createJavaStringFromNTS_frame in H3
    as (Hmem & -> & Hrefs & Hheap & Hpend);
    [|intros [=]; by eapply fresh_block_nonzero].
  apply bind_inv in H as (x & w4 & H4 & H). inversion H; subst; clear H.
  apply pfree_inv in H4 as ->. simpl in *.
  rewrite Hmem. rewrite delete_insert_id by apply fresh_block_None.
  done.
Qed.

Lemma callObjectMethod_inv h m w j w1 :
  JNI_callObjectMethod h m w = Done j w1 →
  let w0 := with_event (EvCallObjectMethod h m) w in
  (∃ id, j = fresh_ref (jrefs w) ∧ jheap w1 !! id ≠ None ∧
         jrefs w1 = <[j := id]> (jrefs w) ∧ mem w1 = mem w ∧
         jpending w1 = jpending w) ∨
  (j = 0 ∧ w1 = w0) ∨
  (j = 0 ∧ w1 = with_jpending true w0).
Proof.
  unfold JNI_callObjectMethod. intros (u & w0 & H0 & H)%bind_inv.
  inversion H0; subst; clear H0.
  apply bind_inv in H as (o & w2 & H2 & H). apply deref_inv in H2 as E.
  subst w2. unfold deref in H2. simpl in H2.
  destruct (jrefs w !! h) as [id|] eqn:Hr; [|discriminate]. simpl in H2.
  destruct (jheap w !! id) as [o'|] eqn:Ho; [|discriminate].
  inversion H2; subst; clear H2.
  destruct o as [cs|[cs| |]]; simpl in H.
  - rewrite Hr in H. inversion H; subst. left. exists id. simpl.
    by rewrite Ho.
  - inversion H; subst. left. eexists. simpl.
    split; [done|]. by rewrite lookup_insert_eq.
  - inversion H; subst. right. by left.
  - inversion H; subst. right. by right.
Qed.

Lemma coerceObject_frame convert db fn_input self jstr w d w' :
  jpending w = false → mem w !! p_block NULL = None →
  _String_coerceObject convert db fn_input self jstr w = Done d w' →
  mem w' = mem w ∧ jrefs w' = jrefs w.
Proof.
  intros Hp Hnull. unfold _String_coerceObject.
  case_decide as Hj; [by intros [= _ <-]|].
  intros (j & w1 & H1 & H)%bind_inv.
  apply bind_inv in H as (exc & w2 & H2 & H). inversion H2; subst; clear H2.
  apply callObjectMethod_inv in H1
    as [(id & -> & _ & Hrefs & Hmem & Hpend)|[[-> ->]|[-> ->]]].
  - rewrite Hpend, Hp in H.
    apply bind_inv in H as (tmp & w3 & H3 & H).
    apply createNTS_result in H3
      as (b & bs & -> & _ & Hnew & Hmem3 & Hrefs3 & _);
      [|apply fresh_ref_nonzero].
    apply bind_inv in H as (u & w4 & H4 & H). inversion H4; subst; clear H4.
    apply bind_inv in H as (s & w5 & H5 & H). apply load_String_inv in H5 as ->.
    apply bind_inv in H as (res & w6 & H6 & H). apply input_inv in H6 as [-> _].
    apply bind_inv in H as (u' & w7 & H7 & H). inversion H; subst; clear H.
    apply pfree_inv in H7 as ->. simpl.
    rewrite Hmem3, Hrefs3, Hrefs, Hmem.
    rewrite delete_insert_id by (by rewrite <- Hmem).
    by rewrite delete_insert_id by apply fresh_ref_None.
  - simpl in H. rewrite Hp in H. exfalso.
    apply bind_inv in H as (tmp & w3 & H3 & H).
    unfold String_createNTS in H3. simpl in H3. inversion H3; subst; clear H3.
    apply bind_inv in H as (u & w4 & H4 & H). inversion H4; subst; clear H4.
    apply bind_inv in H as (s & w5 & H5 & H). apply load_String_inv in H5 as ->.
    apply bind_inv in H as (res & w6 & H6 & H). apply input_inv in H6 as [_ Hl].
    simpl in Hl, Hnull. rewrite Hnull in Hl. by destruct Hl.
  - simpl in H. by inversion H.
Qed.

(** X5. The three functions that make a managed string leave backend
    memory as they found it. Whenever _String_coerceDatum,
    String_createJavaStringFromNTS or String_createJavaString completes,
    either it returned the null handle and changed nothing at all, or
    memory is exactly as before (every buffer the call allocated has been
    released, and nothing else was) and the result is a non-null handle
    that was not in use, now referring to an object that did not exist
    before and that is a String. *)
Theorem into_managed_leaves_memory :
  ∀ convert db fn_output self arg cp t (w : World) (h : jstring) w',
    _String_coerceDatum convert db fn_output self arg w = Done h w' ∨
    String_createJavaStringFromNTS convert db cp w = Done h w' ∨
    String_createJavaString convert db t w = Done h w' →
    (h = 0 ∧ w' = w) ∨
    (mem w' = mem w ∧ h ≠ 0 ∧ jrefs w !! h = None ∧
     ∃ id cs, jrefs w' = <[h := id]> (jrefs w) ∧ jheap w !! id = None ∧
              jheap w' = <[id := JString cs]> (jheap w)).
Proof.
  intros convert db fo self arg cp t w h w' H.
  assert (Hframe :
    (h = 0 ∧ w' = w) ∨
    (mem w' = mem w ∧ h = fresh_ref (jrefs w) ∧
     jrefs w' = <[h := fresh_obj (jheap w)]> (jrefs w) ∧
     (∃ cs, jheap w' = <[fresh_obj (jheap w) := JString cs]> (jheap w)) ∧
     jpending w' = jpending w)).
  { destruct H as [H|[H|H]].
    - right. by eapply coerceDatum_frame.
    - destruct (decide (cp = NULL)) as [->|Hcp].
      + left. unfold String_createJavaStringFromNTS in H.
        rewrite decide_True in H by done. by inversion H.
      + right. by eapply createJavaStringFromNTS_frame.
    - by eapply createJavaString_frame. }
  destruct Hframe as [?|(Hm & -> & Hr & [cs Hh] & _)]; [by left|right].
  split; [done|]. split; [apply fresh_ref_nonzero|].
  split; [apply fresh_ref_None|].
  exists (fresh_obj (jheap w)), cs. split; [done|].
  split; [apply fresh_obj_None|done].
Qed.

Lemma into_managed_leaves_memory_witness :
  (1 = 0 ∧ string_world = demo_world) ∨
  (mem string_world = mem demo_world ∧ 1 ≠ 0 ∧ jrefs demo_world !! 1 = None ∧
   ∃ id cs, jrefs string_world = <[1 := id]> (jrefs demo_world) ∧
            jheap demo_world !! id = None ∧
            jheap string_world = <[id := JString cs]> (jheap demo_world)).
Proof.
  apply (into_managed_leaves_memory convert_none PG_UTF8
           (demo_output utf8_texts) demo_self 1 NULL NULL demo_world
           1 string_world).
  left. vm_compute. reflexivity.
Defined.

(** X6. A completed coerceObject leaves no trace in memory or in the
    reference table: entered without a pending exception (and with block
    0 not live), it returns with the converted buffer released and the
    local reference that toString gave deleted. *)
Theorem coerceObject_leaves_nothing :
  ∀ convert db fn_input self (jstr : jobject) (w : World) d w',
    jpending w = false → mem w !! p_block NULL = None →
    _String_coerceObject convert db fn_input self jstr w = Done d w' →
    mem w' = mem w ∧ jrefs w' = jrefs w.
Proof. intros. by eapply coerceObject_frame. Qed.

Lemma coerceObject_leaves_nothing_witness :
  mem (world_of (_String_coerceObject convert_none PG_UTF8
                   (demo_input utf8_texts) demo_self 1 string_world))
  = mem string_world ∧
  jrefs (world_of (_String_coerceObject convert_none PG_UTF8
                     (demo_input utf8_texts) demo_self 1 string_world))
  = jrefs string_world.
Proof.
  apply (coerceObject_leaves_nothing convert_none PG_UTF8
           (demo_input utf8_texts) demo_self 1 string_world 1).
  - reflexivity.
  - vm_compute. reflexivity.
  - vm_compute. reflexivity.
Defined.

(** ** Texts in memory *)

Lemma decode_encode_int32 (n : Z) :
  0 ≤ n < 4294967296 → decode_int32 (encode_int32 n) = Some n.
Proof.
  intros Hn. unfold decode_int32, encode_int32. f_equal.
  Z.div_mod_to_equations. lia.
Qed.

Lemma splice_header_data (hdr v : list Z) :
  length hdr = 4%nat →
  splice (splice (replicate (4 + length v) 0) 0 hdr) 4 v = hdr ++ v.
Proof.
  intros Hh. unfold splice. rewrite Hh.
  change (take 0 (replicate (4 + length v) 0)) with (@nil Z).
  change (0 + 4)%nat with 4%nat.
  change (drop 4 (replicate (4 + length v) 0)) with (replicate (length v) 0).
  rewrite app_nil_l.
  assert (H4 : 4%nat = length hdr) by done.
  rewrite H4 at 1. rewrite take_app_length.
  rewrite H4 at 1. rewrite drop_app_add, drop_replicate.
  replace (length v - length v)%nat with 0%nat by lia.
  simpl. by rewrite app_nil_r.
Qed.

Lemma length_splice (old new : list Z) (i : nat) :
  (i + length new ≤ length old)%nat →
  length (splice old i new) = length old.
Proof.
  intros H. unfold splice. rewrite !length_app, length_take, length_drop. lia.
Qed.

Lemma store_bytes_ok (w : World) b off o bs new :
  mem w !! b = Some (Raw o bs) →
  0 ≤ off → off + Z.of_nat (length new) ≤ Z.of_nat (length bs) →
  store_bytes (Ptr b off) new w
  = Done tt (with_mem <[b := Raw o (splice bs (Z.to_nat off) new)]> w).
Proof.
  intros Hm H0 H1. unfold store_bytes. simpl. rewrite Hm.
  by rewrite decide_True.
Qed.

Lemma VARSIZE_ok (w : World) b o n rest :
  mem w !! b = Some (Raw o (encode_int32 n ++ rest)) → 0 ≤ n < 4294967296 →
  VARSIZE (Ptr b 0) w = Done n w.
Proof.
  intros Hm Hn. unfold VARSIZE.
  eapply (bind_step _ _ _ (encode_int32 n)).
  { unfold load_bytes. erewrite bytes_at_start; [|exact Hm|reflexivity].
    rewrite decide_False by (rewrite length_app; simpl; unfold VARHDRSZ; lia).
    reflexivity. }
  by rewrite decode_encode_int32.
Qed.

Lemma load_bytes_data (w : World) b o hdr data rest :
  mem w !! b = Some (Raw o (hdr ++ data ++ rest)) → length hdr = 4%nat →
  load_bytes (Ptr b 4) (Z.of_nat (length data)) w = Done data w.
Proof.
  intros Hm Hh. unfold load_bytes, bytes_at. simpl. rewrite Hm. simpl.
  rewrite decide_True by (rewrite length_app; lia).
  change (Z.to_nat 4) with 4%nat.
  rewrite drop_app_length' by done.
  rewrite decide_False by (rewrite length_app; lia).
  rewrite Nat2Z.id. by rewrite take_app_length.
Qed.

(** The part of String_createText that builds the text from the converted
    bytes at [denc]. *)
Lemma text_build {A} (k : pointer → M A) (w : World) bd od v :
  mem w !! bd = Some (Raw od (v ++ [0])) → 0 ∉ v →
  ∃ w1,
    (dencLen <- strlen (Ptr bd 0) ;;
     result <- palloc (dencLen + VARHDRSZ) ;;
     VARATT_SIZEP_set result (dencLen + VARHDRSZ) ;;;
     memcpy (VARDATA result) (Ptr bd 0) dencLen ;;;
     k result) w
    = k (Ptr (fresh_block (mem w)) 0) w1 ∧
    mem w1 = <[fresh_block (mem w)
               := Raw PgContext
                    (encode_int32 (Z.of_nat (length v) + VARHDRSZ) ++ v)]>
               (mem w) ∧
    jrefs w1 = jrefs w ∧ jheap w1 = jheap w ∧ jpending w1 = jpending w ∧
    s_cache w1 = s_cache w ∧
    trace w1 = EvPalloc (Ptr (fresh_block (mem w)) 0) :: trace w.
Proof.
  intros Hm Hv.
  set (b := fresh_block (mem w)).
  set (n := Z.of_nat (length v) + VARHDRSZ).
  assert (Hbd : bd ≠ b) by (by eapply fresh_block_live).
  eexists. split.
  - eapply bind_step; [by eapply strlen_start|].
    eapply bind_step; [reflexivity|]. fold b. fold n.
    eapply bind_step.
    { unfold VARATT_SIZEP_set. eapply store_bytes_ok.
      - simpl. apply lookup_insert_eq.
      - lia.
      - rewrite length_replicate. simpl. unfold n, VARHDRSZ. lia. }
    eapply bind_step.
    { unfold memcpy. eapply bind_step.
      - eapply load_bytes_start. simpl.
        rewrite lookup_insert_ne by done. rewrite lookup_insert_ne by done.
        exact Hm.
      - unfold VARDATA, ptr_add. simpl. eapply store_bytes_ok.
        + simpl. apply lookup_insert_eq.
        + unfold VARHDRSZ. lia.
        + rewrite length_splice; rewrite length_replicate;
            unfold n, VARHDRSZ; cbn [length encode_int32]; lia. }
    reflexivity.
  - simpl. fold b. rewrite !insert_insert_eq.
    split; [|done]. do 2 f_equal.
    unfold n, VARHDRSZ.
    replace (Z.to_nat (Z.of_nat (length v) + 4)) with (4 + length v)%nat by lia.
    change (Z.to_nat 0) with 0%nat. change (Z.to_nat (0 + 4)) with 4%nat.
    by apply splice_header_data.
Qed.

Lemma createText_spec convert db (w : World) h u v :
  is_managed_string w h u → 0 ∉ u →
  transcode convert PG_UTF8 db u = Some v → 0 ∉ v →
  ∃ b w', String_createText convert db h w = Done (Ptr b 0) w' ∧
          b ≠ 0 ∧ mem w !! b = None ∧
          mem w' = <[b := Raw PgContext
                            (encode_int32 (Z.of_nat (length v) + VARHDRSZ) ++ v)]>
                     (mem w) ∧
          jrefs w' = jrefs w ∧ jheap w' = jheap w ∧ jpending w' = jpending w.
Proof.
  intros [Hh (id & Hr & Ho)] Hu Ht Hv.
  unfold String_createText. rewrite decide_False by done.
  set (b0 := fresh_block (mem w)).
  set (c0 := Raw JvmChars (u ++ [0])).
  set (m0 := <[b0 := c0]> (mem w)).
  assert (Hb0 : m0 !! b0 = Some c0) by apply lookup_insert_eq.
  unfold transcode in Ht.
  destruct (convert PG_UTF8 db u) as [|out|] eqn:Hc; simplify_eq.
  - (* the conversion returns the JVM's buffer *)
    set (w2 := with_event (EvConvert (Ptr b0 0) (Z.of_nat (length v)) PG_UTF8 db
                             (Ptr b0 0))
                 (with_event (EvGetStringUTFChars h (Ptr b0 0))
                    (with_mem <[b0 := c0]> w))).
    destruct (text_build
                (fun result =>
                   (if decide (Ptr b0 0 = Ptr b0 0) then ret tt
                    else pfree (Ptr b0 0)) ;;;
                   JNI_releaseStringUTFChars h (Ptr b0 0) ;;; ret result)
                w2 b0 JvmChars v Hb0 Hv)
      as (w3 & Hrun & Hmem & Hrefs & Hheap & Hpend & _ & _).
    unfold w2 in Hmem; cbn [mem with_event with_mem] in Hmem. fold m0 in Hmem.
    exists (fresh_block m0). eexists. split; [|split; [apply fresh_block_nonzero|]].
    + eapply bind_step; [eapply JNI_getStringUTFChars_ok; [exact Hr|exact Ho]|].
      eapply bind_step; [by eapply strlen_start|].
      eapply bind_step; [reflexivity|].
      eapply bind_step;
        [eapply conversion_unchanged; [by eapply load_bytes_start|done]|].
      fold b0 c0 w2. etransitivity; [exact Hrun|].
      rewrite decide_True by done.
      eapply bind_step; [reflexivity|].
      eapply bind_step.
      { eapply JNI_releaseStringUTFChars_ok. rewrite Hmem.
        rewrite lookup_insert_ne
          by (apply not_eq_sym; by eapply fresh_block_live).
        exact Hb0. }
      reflexivity.
    + simpl. rewrite Hmem, Hrefs, Hheap, Hpend. simpl.
      split; [apply fresh_twice_None|]. split; [|done]. apply swap_out.
  - (* the conversion returns a new buffer *)
    set (b1 := fresh_block m0).
    set (c1 := Raw PgContext (v ++ [0])).
    set (m1 := <[b1 := c1]> m0).
    assert (Hb1 : m1 !! b1 = Some c1) by apply lookup_insert_eq.
    assert (H01 : b0 ≠ b1) by (by eapply fresh_block_live).
    assert (Hb0' : m1 !! b0 = Some c0) by (unfold m1; by rewrite lookup_insert_ne).
    set (w2 := with_event (EvConvert (Ptr b0 0) (Z.of_nat (length u)) PG_UTF8 db
                             (Ptr b1 0))
                 (with_mem <[b1 := c1]>
                    (with_event (EvGetStringUTFChars h (Ptr b0 0))
                       (with_mem <[b0 := c0]> w)))).
    destruct (text_build
                (fun result =>
                   (if decide (Ptr b1 0 = Ptr b0 0) then ret tt
                    else pfree (Ptr b1 0)) ;;;
                   JNI_releaseStringUTFChars h (Ptr b0 0) ;;; ret result)
                w2 b1 PgContext v Hb1 Hv)
      as (w3 & Hrun & Hmem & Hrefs & Hheap & Hpend & _ & _).
    unfold w2 in Hmem; cbn [mem with_event with_mem] in Hmem. fold m0 m1 in Hmem.
    set (b2 := fresh_block m1) in *.
    assert (H12 : b1 ≠ b2) by (by eapply fresh_block_live).
    assert (H02 : b0 ≠ b2) by (by eapply fresh_block_live).
    exists b2. eexists. split; [|split; [apply fresh_block_nonzero|]].
    + eapply bind_step; [eapply JNI_getStringUTFChars_ok; [exact Hr|exact Ho]|].
      eapply bind_step; [by eapply strlen_start|].
      eapply bind_step; [reflexivity|].
      eapply bind_step;
        [eapply conversion_converted; [by eapply load_bytes_start|done]|].
      fold b0 c0 m0 b1 c1 w2. etransitivity; [exact Hrun|].
      rewrite decide_False by (intros [=]; done).
      eapply bind_step.
      { eapply pfree_ok. rewrite Hmem. rewrite lookup_insert_ne by done. exact Hb1. }
      eapply bind_step.
      { eapply JNI_releaseStringUTFChars_ok. simpl. rewrite Hmem.
        rewrite lookup_delete_ne by done.
        rewrite lookup_insert_ne by done. exact Hb0'. }
      reflexivity.
    + simpl. rewrite Hmem, Hrefs, Hheap, Hpend. simpl.
      assert (Hn1 : m0 !! b1 = None) by apply fresh_block_None.
      assert (Hn0 : mem w !! b0 = None) by apply fresh_block_None.
      assert (Hn2 : m1 !! b2 = None) by apply fresh_block_None.
      split; [|split; [|done]].
      * unfold m1, m0 in Hn2.
        rewrite lookup_insert_ne in Hn2 by done.
        by rewrite lookup_insert_ne in Hn2 by done.
      * unfold m1. rewrite (delete_insert_ne _ b1 b2) by done.
        rewrite delete_insert_id by done.
        unfold m0. rewrite (delete_insert_ne _ b0 b2) by done.
        by rewrite delete_insert_id by done.
Qed.

Lemma appendJavaString_spec convert db (w : World) buf data h u v :
  mem w !! buf = Some (Info data) →
  is_managed_string w h u → 0 ∉ u →
  transcode convert PG_UTF8 db u = Some v → 0 ∉ v →
  ∃ w', String_appendJavaString convert db (Ptr buf 0) h w = Done tt w' ∧
        mem w' = <[buf := Info (data ++ v)]> (mem w) ∧
        jrefs w' = jrefs w ∧ jheap w' = jheap w ∧ jpending w' = jpending w.
Proof.
  intros Hbuf [Hh (id & Hr & Ho)] Hu Ht Hv.
  unfold String_appendJavaString. rewrite decide_False by done.
  set (b0 := fresh_block (mem w)).
  set (c0 := Raw JvmChars (u ++ [0])).
  set (m0 := <[b0 := c0]> (mem w)).
  assert (Hb0 : m0 !! b0 = Some c0) by apply lookup_insert_eq.
  assert (Hbb : buf ≠ b0) by (by eapply fresh_block_live).
  assert (Hbuf0 : m0 !! buf = Some (Info data))
    by (unfold m0; by rewrite lookup_insert_ne).
  unfold transcode in Ht.
  destruct (convert PG_UTF8 db u) as [|out|] eqn:Hc; simplify_eq.
  - eexists. split.
    + eapply bind_step; [eapply JNI_getStringUTFChars_ok; [exact Hr|exact Ho]|].
      eapply bind_step; [by eapply strlen_start|].
      eapply bind_step; [reflexivity|].
      eapply bind_step;
        [eapply conversion_unchanged; [by eapply load_bytes_start|done]|].
      eapply bind_step.
      { unfold appendStringInfoString. eapply bind_step.
        - by eapply load_cstring_start.
        - simpl. fold b0 c0 m0. rewrite Hbuf0. reflexivity. }
      rewrite decide_True by done.
      eapply bind_step; [reflexivity|].
      eapply JNI_releaseStringUTFChars_ok. simpl. fold b0 c0 m0.
      rewrite lookup_insert_ne by done. exact Hb0.
    + simpl. fold b0 c0 m0. split; [|done].
      rewrite delete_insert_ne by done. unfold m0.
      by rewrite delete_insert_id by apply fresh_block_None.
  - set (b1 := fresh_block m0).
    set (c1 := Raw PgContext (v ++ [0])).
    set (m1 := <[b1 := c1]> m0).
    assert (H01 : b0 ≠ b1) by (by eapply fresh_block_live).
    assert (Hb1 : buf ≠ b1) by (by eapply fresh_block_live).
    eexists. split.
    + eapply bind_step; [eapply JNI_getStringUTFChars_ok; [exact Hr|exact Ho]|].
      eapply bind_step; [by eapply strlen_start|].
      eapply bind_step; [reflexivity|].
      eapply bind_step;
        [eapply conversion_converted; [by eapply load_bytes_start|done]|].
      eapply bind_step.
      { unfold appendStringInfoString. eapply bind_step.
        - eapply load_cstring_start; [|done]. simpl. apply lookup_insert_eq.
        - simpl. fold b0 c0 m0 b1 c1 m1.
          unfold m1. rewrite lookup_insert_ne by done. rewrite Hbuf0.
          reflexivity. }
      rewrite decide_False by (intros [=]; done).
      eapply bind_step.
      { eapply pfree_ok. simpl. fold b0 c0 m0 b1 c1.
        rewrite lookup_insert_ne by done. apply lookup_insert_eq. }
      eapply JNI_releaseStringUTFChars_ok. simpl. fold b0 c0 m0 b1 c1.
      rewrite lookup_delete_ne by done. rewrite lookup_insert_ne by done.
      rewrite lookup_insert_ne by done. exact Hb0.
    + simpl. fold b0 c0 m0 b1 c1. split; [|done].
      rewrite (delete_insert_ne _ b1 buf) by done.
      rewrite delete_insert_id by apply fresh_block_None.
      rewrite (delete_insert_ne _ b0 buf) by done. unfold m0.
      by rewrite delete_insert_id by apply fresh_block_None.
Qed.

Lemma load_cstring_at (w : World) b o hdr bs cs :
  mem w !! b = Some (Raw o (hdr ++ bs)) → length hdr = 4%nat →
  cstr bs = Some cs → load_cstring (Ptr b 4) w = Done cs w.
Proof.
  intros Hm Hh Hcs. unfold load_cstring, bytes_at. simpl. rewrite Hm. simpl.
  rewrite decide_True by (rewrite length_app; lia).
  change (Z.to_nat 4) with 4%nat. rewrite drop_app_length' by done.
  simpl. by rewrite Hcs.
Qed.

Lemma load_cstring_at_none (w : World) b o hdr bs :
  mem w !! b = Some (Raw o (hdr ++ bs)) → length hdr = 4%nat →
  cstr bs = None → load_cstring (Ptr b 4) w = Fail MemoryFault w.
Proof.
  intros Hm Hh Hcs. unfold load_cstring, bytes_at. simpl. rewrite Hm. simpl.
  rewrite decide_True by (rewrite length_app; lia).
  change (Z.to_nat 4) with 4%nat. rewrite drop_app_length' by done.
  simpl. by rewrite Hcs.
Qed.

Section Text_shape.

Variable convert : encoding → encoding → list Z → conversion.
Variable db : encoding.

(** The head of String_createJavaString on a text of [data]. *)
Lemma createJavaString_head (w : World) b o data rest :
  b ≠ 0 →
  mem w !! b
  = Some (Raw o (encode_int32 (Z.of_nat (length data) + VARHDRSZ)
                 ++ data ++ rest)) →
  data ≠ [] → Z.of_nat (length data) + VARHDRSZ < 1073741824 →
  String_createJavaString convert db (Ptr b 0) w
  = (utf8 <- pg_do_encoding_conversion convert (Ptr b 4)
               (Z.of_nat (length data)) db PG_UTF8 ;;
     result <- JNI_newStringUTF utf8 ;;
     (if decide (utf8 = Ptr b 4) then ret tt else pfree utf8) ;;;
     ret result) w.
Proof.
  intros Hb Hm Hd Hn. unfold String_createJavaString.
  rewrite decide_False by (intros [=]; done).
  eapply bind_step; [eapply VARSIZE_ok; [exact Hm|unfold VARHDRSZ in *; lia]|].
  rewrite decide_False by (destruct data; [done|simpl; lia]).
  eapply bind_step; [reflexivity|].
  replace (Z.of_nat (length data) + VARHDRSZ - VARHDRSZ)
    with (Z.of_nat (length data)) by lia.
  reflexivity.
Qed.

Lemma createJavaString_converted (w : World) b o data rest out :
  b ≠ 0 →
  mem w !! b
  = Some (Raw o (encode_int32 (Z.of_nat (length data) + VARHDRSZ)
                 ++ data ++ rest)) →
  data ≠ [] → Z.of_nat (length data) + VARHDRSZ < 1073741824 →
  convert db PG_UTF8 data = Converted out → 0 ∉ out →
  ∃ h w', String_createJavaString convert db (Ptr b 0) w = Done h w' ∧
          is_managed_string w' h out ∧ mem w' = mem w.
Proof.
  intros Hb Hm Hd Hn Hc Hout. rewrite (createJavaString_head w b o data rest) by done.
  eexists _, _. split.
  - eapply bind_step;
      [eapply conversion_converted; [by eapply load_bytes_data|exact Hc]|].
    eapply bind_step;
      [eapply JNI_newStringUTF_ok, load_cstring_start;
         [apply lookup_insert_eq|done]|].
    rewrite decide_False by (apply live_not_fresh; simpl; by rewrite Hm).
    eapply bind_step; [eapply pfree_ok; apply lookup_insert_eq|].
    reflexivity.
  - split.
    + split; [apply fresh_ref_nonzero|]. eexists. simpl.
      split; apply lookup_insert_eq.
    + simpl. by rewrite delete_insert_id by apply fresh_block_None.
Qed.

Lemma createJavaString_unchanged (w : World) b o data rest cs :
  b ≠ 0 →
  mem w !! b
  = Some (Raw o (encode_int32 (Z.of_nat (length data) + VARHDRSZ)
                 ++ data ++ rest)) →
  data ≠ [] → Z.of_nat (length data) + VARHDRSZ < 1073741824 →
  convert db PG_UTF8 data = Unchanged → cstr (data ++ rest) = Some cs →
  ∃ h w', String_createJavaString convert db (Ptr b 0) w = Done h w' ∧
          is_managed_string w' h cs ∧ mem w' = mem w.
Proof.
  intros Hb Hm Hd Hn Hc Hcs. rewrite (createJavaString_head w b o data rest) by done.
  eexists _, _. split.
  - eapply bind_step;
      [eapply conversion_unchanged; [by eapply load_bytes_data|exact Hc]|].
    eapply bind_step;
      [eapply JNI_newStringUTF_ok, load_cstring_at; [exact Hm|done|exact Hcs]|].
    rewrite decide_True by done. reflexivity.
  - split; [|done].
    split; [apply fresh_ref_nonzero|]. eexists. simpl.
    split; apply lookup_insert_eq.
Qed.

Lemma createJavaString_overrun (w : World) b o data rest :
  b ≠ 0 →
  mem w !! b
  = Some (Raw o (encode_int32 (Z.of_nat (length data) + VARHDRSZ)
                 ++ data ++ rest)) →
  data ≠ [] → Z.of_nat (length data) + VARHDRSZ < 1073741824 →
  convert db PG_UTF8 data = Unchanged → cstr (data ++ rest) = None →
  String_createJavaString convert db (Ptr b 0) w
  = Fail MemoryFault
      (with_event (EvConvert (Ptr b 4) (Z.of_nat (length data)) db PG_UTF8
                     (Ptr b 4)) w).
Proof.
  intros Hb Hm Hd Hn Hc Hcs. rewrite (createJavaString_head w b o data rest) by done.
  eapply bind_step;
    [eapply conversion_unchanged; [by eapply load_bytes_data|exact Hc]|].
  unfold JNI_newStringUTF. unfold bind at 1. unfold bind at 1.
  by erewrite load_cstring_at_none.
Qed.

End Text_shape.

(** ** Texts and buffers: what the helpers build *)

Lemma cstr_no_zero (bs : list Z) : 0 ∉ bs → cstr bs = None.
Proof.
  induction bs as [|b bs IH]; intros H; [done|]. simpl.
  apply not_elem_of_cons in H as [Hb Hbs].
  rewrite decide_False by done. by rewrite IH.
Qed.

(** X7. String_createText builds a text and nothing else. For a managed
    string whose bytes convert to [v], the result is the start of a new
    backend block holding the four-byte length word for
    [length v + VARHDRSZ] followed by the bytes of [v], with no
    terminator; that block is the only change to memory (the JVM's buffer
    and the conversion's buffer are gone), and the reference table is
    untouched.  VARSIZE and VARDATA read the length and the bytes back.
    The size [length v + VARHDRSZ] is below 2^30: what palloc accepts,
    what the C ints hold without wrapping, and what leaves the two flag
    bits of the length word clear. *)
Theorem createText_builds_text :
  ∀ convert db (js : jstring) (w : World) (u v : list Z),
    is_managed_string w js u → 0 ∉ u →
    transcode convert PG_UTF8 db u = Some v → 0 ∉ v →
    Z.of_nat (length v) + VARHDRSZ < 1073741824 →
    ∃ t w',
      String_createText convert db js w = Done t w' ∧
      t ≠ NULL ∧ p_off t = 0 ∧ mem w !! p_block t = None ∧
      mem w' = <[p_block t
                 := Raw PgContext
                      (encode_int32 (Z.of_nat (length v) + VARHDRSZ) ++ v)]>
                 (mem w) ∧
      VARSIZE t w' = Done (Z.of_nat (length v) + VARHDRSZ) w' ∧
      load_bytes (VARDATA t) (Z.of_nat (length v)) w' = Done v w' ∧
      jrefs w' = jrefs w ∧ jheap w' = jheap w.
Proof.
  intros convert db js w u v Hs Hu Ht Hv Hn.
  destruct (createText_spec convert db w js u v Hs Hu Ht Hv)
    as (b & w' & Hrun & Hb & Hnew & Hmem & Hrefs & Hheap & _).
  assert (Hl : mem w' !! b
               = Some (Raw PgContext
                         (encode_int32 (Z.of_nat (length v) + VARHDRSZ)
                          ++ v ++ [])))
    by (rewrite app_nil_r, Hmem; apply lookup_insert_eq).
  exists (Ptr b 0), w'. split; [done|]. split; [intros [=]; done|].
  split; [done|]. split; [done|]. split; [done|].
  split; [eapply VARSIZE_ok; [exact Hl|unfold VARHDRSZ in *; lia]|].
  split; [by eapply load_bytes_data|done].
Qed.

Lemma createText_builds_text_witness :
  ∃ t w',
    String_createText convert_latin1 PG_LATIN1 1 acute_world = Done t w' ∧
    t ≠ NULL ∧ p_off t = 0 ∧ mem acute_world !! p_block t = None ∧
    mem w' = <[p_block t
               := Raw PgContext
                    (encode_int32 (Z.of_nat (length hello_acute_latin1)
                                   + VARHDRSZ) ++ hello_acute_latin1)]>
               (mem acute_world) ∧
    VARSIZE t w'
    = Done (Z.of_nat (length hello_acute_latin1) + VARHDRSZ) w' ∧
    load_bytes (VARDATA t) (Z.of_nat (length hello_acute_latin1)) w'
    = Done hello_acute_latin1 w' ∧
    jrefs w' = jrefs acute_world ∧ jheap w' = jheap acute_world.
Proof.
  apply (createText_builds_text convert_latin1 PG_LATIN1 1 acute_world
           hello_acute_utf8 hello_acute_latin1).
  - split; [lia|]. exists 1. split; vm_compute; reflexivity.
  - no_zero.
  - vm_compute. reflexivity.
  - no_zero.
  - vm_compute. reflexivity.
Defined.

(** X8. Text round trip where the encodings differ. When the conversion
    into the database encoding yields the non-empty [v], of a size
    [length v + VARHDRSZ] below 2^30, and the conversion back turns [v]
    into a new buffer holding [u], String_createText followed by
    String_createJavaString gives a managed string with the bytes [u] of
    the original, and memory holds nothing but the text. *)
Theorem text_round_trip :
  ∀ convert db (js : jstring) (w : World) (u v : list Z),
    is_managed_string w js u → 0 ∉ u →
    transcode convert PG_UTF8 db u = Some v → 0 ∉ v → v ≠ [] →
    Z.of_nat (length v) + VARHDRSZ < 1073741824 →
    convert db PG_UTF8 v = Converted u →
    ∃ t w1 h w2,
      String_createText convert db js w = Done t w1 ∧
      String_createJavaString convert db t w1 = Done h w2 ∧
      is_managed_string w2 h u ∧ mem w2 = mem w1.
Proof.
  intros convert db js w u v Hs Hu Ht Hv Hne Hn Hback.
  destruct (createText_spec convert db w js u v Hs Hu Ht Hv)
    as (b & w1 & Hrun & Hb & Hnew & Hmem & _).
  assert (Hl : mem w1 !! b
               = Some (Raw PgContext
                         (encode_int32 (Z.of_nat (length v) + VARHDRSZ)
                          ++ v ++ [])))
    by (rewrite app_nil_r, Hmem; apply lookup_insert_eq).
  destruct (createJavaString_converted convert db w1 b PgContext v [] u)
    as (h & w2 & Hrun2 & Hstr & Hmem2); [done..|].
  by exists (Ptr b 0), w1, h, w2.
Qed.

Lemma text_round_trip_witness :
  ∃ t w1 h w2,
    String_createText convert_latin1 PG_LATIN1 1 acute_world = Done t w1 ∧
    String_createJavaString convert_latin1 PG_LATIN1 t w1 = Done h w2 ∧
    is_managed_string w2 h hello_acute_utf8 ∧ mem w2 = mem w1.
Proof.
  apply (text_round_trip convert_latin1 PG_LATIN1 1 acute_world
           hello_acute_utf8 hello_acute_latin1).
  - split; [lia|]. exists 1. split; vm_compute; reflexivity.
  - no_zero.
  - vm_compute. reflexivity.
  - no_zero.
  - discriminate.
  - vm_compute. reflexivity.
  - vm_compute. reflexivity.
Defined.

(** X9. String_createJavaString reads to the first zero byte, not to the
    text's length, when no conversion is required. The conversion
    primitive then returns VARDATA(t), which NewStringUTF reads as a C
    string: the managed string holds the bytes from the start of the data
    up to the first zero byte of the block, whatever the length word says;
    and when the block has no zero byte after the data (as in a text made
    by String_createText), the read runs off the block and the call
    faults.  The text's size is below 2^30, so that VARSIZE is the length
    word as it stands. *)
Theorem createJavaString_reads_to_terminator :
  ∀ convert db (b : Z) (w : World) o (data rest : list Z),
    b ≠ 0 →
    mem w !! b
    = Some (Raw o (encode_int32 (Z.of_nat (length data) + VARHDRSZ)
                   ++ data ++ rest)) →
    data ≠ [] → Z.of_nat (length data) + VARHDRSZ < 1073741824 →
    convert db PG_UTF8 data = Unchanged →
    (∀ cs, cstr (data ++ rest) = Some cs →
       ∃ h w', String_createJavaString convert db (Ptr b 0) w = Done h w' ∧
               is_managed_string w' h cs) ∧
    (0 ∉ data ++ rest →
       ∃ w', String_createJavaString convert db (Ptr b 0) w
             = Fail MemoryFault w').
Proof.
  intros convert db b w o data rest Hb Hm Hd Hn Hc. split.
  - intros cs Hcs.
    destruct (createJavaString_unchanged convert db w b o data rest cs)
      as (h & w' & Hrun & Hstr & _); [done..|].
    by exists h, w'.
  - intros Hz. eexists.
    by apply (createJavaString_overrun convert db w b o data rest);
      [..|apply cstr_no_zero].
Qed.

Lemma createJavaString_reads_to_terminator_witness :
  (∀ cs, cstr ([104; 101] ++ [108; 108; 111; 0]) = Some cs →
     ∃ h w', String_createJavaString convert_none PG_UTF8 (Ptr 3 0)
               short_text_world = Done h w' ∧
             is_managed_string w' h cs) ∧
  (0 ∉ [104; 101] ++ [108; 108; 111; 0] →
     ∃ w', String_createJavaString convert_none PG_UTF8 (Ptr 3 0)
             short_text_world = Fail MemoryFault w').
Proof.
  apply (createJavaString_reads_to_terminator convert_none PG_UTF8 3
           short_text_world PgContext [104; 101] [108; 108; 111; 0]).
  - lia.
  - vm_compute. reflexivity.
  - discriminate.
  - vm_compute. reflexivity.
  - reflexivity.
Defined.

(** The text of length two comes back as the five bytes of "hello". *)
Example short_text_comes_back_long :
  ∃ h w', String_createJavaString convert_none PG_UTF8 (Ptr 3 0)
            short_text_world = Done h w' ∧
          VARSIZE (Ptr 3 0) short_text_world = Done 6 short_text_world ∧
          is_managed_string w' h hello.
Proof.
  eexists _, _. split; [vm_compute; reflexivity|].
  split; [vm_compute; reflexivity|].
  split; [done|]. eexists. split; vm_compute; reflexivity.
Qed.

(** X10. The empty string does not survive the text round trip. An empty
    managed string (whose conversion is empty) becomes a text of length
    zero, and String_createJavaString returns the null handle for that
    text, not an empty string, without changing anything. *)
Theorem empty_string_comes_back_null :
  ∀ convert db (js : jstring) (w : World),
    is_managed_string w js [] →
    transcode convert PG_UTF8 db [] = Some [] →
    ∃ t w1,
      String_createText convert db js w = Done t w1 ∧ t ≠ NULL ∧
      VARSIZE t w1 = Done VARHDRSZ w1 ∧
      String_createJavaString convert db t w1 = Done 0 w1.
Proof.
  intros convert db js w Hs Ht.
  destruct (createText_spec convert db w js [] [] Hs) as
    (b & w1 & Hrun & Hb & Hnew & Hmem & _);
    [apply not_elem_of_nil|done|apply not_elem_of_nil|].
  assert (Hl : mem w1 !! b = Some (Raw PgContext (encode_int32 VARHDRSZ ++ [])))
    by (rewrite Hmem; apply lookup_insert_eq).
  assert (Hsize : VARSIZE (Ptr b 0) w1 = Done VARHDRSZ w1)
    by (eapply VARSIZE_ok; [exact Hl|unfold VARHDRSZ; lia]).
  exists (Ptr b 0), w1. split; [done|]. split; [intros [=]; done|].
  split; [done|]. apply createJavaString_empty; [intros [=]; done|done].
Qed.

Lemma empty_string_comes_back_null_witness :
  ∃ t w1,
    String_createText convert_none PG_UTF8 1 empty_string_world = Done t w1 ∧
    t ≠ NULL ∧ VARSIZE t w1 = Done VARHDRSZ w1 ∧
    String_createJavaString convert_none PG_UTF8 t w1 = Done 0 w1.
Proof.
  apply (empty_string_comes_back_null convert_none PG_UTF8 1 empty_string_world).
  - split; [lia|]. exists 1. split; vm_compute; reflexivity.
  - reflexivity.
Defined.

(** X11. String_appendJavaString appends the converted bytes. For a
    StringInfo buffer holding [data] and a managed string whose bytes
    convert to [v], the buffer afterwards holds [data ++ v]; nothing else
    in memory has changed, and the reference table is untouched. *)
Theorem appendJavaString_appends :
  ∀ convert db (buf : pointer) (js : jstring) (w : World)
    (data u v : list Z),
    mem w !! p_block buf = Some (Info data) → p_off buf = 0 →
    is_managed_string w js u → 0 ∉ u →
    transcode convert PG_UTF8 db u = Some v → 0 ∉ v →
    ∃ w', String_appendJavaString convert db buf js w = Done tt w' ∧
          mem w' = <[p_block buf := Info (data ++ v)]> (mem w) ∧
          jrefs w' = jrefs w ∧ jheap w' = jheap w.
Proof.
  intros convert db [b off] js w data u v Hm Hoff Hs Hu Ht Hv.
  simpl in Hm, Hoff. subst off.
  destruct (appendJavaString_spec convert db w b data js u v)
    as (w' & Hrun & Hmem & Hrefs & Hheap & _); [done..|].
  by exists w'.
Qed.

Lemma appendJavaString_appends_witness :
  ∃ w', String_appendJavaString convert_latin1 PG_LATIN1 (Ptr 3 0) 1
          (with_mem <[3 := Info hello]> acute_world) = Done tt w' ∧
        mem w' = <[3 := Info (hello ++ hello_acute_latin1)]>
                   (mem (with_mem <[3 := Info hello]> acute_world)) ∧
        jrefs w' = jrefs (with_mem <[3 := Info hello]> acute_world) ∧
        jheap w' = jheap (with_mem <[3 := Info hello]> acute_world).
Proof.
  apply (appendJavaString_appends convert_latin1 PG_LATIN1 (Ptr 3 0) 1
           (with_mem <[3 := Info hello]> acute_world)
           hello hello_acute_utf8 hello_acute_latin1).
  - vm_compute. reflexivity.
  - reflexivity.
  - split; [lia|]. exists 1. split; vm_compute; reflexivity.
  - no_zero.
  - vm_compute. reflexivity.
  - no_zero.
Defined.

(** ** Failures and the objects that are not strings *)

Lemma bind_fail {A B} (m : M A) (k : A → M B) w f w' :
  m w = Fail f w' → bind m k w = Fail f w'.
Proof. unfold bind. by intros ->. Qed.

Lemma conversion_malformed convert (w : World) src len from to bs :
  load_bytes src len w = Done bs w → convert from to bs = Malformed →
  pg_do_encoding_conversion convert src len from to w
  = Fail EncodingConversionFailure
      (with_event (EvConvertError src len from to) w).
Proof.
  intros Hl Hc. unfold pg_do_encoding_conversion.
  eapply bind_step; [exact Hl|]. by rewrite Hc.
Qed.

Lemma FunctionCall3_input_fails fn_input (w : World) fl p elem typmod cs :
  load_cstring p w = Done cs w →
  fn_input (fn_oid fl) cs elem typmod = None →
  FunctionCall3_input fn_input fl p elem typmod w
  = Fail ConversionRoutineFailure
      (with_event (EvInput (fn_oid fl) p elem typmod) w).
Proof.
  intros Hl Hf. unfold FunctionCall3_input.
  eapply bind_step; [reflexivity|].
  eapply bind_step.
  { unfold load_cstring in *. simpl. destruct (bytes_at p w ≫= cstr) eqn:E.
    - unfold bytes_at in *. simpl. rewrite E. inversion Hl; subst. reflexivity.
    - discriminate. }
  simpl. by rewrite Hf.
Qed.

Lemma JNI_callObjectMethod_renders (w : World) h id cs :
  jrefs w !! h = Some id → jheap w !! id = Some (JObject (Renders cs)) →
  JNI_callObjectMethod h s_Object_toString w
  = Done (fresh_ref (jrefs w))
      (with_jrefs <[fresh_ref (jrefs w) := fresh_obj (jheap w)]>
         (with_jheap <[fresh_obj (jheap w) := JString cs]>
            (with_event (EvCallObjectMethod h s_Object_toString) w))).
Proof.
  intros Hr Hh. unfold JNI_callObjectMethod.
  eapply bind_step; [reflexivity|].
  eapply bind_step; [by eapply deref_ok|]. reflexivity.
Qed.

Lemma JNI_callObjectMethod_null (w : World) h id :
  jrefs w !! h = Some id → jheap w !! id = Some (JObject ReturnsNull) →
  JNI_callObjectMethod h s_Object_toString w
  = Done 0 (with_event (EvCallObjectMethod h s_Object_toString) w).
Proof.
  intros Hr Hh. unfold JNI_callObjectMethod.
  eapply bind_step; [reflexivity|].
  eapply bind_step; [by eapply deref_ok|]. reflexivity.
Qed.

(** _String_coerceObject from the result of toString up to the call of
    the input routine. *)
Lemma coerceObject_upto_input convert db fn_input
    (w w1 : World) b s (h h1 : jobject) id u v :
  h ≠ 0 →
  JNI_callObjectMethod h s_Object_toString w = Done h1 w1 →
  mem w1 !! b = Some (Obj s) → h1 ≠ 0 →
  jrefs w1 !! h1 = Some id → jheap w1 !! id = Some (JString u) →
  jpending w1 = false →
  0 ∉ u → transcode convert PG_UTF8 db u = Some v → 0 ∉ v →
  ∃ b1 w2,
    b1 ≠ 0 ∧ b1 ≠ b ∧ mem w1 !! b1 = None ∧
    mem w2 = <[b1 := Raw PgContext (v ++ [0])]> (mem w1) ∧
    jrefs w2 = delete h1 (jrefs w1) ∧ jheap w2 = jheap w1 ∧
    jpending w2 = false ∧
    _String_coerceObject convert db fn_input (Ptr b 0) h w
    = (res <- FunctionCall3_input fn_input (textInput s) (Ptr b1 0)
                (elementType s) (-1) ;;
       pfree (Ptr b1 0) ;;; ret res) w2.
Proof.
  intros Hh Hcall Hm Hh1 Hr Ho Hp Hu Ht Hv.
  destruct (createNTS_spec convert db w1 h1 id u v)
    as (b1 & w2 & Hrun & Hb1 & Hfresh & Hmem & Hrefs & Hheap & Hpend);
    [done..|].
  assert (Hbb : b1 ≠ b) by (intros ->; congruence).
  exists b1, (with_event (EvDeleteLocalRef h1) (with_jrefs (delete h1) w2)).
  split; [done|]. split; [done|]. split; [done|]. split; [exact Hmem|].
  split; [simpl; by rewrite Hrefs|]. split; [exact Hheap|].
  split; [simpl; congruence|].
  unfold _String_coerceObject. rewrite decide_False by done.
  eapply bind_step; [exact Hcall|].
  eapply bind_step; [reflexivity|]. simpl. rewrite Hp.
  eapply bind_step; [exact Hrun|].
  eapply bind_step; [reflexivity|].
  eapply bind_step; [eapply load_String_ok; simpl; rewrite Hmem;
                     by rewrite lookup_insert_ne|].
  reflexivity.
Qed.

(** X12. A failing output routine. When the output routine stored in the
    instance fails on the value, _String_coerceDatum fails with that
    failure right after calling it: nothing has been allocated, converted
    or released, and no managed string exists. *)
Theorem coerceDatum_output_failure :
  ∀ convert db fn_output (self : pointer) (arg : Datum) (w : World) s,
    mem w !! p_block self = Some (Obj s) → p_off self = 0 →
    fn_output (fn_oid (textOutput s)) arg (elementType s) (-1) = None →
    ∃ w', _String_coerceDatum convert db fn_output self arg w
          = Fail ConversionRoutineFailure w' ∧
          trace w' = EvOutput (fn_oid (textOutput s)) arg (elementType s) (-1)
                     :: trace w ∧
          mem w' = mem w ∧ jrefs w' = jrefs w ∧ jheap w' = jheap w.
Proof.
  intros convert db fo [b off] arg w s Hm Hoff Hf. simpl in Hm, Hoff. subst off.
  eexists. split.
  - unfold _String_coerceDatum.
    eapply bind_step; [by eapply load_String_ok|].
    apply bind_fail. unfold FunctionCall3_output.
    eapply bind_step; [reflexivity|]. rewrite Hf. reflexivity.
  - done.
Qed.

Lemma coerceDatum_output_failure_witness :
  ∃ w', _String_coerceDatum convert_none PG_UTF8 (demo_output utf8_texts)
          demo_self 7 demo_world
        = Fail ConversionRoutineFailure w' ∧
        trace w' = EvOutput (fn_oid (textOutput demo_String)) 7
                     (elementType demo_String) (-1) :: trace demo_world ∧
        mem w' = mem demo_world ∧ jrefs w' = jrefs demo_world ∧
        jheap w' = jheap demo_world.
Proof.
  apply (coerceDatum_output_failure convert_none PG_UTF8
           (demo_output utf8_texts) demo_self 7 demo_world demo_String).
  - vm_compute. reflexivity.
  - reflexivity.
  - vm_compute. reflexivity.
Defined.

(** X13. A failing conversion in _String_coerceDatum. When the output
    routine renders the value as [cs] and the conversion of [cs] to the
    managed runtime's encoding fails, _String_coerceDatum fails with the
    conversion's failure before pfree(tmp) is reached: the rendered text is
    still allocated, and no managed string has been made. *)
Theorem coerceDatum_conversion_failure :
  ∀ convert db fn_output (self : pointer) (arg : Datum) (w : World) s cs,
    mem w !! p_block self = Some (Obj s) → p_off self = 0 →
    renders fn_output s arg cs → 0 ∉ cs →
    convert db PG_UTF8 cs = Malformed →
    ∃ b w', _String_coerceDatum convert db fn_output self arg w
            = Fail EncodingConversionFailure w' ∧
            b ≠ 0 ∧ mem w !! b = None ∧
            mem w' = <[b := Raw PgContext (cs ++ [0])]> (mem w) ∧
            jrefs w' = jrefs w ∧ jheap w' = jheap w.
Proof.
  intros convert db fo [b off] arg w s cs Hm Hoff Hf Hcs Hc.
  simpl in Hm, Hoff. subst off.
  exists (fresh_block (mem w)). eexists. split.
  - unfold _String_coerceDatum.
    eapply bind_step; [by eapply load_String_ok|].
    eapply bind_step; [by eapply FunctionCall3_output_ok|].
    apply bind_fail. unfold String_createJavaStringFromNTS.
    rewrite decide_False by (intros [=]; by eapply fresh_block_nonzero).
    eapply bind_step; [eapply strlen_start; [apply lookup_insert_eq|done]|].
    eapply bind_step; [reflexivity|].
    apply bind_fail. eapply conversion_malformed; [|exact Hc].
    eapply load_bytes_start; apply lookup_insert_eq.
  - split; [apply fresh_block_nonzero|]. split; [apply fresh_block_None|done].
Qed.

Lemma coerceDatum_conversion_failure_witness :
  ∃ b w', _String_coerceDatum convert_latin1 1 (demo_output utf8_texts)
            demo_self 1 demo_world
          = Fail EncodingConversionFailure w' ∧
          b ≠ 0 ∧ mem demo_world !! b = None ∧
          mem w' = <[b := Raw PgContext (hello ++ [0])]> (mem demo_world) ∧
          jrefs w' = jrefs demo_world ∧ jheap w' = jheap demo_world.
Proof.
  apply (coerceDatum_conversion_failure convert_latin1 1
           (demo_output utf8_texts) demo_self 1 demo_world demo_String hello).
  - vm_compute. reflexivity.
  - reflexivity.
  - vm_compute. reflexivity.
  - no_zero.
  - vm_compute. reflexivity.
Defined.

(** The common head of the three functions that read a managed string,
    run up to a conversion that fails. *)
Ltac fails_at_conversion Hr Ho Hu Hc :=
  eapply bind_step; [by eapply JNI_getStringUTFChars_ok|];
  eapply bind_step; [eapply strlen_start; [apply lookup_insert_eq|done]|];
  eapply bind_step; [reflexivity|];
  apply bind_fail; eapply conversion_malformed; [|exact Hc];
  eapply load_bytes_start; apply lookup_insert_eq.

(** X14. A failing conversion out of a managed string. When the conversion
    of the string's bytes to the database encoding fails,
    String_createNTS, String_createText and String_appendJavaString all
    fail with the conversion's failure in the same state:
    ReleaseStringUTFChars has not been reached, so the buffer that
    GetStringUTFChars gave is still held, and nothing else has changed. *)
Theorem conversion_failure_keeps_jvm_buffer :
  ∀ convert db (js : jstring) (w : World) (u : list Z),
    is_managed_string w js u → 0 ∉ u →
    convert PG_UTF8 db u = Malformed →
    ∃ b w',
      b ≠ 0 ∧ mem w !! b = None ∧
      mem w' = <[b := Raw JvmChars (u ++ [0])]> (mem w) ∧
      jrefs w' = jrefs w ∧ jheap w' = jheap w ∧
      String_createNTS convert db js w = Fail EncodingConversionFailure w' ∧
      String_createText convert db js w = Fail EncodingConversionFailure w' ∧
      ∀ buf, String_appendJavaString convert db buf js w
             = Fail EncodingConversionFailure w'.
Proof.
  intros convert db js w u (Hjs & id & Hr & Ho) Hu Hc.
  exists (fresh_block (mem w)). eexists.
  split; [apply fresh_block_nonzero|]. split; [apply fresh_block_None|].
  split; [|split; [|split; [|split; [|split]]]]; cycle 3.
  - unfold String_createNTS. rewrite decide_False by done.
    fails_at_conversion Hr Ho Hu Hc.
  - unfold String_createText. rewrite decide_False by done.
    fails_at_conversion Hr Ho Hu Hc.
  - intros buf. unfold String_appendJavaString.
    rewrite decide_False by done.
    fails_at_conversion Hr Ho Hu Hc.
  - done.
  - done.
  - done.
Qed.

Lemma conversion_failure_keeps_jvm_buffer_witness :
  ∃ b w',
    b ≠ 0 ∧ mem euro_world !! b = None ∧
    mem w' = <[b := Raw JvmChars ([226; 130; 172] ++ [0])]> (mem euro_world) ∧
    jrefs w' = jrefs euro_world ∧ jheap w' = jheap euro_world ∧
    String_createNTS convert_latin1 PG_LATIN1 1 euro_world
    = Fail EncodingConversionFailure w' ∧
    String_createText convert_latin1 PG_LATIN1 1 euro_world
    = Fail EncodingConversionFailure w' ∧
    ∀ buf, String_appendJavaString convert_latin1 PG_LATIN1 buf 1 euro_world
           = Fail EncodingConversionFailure w'.
Proof.
  apply (conversion_failure_keeps_jvm_buffer convert_latin1 PG_LATIN1 1
           euro_world [226; 130; 172]).
  - split; [lia|]. exists 1. split; vm_compute; reflexivity.
  - no_zero.
  - vm_compute. reflexivity.
Defined.

(** X15. A failing input routine. When the input routine stored in the
    instance rejects the converted text [v] of a managed string,
    _String_coerceObject fails with that failure before pfree(tmp) is
    reached: the converted copy is still allocated.  The local reference
    that toString gave has been deleted, and the JVM's buffer released. *)
Theorem coerceObject_input_failure :
  ∀ convert db fn_input (self : pointer) (jstr : jobject) (w : World)
    s (u v : list Z),
    mem w !! p_block self = Some (Obj s) → p_off self = 0 →
    is_managed_string w jstr u → jpending w = false →
    0 ∉ u → transcode convert PG_UTF8 db u = Some v → 0 ∉ v →
    fn_input (fn_oid (textInput s)) v (elementType s) (-1) = None →
    ∃ b w', _String_coerceObject convert db fn_input self jstr w
            = Fail ConversionRoutineFailure w' ∧
            b ≠ 0 ∧ mem w !! b = None ∧
            mem w' = <[b := Raw PgContext (v ++ [0])]> (mem w) ∧
            jrefs w' = jrefs w ∧ jheap w' = jheap w.
Proof.
  intros convert db fi [b off] jstr w s u v Hm Hoff (Hjs & id & Hr & Ho)
    Hp Hu Ht Hv Hf.
  simpl in Hm, Hoff. subst off.
  destruct (coerceObject_upto_input convert db fi w _ b s jstr _ id u v Hjs
              (JNI_callObjectMethod_string w jstr id u Hr Ho))
    as (b1 & w2 & Hb1 & Hbb & Hfresh & Hmem & Hrefs & Hheap & Hpend & Hrun);
    [done|apply fresh_ref_nonzero|apply lookup_insert_eq|done..|].
  simpl in Hfresh, Hmem, Hrefs, Hheap.
  exists b1. eexists. split.
  - rewrite Hrun. apply bind_fail.
    eapply FunctionCall3_input_fails; [|exact Hf].
    eapply load_cstring_start; [|done]. rewrite Hmem. apply lookup_insert_eq.
  - split; [done|]. split; [done|]. split; [done|]. simpl.
    rewrite Hrefs, Hheap.
    by rewrite delete_insert_id by apply fresh_ref_None.
Qed.

Lemma coerceObject_input_failure_witness :
  ∃ b w', _String_coerceObject convert_none PG_UTF8 (demo_input [])
            demo_self 1 string_world
          = Fail ConversionRoutineFailure w' ∧
          b ≠ 0 ∧ mem string_world !! b = None ∧
          mem w' = <[b := Raw PgContext (hello ++ [0])]> (mem string_world) ∧
          jrefs w' = jrefs string_world ∧ jheap w' = jheap string_world.
Proof.
  apply (coerceObject_input_failure convert_none PG_UTF8 (demo_input [])
           demo_self 1 string_world demo_String hello hello).
  - vm_compute. reflexivity.
  - reflexivity.
  - split; [lia|]. exists 0. split; vm_compute; reflexivity.
  - reflexivity.
  - no_zero.
  - reflexivity.
  - no_zero.
  - vm_compute. reflexivity.
Defined.

(** X16. _String_coerceObject on an object that is not a String. The
    object's toString gives the text [cs]; the result is the input
    routine's value for the conversion of [cs] to the database encoding.
    Afterwards memory and the reference table are as before (the converted
    copy is released, the local reference to the new string deleted); the
    string that toString made is the one new object. *)
Theorem coerceObject_stringifies :
  ∀ convert db fn_input (self : pointer) (obj : jobject) (w : World)
    s id (cs v : list Z) (d : Datum),
    mem w !! p_block self = Some (Obj s) → p_off self = 0 →
    obj ≠ 0 → jrefs w !! obj = Some id →
    jheap w !! id = Some (JObject (Renders cs)) → jpending w = false →
    0 ∉ cs → transcode convert PG_UTF8 db cs = Some v → 0 ∉ v →
    accepts fn_input s v d →
    ∃ w', _String_coerceObject convert db fn_input self obj w = Done d w' ∧
          mem w' = mem w ∧ jrefs w' = jrefs w ∧
          ∃ id', jheap w !! id' = None ∧
                 jheap w' = <[id' := JString cs]> (jheap w).
Proof.
  intros convert db fi [b off] obj w s id cs v d Hm Hoff Hobj Hr Ho
    Hp Hcs Ht Hv Hf.
  simpl in Hm, Hoff. subst off.
  destruct (coerceObject_upto_input convert db fi w _ b s obj _
              (fresh_obj (jheap w)) cs v Hobj
              (JNI_callObjectMethod_renders w obj id cs Hr Ho))
    as (b1 & w2 & Hb1 & Hbb & Hfresh & Hmem & Hrefs & Hheap & Hpend & Hrun);
    [done|apply fresh_ref_nonzero|apply lookup_insert_eq
    |apply lookup_insert_eq|done..|].
  simpl in Hfresh, Hmem, Hrefs, Hheap.
  eexists. split.
  - rewrite Hrun.
    eapply bind_step.
    { eapply FunctionCall3_input_ok; [|exact Hf].
      eapply load_cstring_start; [|done]. rewrite Hmem. apply lookup_insert_eq. }
    eapply bind_step; [eapply pfree_ok; simpl; rewrite Hmem;
                       apply lookup_insert_eq|].
    reflexivity.
  - simpl. rewrite Hmem, Hrefs, Hheap.
    rewrite delete_insert_id by done.
    rewrite delete_insert_id by apply fresh_ref_None.
    split; [done|]. split; [done|].
    exists (fresh_obj (jheap w)). split; [apply fresh_obj_None|done].
Qed.

Lemma coerceObject_stringifies_witness :
  ∃ w', _String_coerceObject convert_none PG_UTF8 (demo_input utf8_texts)
          demo_self 1 rendering_world = Done 1 w' ∧
        mem w' = mem rendering_world ∧ jrefs w' = jrefs rendering_world ∧
        ∃ id', jheap rendering_world !! id' = None ∧
               jheap w' = <[id' := JString hello]> (jheap rendering_world).
Proof.
  apply (coerceObject_stringifies convert_none PG_UTF8 (demo_input utf8_texts)
           demo_self 1 rendering_world demo_String 1 hello hello 1).
  - vm_compute. reflexivity.
  - reflexivity.
  - lia.
  - vm_compute. reflexivity.
  - vm_compute. reflexivity.
  - reflexivity.
  - no_zero.
  - reflexivity.
  - no_zero.
  - vm_compute. reflexivity.
Defined.

(** X17. A toString that returns null without raising. The exception check
    passes, String_createNTS turns the null handle into the null pointer,
    and that null pointer is what the input routine is called with: there
    is no test between toString and the input routine.  With nothing
    mapped at the null pointer, the call faults there. *)
Theorem coerceObject_null_toString :
  ∀ convert db fn_input (self : pointer) (obj : jobject) (w : World) s id,
    mem w !! p_block self = Some (Obj s) → p_off self = 0 →
    obj ≠ 0 → jrefs w !! obj = Some id →
    jheap w !! id = Some (JObject ReturnsNull) → jpending w = false →
    mem w !! p_block NULL = None →
    ∃ w', _String_coerceObject convert db fn_input self obj w
          = Fail MemoryFault w' ∧
          trace w' = EvInput (fn_oid (textInput s)) NULL (elementType s) (-1)
                     :: EvDeleteLocalRef 0
                     :: EvCallObjectMethod obj s_Object_toString
                     :: trace w.
Proof.
  intros convert db fi [b off] obj w s id Hm Hoff Hobj Hr Ho Hp Hnull.
  simpl in Hm, Hoff, Hnull. subst off.
  eexists. split.
  - unfold _String_coerceObject. rewrite decide_False by done.
    eapply bind_step; [by eapply JNI_callObjectMethod_null|].
    eapply bind_step; [reflexivity|]. simpl. rewrite Hp.
    eapply bind_step; [reflexivity|].
    eapply bind_step; [reflexivity|].
    eapply bind_step; [by eapply load_String_ok|].
    apply bind_fail. unfold FunctionCall3_input.
    eapply bind_step; [reflexivity|].
    apply bind_fail. unfold load_cstring, bytes_at. simpl.
    rewrite Hnull. reflexivity.
  - reflexivity.
Qed.

Lemma coerceObject_null_toString_witness :
  ∃ w', _String_coerceObject convert_none PG_UTF8 (demo_input utf8_texts)
          demo_self 1 null_rendering_world
        = Fail MemoryFault w' ∧
        trace w' = EvInput (fn_oid (textInput demo_String)) NULL
                     (elementType demo_String) (-1)
                   :: EvDeleteLocalRef 0
                   :: EvCallObjectMethod 1 s_Object_toString
                   :: trace null_rendering_world.
Proof.
  apply (coerceObject_null_toString convert_none PG_UTF8
           (demo_input utf8_texts) demo_self 1 null_rendering_world
           demo_String 1).
  - vm_compute. reflexivity.
  - reflexivity.
  - lia.
  - vm_compute. reflexivity.
  - vm_compute. reflexivity.
  - reflexivity.
  - vm_compute. reflexivity.
Defined.

(** ** Resolution and coercion together *)

(** X18. A type resolved through the catalog renders with the catalog's
    output routine. For an identifier not yet cached whose row is [row],
    String_obtain followed by _String_coerceDatum on the instance it
    returns calls the routine [typoutput row] with the element type
    [typelem row]: the result is a managed string holding the conversion
    of that routine's text, and the coercion leaves memory as the
    resolution left it. *)
Theorem obtained_type_renders :
  ∀ convert db fn_output pg_type (t : Oid) (w : World) row
    (arg : Datum) (cs u : list Z),
    s_cache w !! t = None → pg_type t = Some row →
    fn_output (typoutput row) arg (typelem row) (-1) = Some cs →
    0 ∉ cs → transcode convert db PG_UTF8 cs = Some u → 0 ∉ u →
    ∃ p w1 h w2,
      String_obtain pg_type t w = Done p w1 ∧
      _String_coerceDatum convert db fn_output p arg w1 = Done h w2 ∧
      is_managed_string w2 h u ∧ mem w2 = mem w1.
Proof.
  intros convert db fo pg_type t w row arg cs u Hc Hrow Hf Hcs Ht Hu.
  pose proof (StringClass_obtain_new pg_type (s_StringClass w) t row w Hc Hrow)
    as Hobt.
  set (w1 := with_cache _ _) in Hobt.
  destruct (coerceDatum_spec convert db fo w1 (fresh_block (mem w))
              (new_String (s_StringClass w) t row) arg cs u)
    as (w2 & Hrun & Hmem & Hrefs & Hheap & _);
    [apply lookup_insert_eq|done..|].
  exists (Ptr (fresh_block (mem w)) 0), w1, (fresh_ref (jrefs w1)), w2.
  split; [exact Hobt|]. split; [exact Hrun|]. split; [|done].
  split; [apply fresh_ref_nonzero|]. exists (fresh_obj (jheap w1)).
  rewrite Hrefs, Hheap. split; apply lookup_insert_eq.
Qed.

Lemma obtained_type_renders_witness :
  ∃ p w1 h w2,
    String_obtain demo_catalog TEXTOID init_world = Done p w1 ∧
    _String_coerceDatum convert_latin1 PG_LATIN1 (demo_output latin1_texts)
      p 2 w1 = Done h w2 ∧
    is_managed_string w2 h hello_acute_utf8 ∧ mem w2 = mem w1.
Proof.
  apply (obtained_type_renders convert_latin1 PG_LATIN1
           (demo_output latin1_texts) demo_catalog TEXTOID init_world
           {| typoutput := F_TEXTOUT; typinput := F_TEXTIN; typelem := 0 |}
           2 hello_acute_latin1 hello_acute_utf8).
  - vm_compute. reflexivity.
  - vm_compute. reflexivity.
  - vm_compute. reflexivity.
  - no_zero.
  - vm_compute. reflexivity.
  - no_zero.
Defined.

(** X19. A type resolved through the catalog reads with the catalog's input
    routine. For an identifier not yet cached whose row is [row],
    String_obtain followed by _String_coerceObject on the instance it
    returns gives the value that the routine [typinput row], called with
    the element type [typelem row], makes of the conversion of the
    string's bytes; the coercion leaves memory as the resolution left
    it. *)
Theorem obtained_type_reads :
  ∀ convert db fn_input pg_type (t : Oid) (w : World) row
    (js : jobject) (u v : list Z) (d : Datum),
    s_cache w !! t = None → pg_type t = Some row →
    is_managed_string w js u → jpending w = false →
    0 ∉ u → transcode convert PG_UTF8 db u = Some v → 0 ∉ v →
    fn_input (typinput row) v (typelem row) (-1) = Some d →
    ∃ p w1 w2,
      String_obtain pg_type t w = Done p w1 ∧
      _String_coerceObject convert db fn_input p js w1 = Done d w2 ∧
      mem w2 = mem w1 ∧ jrefs w2 = jrefs w.
Proof.
  intros convert db fi pg_type t w row js u v d Hc Hrow (Hjs & id & Hr & Ho)
    Hp Hu Ht Hv Hf.
  pose proof (StringClass_obtain_new pg_type (s_StringClass w) t row w Hc Hrow)
    as Hobt.
  set (w1 := with_cache _ _) in Hobt.
  destruct (coerceObject_spec convert db fi w1 (fresh_block (mem w))
              (new_String (s_StringClass w) t row) js id u v d)
    as (w2 & Hrun & Hmem & Hrefs & _);
    [apply lookup_insert_eq|done..|].
  by exists (Ptr (fresh_block (mem w)) 0), w1, w2.
Qed.

Lemma obtained_type_reads_witness :
  ∃ p w1 w2,
    String_obtain demo_catalog TEXTOID init_string_world = Done p w1 ∧
    _String_coerceObject convert_none PG_UTF8 (demo_input utf8_texts)
      p 1 w1 = Done 1 w2 ∧
    mem w2 = mem w1 ∧ jrefs w2 = jrefs init_string_world.
Proof.
  apply (obtained_type_reads convert_none PG_UTF8 (demo_input utf8_texts)
           demo_catalog TEXTOID init_string_world
           {| typoutput := F_TEXTOUT; typinput := F_TEXTIN; typelem := 0 |}
           1 hello hello 1).
  - vm_compute. reflexivity.
  - vm_compute. reflexivity.
  - split; [lia|]. exists 1. split; vm_compute; reflexivity.
  - reflexivity.
  - no_zero.
  - reflexivity.
  - no_zero.
  - vm_compute. reflexivity.
Defined.

(** ** The C string round trip *)

(** X20. The C string round trip. For a managed string with the bytes [u]
    whose conversion [v] to the database encoding converts back to [u],
    String_createNTS followed by String_createJavaStringFromNTS gives a
    managed string with the bytes [u] under a handle other than the
    original's; the second call leaves memory as the first left it, the
    copy that String_createNTS made being the caller's to release. *)
Theorem nts_round_trip :
  ∀ convert db (js : jstring) (w : World) (u v : list Z),
    is_managed_string w js u → 0 ∉ u → 0 ∉ v →
    conversions_inverse_on convert db v u →
    ∃ p w1 h w2,
      String_createNTS convert db js w = Done p w1 ∧
      String_createJavaStringFromNTS convert db p w1 = Done h w2 ∧
      is_managed_string w2 h u ∧ h ≠ js ∧
      mem w2 = mem w1 ∧ mem w1 !! p_block p = Some (Raw PgContext (v ++ [0])).
Proof.
  intros convert db js w u v (Hjs & id & Hr & Ho) Hu Hv [Hback Hforth].
  destruct (createNTS_spec convert db w js id u v)
    as (b & w1 & Hrun & Hb & Hfresh & Hmem & Hrefs & Hheap & _); [done..|].
  assert (Hl : mem w1 !! b = Some (Raw PgContext (v ++ [0])))
    by (rewrite Hmem; apply lookup_insert_eq).
  destruct (createJavaStringFromNTS_spec convert db w1 b PgContext v u)
    as (w2 & Hrun2 & Hmem2 & Hrefs2 & Hheap2 & _); [done..|].
  exists (Ptr b 0), w1, (fresh_ref (jrefs w1)), w2.
  split; [done|]. split; [done|].
  split; [|split; [|by split]].
  - split; [apply fresh_ref_nonzero|]. exists (fresh_obj (jheap w1)).
    rewrite Hrefs2, Hheap2. split; apply lookup_insert_eq.
  - intros E. pose proof (fresh_ref_None (jrefs w1)) as Hn.
    rewrite E, Hrefs in Hn. unfold jstring, jobject in *. congruence.
Qed.

Lemma nts_round_trip_witness :
  ∃ p w1 h w2,
    String_createNTS convert_latin1 PG_LATIN1 1 acute_world = Done p w1 ∧
    String_createJavaStringFromNTS convert_latin1 PG_LATIN1 p w1 = Done h w2 ∧
    is_managed_string w2 h hello_acute_utf8 ∧ h ≠ 1 ∧
    mem w2 = mem w1 ∧
    mem w1 !! p_block p = Some (Raw PgContext (hello_acute_latin1 ++ [0])).
Proof.
  apply (nts_round_trip convert_latin1 PG_LATIN1 1 acute_world
           hello_acute_utf8 hello_acute_latin1).
  - split; [lia|]. exists 1. split; vm_compute; reflexivity.
  - no_zero.
  - no_zero.
  - split; vm_compute; reflexivity.
Defined.

(** X21. The text round trip where no conversion is required. A text made
    by String_createText has no terminator; when the conversion back
    returns its argument, String_createJavaString hands the text's data to
    NewStringUTF, which reads on for a zero byte past the end of the
    block: the call faults instead of giving the string back.  The text's
    size [length u + VARHDRSZ] is below 2^30, so String_createText
    completes. *)
Theorem text_round_trip_without_conversion :
  ∀ convert db (js : jstring) (w : World) (u : list Z),
    is_managed_string w js u → 0 ∉ u → u ≠ [] →
    Z.of_nat (length u) + VARHDRSZ < 1073741824 →
    convert PG_UTF8 db u = Unchanged → convert db PG_UTF8 u = Unchanged →
    ∃ t w1 w2,
      String_createText convert db js w = Done t w1 ∧ t ≠ NULL ∧
      String_createJavaString convert db t w1 = Fail MemoryFault w2.
Proof.
  intros convert db js w u Hs Hu Hne Hn Hforth Hback.
  destruct (createText_spec convert db w js u u Hs Hu)
    as (b & w1 & Hrun & Hb & Hnew & Hmem & _);
    [unfold transcode; by rewrite Hforth|done|].
  assert (Hl : mem w1 !! b
               = Some (Raw PgContext
                         (encode_int32 (Z.of_nat (length u) + VARHDRSZ)
                          ++ u ++ [])))
    by (rewrite app_nil_r, Hmem; apply lookup_insert_eq).
  exists (Ptr b 0), w1. eexists. split; [done|].
  split; [intros [=]; done|].
  apply (createJavaString_overrun convert db w1 b PgContext u []); [done..|].
  rewrite app_nil_r. by apply cstr_no_zero.
Qed.

Lemma text_round_trip_without_conversion_witness :
  ∃ t w1 w2,
    String_createText convert_none PG_UTF8 1 string_world = Done t w1 ∧
    t ≠ NULL ∧
    String_createJavaString convert_none PG_UTF8 t w1 = Fail MemoryFault w2.
Proof.
  apply (text_round_trip_without_conversion convert_none PG_UTF8 1
           string_world hello).
  - split; [lia|]. exists 0. split; vm_compute; reflexivity.
  - no_zero.
  - discriminate.
  - vm_compute. reflexivity.
  - reflexivity.
  - reflexivity.
Defined.

(** ** The cache between initializations *)

Lemma action_keeps_cached convert db fo fi pg_type (a : action) w t p s :
  a ≠ Do_initialize → p ≠ NULL →
  cached t p s w → cached t p s (run_action convert db fo fi pg_type w a).
Proof.
  intros Ha Hp Hc.
  assert (Hk : ∀ A (m : M A), keeps_instances m → cached t p s (world_of (m w))).
  { intros A m Hm. destruct Hc as [Hc Hi]. destruct (Hm w) as [Hc' Hi'].
    split; [by rewrite Hc'|by apply Hi']. }
  destruct a as [|[r t'|t' f|n f]| | | | | | |]; cbn [run_action run_step].
  - done.
  - by apply resolve_keeps.
  - exact Hc.
  - exact Hc.
  - apply Hk, keeps_coerceDatum.
  - apply Hk, keeps_coerceObject.
  - apply Hk, keeps_createJavaString.
  - apply Hk, keeps_createJavaStringFromNTS.
  - apply Hk, keeps_createText.
  - apply Hk, keeps_createNTS.
  - apply Hk, keeps_appendJavaString.
Qed.

(** X22. A cached type stays the type. Once an identifier is cached with
    its instance, then after anything done with String.c short of another
    String_initialize (resolutions of any type through any entry point,
    registrations, coercions and transcoding calls, whether they complete
    or fail) the cache still maps the identifier to the same pointer, the
    instance is unchanged, and every entry point resolves the identifier
    to that pointer without changing anything. *)
Theorem cached_type_survives :
  ∀ convert db fn_output fn_input pg_type (l : list action) (w : World)
    (t : Oid) (p : pointer) (s : String_),
    Do_initialize ∉ l → p ≠ NULL → cached t p s w →
    cached t p s (run_actions convert db fn_output fn_input pg_type l w) ∧
    ∀ r, resolve pg_type r t
           (run_actions convert db fn_output fn_input pg_type l w)
         = Done p (run_actions convert db fn_output fn_input pg_type l w).
Proof.
  intros convert db fo fi pg_type l w t p s Hl Hp Hc.
  assert (H : cached t p s (run_actions convert db fo fi pg_type l w)).
  { revert w Hc. induction l as [|a l IH]; intros w Hc; [done|].
    apply not_elem_of_cons in Hl as [Ha Hl]. simpl.
    apply (IH Hl). apply action_keeps_cached; [by apply not_eq_sym|done..]. }
  split; [done|]. intros r. apply resolve_cached; [apply H|done].
Qed.

Lemma cached_type_survives_witness :
  cached TEXTOID demo_self demo_String
    (run_actions convert_none PG_UTF8 (demo_output utf8_texts)
       (demo_input utf8_texts) demo_catalog demo_actions demo_world) ∧
  ∀ r, resolve demo_catalog r TEXTOID
         (run_actions convert_none PG_UTF8 (demo_output utf8_texts)
            (demo_input utf8_texts) demo_catalog demo_actions demo_world)
       = Done demo_self
           (run_actions convert_none PG_UTF8 (demo_output utf8_texts)
              (demo_input utf8_texts) demo_catalog demo_actions demo_world).
Proof.
  apply (cached_type_survives convert_none PG_UTF8 (demo_output utf8_texts)
           (demo_input utf8_texts) demo_catalog demo_actions demo_world
           TEXTOID demo_self demo_String).
  - unfold demo_actions. rewrite !not_elem_of_cons.
    repeat split; try discriminate. apply not_elem_of_nil.
  - discriminate.
  - split; vm_compute; reflexivity.
Defined.

(** X23. String_initialize starts the cache anew. When String_initialize
    runs again, a type that was cached is resolved afresh: String_obtain
    reads the catalog and returns a new instance at another pointer, while
    the old instance stays in memory, no longer reachable through the
    cache. *)
Theorem initialize_resets_the_cache :
  ∀ pg_type (t : Oid) (p : pointer) (s : String_) (w : World) row,
    cached t p s w → pg_type t = Some row →
    ∃ w1 p' w2,
      String_initialize w = Done tt w1 ∧ s_cache w1 = ∅ ∧
      String_obtain pg_type t w1 = Done p' w2 ∧ p' ≠ p ∧ p' ≠ NULL ∧
      cached t p' (new_String (s_StringClass w1) t row) w2 ∧
      mem w2 !! p_block p = Some (Obj s).
Proof.
  intros pg_type t p s w row [Hc Hm] Hrow.
  set (w1 := world_of (String_initialize w)).
  assert (Hinit : String_initialize w = Done tt w1)
    by (unfold w1; by rewrite String_initialize_world).
  assert (Hc1 : s_cache w1 = ∅)
    by (unfold w1; by rewrite String_initialize_world).
  assert (Hm1 : mem w1 !! p_block p = Some (Obj s)).
  { unfold w1. rewrite String_initialize_world. simpl. by apply keep_alloc. }
  clearbody w1.
  exists w1, (Ptr (fresh_block (mem w1)) 0). eexists.
  split; [done|]. split; [done|].
  split.
  { unfold String_obtain. eapply bind_step; [reflexivity|].
    apply StringClass_obtain_new; [|done]. by rewrite Hc1. }
  split.
  { intros E. pose proof (fresh_block_None (mem w1)) as Hn.
    rewrite <- E in Hm1. cbn [p_block] in Hm1. congruence. }
  split; [intros [=]; by eapply fresh_block_nonzero|].
  split; [split; apply lookup_insert_eq|].
  by apply keep_alloc.
Qed.

Lemma initialize_resets_the_cache_witness :
  ∃ w1 p' w2,
    String_initialize demo_world = Done tt w1 ∧ s_cache w1 = ∅ ∧
    String_obtain demo_catalog TEXTOID w1 = Done p' w2 ∧
    p' ≠ demo_self ∧ p' ≠ NULL ∧
    cached TEXTOID p'
      (new_String (s_StringClass w1) TEXTOID
         {| typoutput := F_TEXTOUT; typinput := F_TEXTIN; typelem := 0 |}) w2 ∧
    mem w2 !! p_block demo_self = Some (Obj demo_String).
Proof.
  apply (initialize_resets_the_cache demo_catalog TEXTOID demo_self
           demo_String demo_world).
  - split; vm_compute; reflexivity.
  - vm_compute. reflexivity.
Defined.
